(** * apm_planner: serial link settings and the PX4 bootloader uploader

  A shallow embedding of [src/comm/SerialLink.cc] and
  [src/ui/configuration/PX4FirmwareUploader.cc].

  Conventions.  A byte ([char], [unsigned char]) is a [Z] in [0, 256); a
  [QByteArray] is a [list Z].  A [QString] is a [string] (8-bit code
  units).  A C++ [int] is a [Z] whose wrap-around is written out where the
  source converts.  Member functions thread the object explicitly. *)

From Stdlib Require Import ZArith List String Ascii Bool Lia Arith.
From Stdlib Require Import DecimalString DecimalZ DecimalPos Sorted.
From Equations Require Import Equations.
Import ListNotations.

#[local] Open Scope string_scope.
#[local] Open Scope list_scope.
#[local] Open Scope Z_scope.

(** ** Qt value classes used by both files *)

Module Qt.

(** [int] is 32 bits wide. *)
Definition INT_MIN : Z := - 2 ^ 31.
Definition INT_MAX : Z := 2 ^ 31 - 1.
Definition in_int (z : Z) : bool := (INT_MIN <=? z) && (z <=? INT_MAX).

(** Conversion of an integer to [int] / [unsigned int] / [char]. *)
Definition to_uint (z : Z) : Z := z mod 2 ^ 32.
Definition to_int (z : Z) : Z :=
  let u := to_uint z in if u <? 2 ^ 31 then u else u - 2 ^ 32.
Definition to_uchar (z : Z) : Z := z mod 256.

(** *** QString *)

Definition isSpace (c : ascii) : bool :=
  let n := N_of_ascii c in ((9 <=? n) && (n <=? 13) || (n =? 32))%N.

Fixpoint trim_left (s : string) : string :=
  match s with
  | String c s' => if isSpace c then trim_left s' else s
  | EmptyString => EmptyString
  end.

(** [trim_right] drops the trailing white space: a character is kept when
    it is not a space or when something is kept after it. *)
Fixpoint trim_right (s : string) : string :=
  match s with
  | String c s' =>
      match trim_right s' with
      | EmptyString => if isSpace c then EmptyString else String c EmptyString
      | t => String c t
      end
  | EmptyString => EmptyString
  end.

(** [QString::trimmed]. *)
Definition trimmed (s : string) : string := trim_right (trim_left s).

(** [QString::mid(position, n)]: [n] characters from [position]; the rest
    of the string when [n] is negative or exceeds what is left; the null
    string when [position] is past the end. *)
Definition mid (position : nat) (n : Z) (s : string) : string :=
  if (String.length s <? position)%nat then EmptyString
  else
    let rest := (String.length s - position)%nat in
    if (n <? 0) || (Z.of_nat rest <? n) then substring position rest s
    else substring position (Z.to_nat n) s.

(** [QString::split(sep)] with the default [KeepEmptyParts]: the pieces
    between the successive, non-overlapping occurrences of a non-empty
    [sep], scanning from the left.  [skip] counts the characters of an
    occurrence of [sep] still to be passed over; [cur] is the piece being
    collected. *)
Fixpoint split_from (sep : string) (skip : nat) (cur s : string) : list string :=
  match s with
  | EmptyString => [cur]
  | String c s' =>
      match skip with
      | S k => split_from sep k cur s'
      | O =>
          if prefix sep s
          then cur :: split_from sep (String.length sep - 1) EmptyString s'
          else split_from sep O (cur ++ String c EmptyString)%string s'
      end
  end.

Definition split (sep s : string) : list string :=
  split_from sep O EmptyString s.

(** [QString::number(int)]: decimal digits, a leading '-' when negative. *)
Definition number (z : Z) : string := NilZero.string_of_int (Z.to_int z).

(** [QString::toInt()]: surrounding white space is ignored, then an
    optional sign and decimal digits; 0 when the text is not a number or
    the number does not fit an [int]. *)
Definition parse_int (s : string) : option Z :=
  match s with
  | String "+"%char s' => option_map (fun d => Z.of_int (Decimal.Pos d)) (NilZero.uint_of_string s')
  | _ => option_map Z.of_int (NilZero.int_of_string s)
  end.

Definition toInt (s : string) : Z :=
  match parse_int (trimmed s) with
  | Some z => if in_int z then z else 0
  | None => 0
  end.

(** *** QMap<QString,int>

    A [QMap] keeps its entries in ascending key order, one entry per key;
    iteration from [constBegin] to [constEnd] visits them in that order. *)
Definition QMap : Type := list (string * Z).

Definition key_lt (a b : string * Z) : Prop := String.compare (fst a) (fst b) = Lt.

(** The class invariant of a [QMap]. *)
Definition ordered (m : QMap) : Prop := StronglySorted key_lt m.

(** [m[k] = v]. *)
Fixpoint insert (k : string) (v : Z) (m : QMap) : QMap :=
  match m with
  | [] => [(k, v)]
  | (k', v') :: m' =>
      match String.compare k k' with
      | Lt => (k, v) :: m
      | Eq => (k, v) :: m'
      | Gt => (k', v') :: insert k v m'
      end
  end.

Fixpoint find (k : string) (m : QMap) : option Z :=
  match m with
  | [] => None
  | (k', v') :: m' => if String.eqb k k' then Some v' else find k m'
  end.

Definition contains (k : string) (m : QMap) : bool :=
  match find k m with Some _ => true | None => false end.

(** [m[k]] read as a value: 0 (a default-constructed [int]) when absent. *)
Definition value (k : string) (m : QMap) : Z :=
  match find k m with Some v => v | None => 0 end.

(** *** QVariant and QSettings, as far as SerialLink uses them *)
Inductive QVariant : Type :=
| Invalid
| VInt (z : Z)
| VString (s : string).

Definition variant_toString (v : QVariant) : string :=
  match v with Invalid => EmptyString | VInt z => number z | VString s => s end.

Definition variant_toInt (v : QVariant) : Z :=
  match v with Invalid => 0 | VInt z => z | VString s => toInt s end.

(** The flat key/value store. *)
Definition QSettings : Type := string -> QVariant.

Definition no_settings : QSettings := fun _ => Invalid.

Definition setValue (k : string) (v : QVariant) (st : QSettings) : QSettings :=
  fun k' => if String.eqb k' k then v else st k'.

Definition settings_contains (k : string) (st : QSettings) : bool :=
  match st k with Invalid => false | _ => true end.

End Qt.

(** ** src/comm/SerialLink.cc *)

Module SerialLink.
Import Qt.

(** The enumerants of [QSerialPort] that the accessors switch on
    (qserialport.h). *)
Definition Data5 : Z := 5.
Definition Data6 : Z := 6.
Definition Data7 : Z := 7.
Definition Data8 : Z := 8.
Definition OneStop : Z := 1.
Definition TwoStop : Z := 2.

(** The device object behind [m_port].  [baud_ok] is the answer of the
    operating system to [QSerialPort::setBaudRate]. *)
Record QSerialPort : Type := {
  portName : string;
  baudRate : Z;
  dataBits : Z;
  flowControl : Z;
  stopBits : Z;
  parity : Z;
  baud_ok : Z -> bool
}.

Definition port_setPortName (n : string) (p : QSerialPort) : QSerialPort :=
  {| portName := n; baudRate := baudRate p; dataBits := dataBits p;
     flowControl := flowControl p; stopBits := stopBits p; parity := parity p;
     baud_ok := baud_ok p |}.

Definition port_setBaudRate (r : Z) (p : QSerialPort) : bool * QSerialPort :=
  if baud_ok p r
  then (true, {| portName := portName p; baudRate := r; dataBits := dataBits p;
                 flowControl := flowControl p; stopBits := stopBits p;
                 parity := parity p; baud_ok := baud_ok p |})
  else (false, p).

Inductive signal : Type :=
| nameChanged (name : string)
| updateLink.

(** The members of [SerialLink] that the modelled functions touch.
    [m_bitsSentTotal], [m_bitsReceivedTotal] and [m_connectionStartTime]
    are [quint64] (SerialLink.h), as is the millisecond clock
    [MG::TIME::getGroundTimeNow]. *)
Record t : Type := {
  m_port : option QSerialPort;
  m_baud : Z;
  m_dataBits : Z;
  m_flowControl : Z;
  m_stopBits : Z;
  m_parity : Z;
  m_portName : string;
  m_portBaudMap : QMap;
  m_bitsSentTotal : Z;
  m_bitsReceivedTotal : Z;
  m_connectionStartTime : Z;
  m_statisticsMutex : bool;          (* [true] while locked *)
  emitted : list signal               (* in order of emission *)
}.

Definition set_port (p : option QSerialPort) (l : t) : t :=
  {| m_port := p; m_baud := m_baud l; m_dataBits := m_dataBits l;
     m_flowControl := m_flowControl l; m_stopBits := m_stopBits l;
     m_parity := m_parity l; m_portName := m_portName l;
     m_portBaudMap := m_portBaudMap l; m_bitsSentTotal := m_bitsSentTotal l;
     m_bitsReceivedTotal := m_bitsReceivedTotal l;
     m_connectionStartTime := m_connectionStartTime l;
     m_statisticsMutex := m_statisticsMutex l; emitted := emitted l |}.

Definition set_baud (b : Z) (l : t) : t :=
  {| m_port := m_port l; m_baud := b; m_dataBits := m_dataBits l;
     m_flowControl := m_flowControl l; m_stopBits := m_stopBits l;
     m_parity := m_parity l; m_portName := m_portName l;
     m_portBaudMap := m_portBaudMap l; m_bitsSentTotal := m_bitsSentTotal l;
     m_bitsReceivedTotal := m_bitsReceivedTotal l;
     m_connectionStartTime := m_connectionStartTime l;
     m_statisticsMutex := m_statisticsMutex l; emitted := emitted l |}.

Definition set_line (par stop data flow : Z) (l : t) : t :=
  {| m_port := m_port l; m_baud := m_baud l; m_dataBits := data;
     m_flowControl := flow; m_stopBits := stop;
     m_parity := par; m_portName := m_portName l;
     m_portBaudMap := m_portBaudMap l; m_bitsSentTotal := m_bitsSentTotal l;
     m_bitsReceivedTotal := m_bitsReceivedTotal l;
     m_connectionStartTime := m_connectionStartTime l;
     m_statisticsMutex := m_statisticsMutex l; emitted := emitted l |}.

Definition set_portName (n : string) (l : t) : t :=
  {| m_port := m_port l; m_baud := m_baud l; m_dataBits := m_dataBits l;
     m_flowControl := m_flowControl l; m_stopBits := m_stopBits l;
     m_parity := m_parity l; m_portName := n;
     m_portBaudMap := m_portBaudMap l; m_bitsSentTotal := m_bitsSentTotal l;
     m_bitsReceivedTotal := m_bitsReceivedTotal l;
     m_connectionStartTime := m_connectionStartTime l;
     m_statisticsMutex := m_statisticsMutex l; emitted := emitted l |}.

Definition set_portBaudMap (m : QMap) (l : t) : t :=
  {| m_port := m_port l; m_baud := m_baud l; m_dataBits := m_dataBits l;
     m_flowControl := m_flowControl l; m_stopBits := m_stopBits l;
     m_parity := m_parity l; m_portName := m_portName l;
     m_portBaudMap := m; m_bitsSentTotal := m_bitsSentTotal l;
     m_bitsReceivedTotal := m_bitsReceivedTotal l;
     m_connectionStartTime := m_connectionStartTime l;
     m_statisticsMutex := m_statisticsMutex l; emitted := emitted l |}.

Definition lock_statistics (l : t) : t :=
  {| m_port := m_port l; m_baud := m_baud l; m_dataBits := m_dataBits l;
     m_flowControl := m_flowControl l; m_stopBits := m_stopBits l;
     m_parity := m_parity l; m_portName := m_portName l;
     m_portBaudMap := m_portBaudMap l; m_bitsSentTotal := m_bitsSentTotal l;
     m_bitsReceivedTotal := m_bitsReceivedTotal l;
     m_connectionStartTime := m_connectionStartTime l;
     m_statisticsMutex := true; emitted := emitted l |}.

Definition emit (s : signal) (l : t) : t :=
  {| m_port := m_port l; m_baud := m_baud l; m_dataBits := m_dataBits l;
     m_flowControl := m_flowControl l; m_stopBits := m_stopBits l;
     m_parity := m_parity l; m_portName := m_portName l;
     m_portBaudMap := m_portBaudMap l; m_bitsSentTotal := m_bitsSentTotal l;
     m_bitsReceivedTotal := m_bitsReceivedTotal l;
     m_connectionStartTime := m_connectionStartTime l;
     m_statisticsMutex := m_statisticsMutex l; emitted := emitted l ++ [s] |}.

(** *** Accessors *)

Definition getPortName (l : t) : string := m_portName l.

Definition getBaudRateType (l : t) : Z :=
  match m_port l with Some p => baudRate p | None => m_baud l end.

Definition getFlowType (l : t) : Z :=
  match m_port l with Some p => flowControl p | None => m_flowControl l end.

Definition getParityType (l : t) : Z :=
  match m_port l with Some p => parity p | None => m_parity l end.

Definition getDataBits (l : t) : Z :=
  let dataBits := match m_port l with Some p => dataBits p | None => m_dataBits l end in
  if dataBits =? Data5 then 5
  else if dataBits =? Data6 then 6
  else if dataBits =? Data7 then 7
  else if dataBits =? Data8 then 8
  else -1.

Definition getStopBits (l : t) : Z :=
  let stopBits := match m_port l with Some p => stopBits p | None => m_stopBits l end in
  if stopBits =? OneStop then 1
  else if stopBits =? TwoStop then 2
  else -1.

(** *** Settings *)

(** The [foreach] of [loadSettings]: an entry with exactly one ':' is
    stored, any other is skipped. *)
Definition load_portbaud (m : QMap) (portbaud : string) : QMap :=
  if (List.length (split ":" portbaud) =? 2)%nat
  then insert (nth 0 (split ":" portbaud) EmptyString)
              (toInt (nth 1 (split ":" portbaud) EmptyString)) m
  else m.

Definition loadSettings (settings : QSettings) (l : t) : t :=
  if settings_contains "SERIALLINK_COMM_PORT" settings then
    let l := set_portName (variant_toString (settings "SERIALLINK_COMM_PORT")) l in
    let l := set_baud (variant_toInt (settings "SERIALLINK_COMM_BAUD")) l in
    let l := set_line (variant_toInt (settings "SERIALLINK_COMM_PARITY"))
                      (variant_toInt (settings "SERIALLINK_COMM_STOPBITS"))
                      (variant_toInt (settings "SERIALLINK_COMM_DATABITS"))
                      (variant_toInt (settings "SERIALLINK_COMM_FLOW_CONTROL")) l in
    let portbaudmap := variant_toString (settings "SERIALLINK_COMM_PORTMAP") in
    let portbaudsplit := split "," portbaudmap in
    let l := set_portBaudMap (fold_left load_portbaud portbaudsplit (m_portBaudMap l)) l in
    if (List.length (m_portBaudMap l) =? 0)%nat
    then set_portBaudMap (insert (m_portName l) (m_baud l) (m_portBaudMap l)) l
    else l
  else l.

(** The string that [writeSettings] builds for the per-port baud map. *)
Definition portbaudmap_string (m : QMap) : string :=
  let portbaudmap :=
    fold_left (fun acc i => (acc ++ fst i ++ ":" ++ number (snd i) ++ ",")%string)
              m EmptyString in
  mid 0 (Z.of_nat (String.length portbaudmap) - 1) portbaudmap.

Definition writeSettings (l : t) (settings : QSettings) : QSettings :=
  let settings := setValue "SERIALLINK_COMM_PORT" (VString (getPortName l)) settings in
  let settings := setValue "SERIALLINK_COMM_BAUD" (VInt (getBaudRateType l)) settings in
  let settings := setValue "SERIALLINK_COMM_PARITY" (VInt (getParityType l)) settings in
  let settings := setValue "SERIALLINK_COMM_STOPBITS" (VInt (getStopBits l)) settings in
  let settings := setValue "SERIALLINK_COMM_DATABITS" (VInt (getDataBits l)) settings in
  let settings := setValue "SERIALLINK_COMM_FLOW_CONTROL" (VInt (getFlowType l)) settings in
  setValue "SERIALLINK_COMM_PORTMAP" (VString (portbaudmap_string (m_portBaudMap l))) settings.

(** *** Statistics *)

Definition quint64 (z : Z) : Z := z mod 2 ^ 64.
Definition qint64 (z : Z) : Z :=
  let u := quint64 z in if u <? 2 ^ 63 then u else u - 2 ^ 64.

(** What a call of a rate accessor does: it returns a value, or it divides
    by zero, or it blocks on the statistics mutex, which the accessor that
    ran before it has left locked (the [unlock] follows the [return]). *)
Inductive rate_result : Type :=
| Rate (v : Z)
| DivisionByZero
| Blocked.

(** The divisor of both rate accessors, at clock value [now]. *)
Definition elapsed_seconds (now : Z) (l : t) : Z :=
  quint64 (now - m_connectionStartTime l) / 1000.

Definition getTotalUpstream (now : Z) (l : t) : rate_result * t :=
  if m_statisticsMutex l then (Blocked, l)
  else
    let l := lock_statistics l in
    let divisor := elapsed_seconds now l in
    if divisor =? 0 then (DivisionByZero, l)
    else (Rate (qint64 (m_bitsSentTotal l / divisor)), l).

Definition getTotalDownstream (now : Z) (l : t) : rate_result * t :=
  if m_statisticsMutex l then (Blocked, l)
  else
    let l := lock_statistics l in
    let divisor := elapsed_seconds now l in
    if divisor =? 0 then (DivisionByZero, l)
    else (Rate (qint64 (m_bitsReceivedTotal l / divisor)), l).

(** *** Setters *)

Definition setBaudRate (rate : Z) (l : t) : bool * t :=
  if negb (rate =? m_baud l) then
    let l := set_baud rate l in
    let accepted := true in
    let l := set_portBaudMap (insert (m_portName l) rate (m_portBaudMap l)) l in
    let '(accepted, l) :=
      match m_port l with
      | Some p => let '(ok, p) := port_setBaudRate rate p in (ok, set_port (Some p) l)
      | None => (accepted, l)
      end in
    (accepted, emit updateLink l)
  else (false, l).

Definition setPortName (portName : string) (l : t) : bool * t :=
  let accepted := false in
  if negb (String.eqb portName (m_portName l))
     && (0 <? String.length (trimmed portName))%nat
  then
    let l := set_portName (trimmed portName) l in
    let l := match m_port l with
             | Some p => set_port (Some (port_setPortName portName p)) l
             | None => l
             end in
    let l := emit (nameChanged (m_portName l)) l in
    let l := emit updateLink l in
    let l := if contains (m_portName l) (m_portBaudMap l)
             then snd (setBaudRate (value (m_portName l) (m_portBaudMap l)) l)
             else l in
    (accepted, l)
  else (false, l).

End SerialLink.

(** ** src/ui/configuration/PX4FirmwareUploader.cc *)

Module PX4FirmwareUploader.
Import Qt.

Definition PROTO_OK : Z := 0x10.
Definition PROTO_GET_DEVICE : Z := 0x22.
Definition PROTO_EOC : Z := 0x20.
Definition PROTO_DEVICE_BL_REV : Z := 0x01.
Definition PROTO_DEVICE_BOARD_ID : Z := 0x02.
Definition PROTO_DEVICE_BOARD_REV : Z := 0x03.
Definition PROTO_DEVICE_FW_SIZE : Z := 0x04.
Definition PROTO_DEVICE_VEC_AREA : Z := 0x05.

(** *** The objects the uploader owns *)

(** The outcome of one [m_port->waitForReadyRead]: bytes became readable
    (and the [readAll] that follows returns them), or the wait expired. *)
Inductive port_event : Type :=
| Data (bytes : list Z)
| Expired.

(** The serial port, seen from the uploader.  [incoming] scripts the device:
    the outcomes of the successive waits, a silent device once it is
    used up.  Bytes that the driver throws away ([clear], the
    [bytesAvailable]/[read(1)] loops) are not part of the script.
    [written] lists the arguments of the successive [write] calls. *)
Record QSerialPort : Type := {
  incoming : list port_event;
  written : list (list Z);
  isOpen : bool
}.



Record QTemporaryFile : Type := {
  data : list Z;
  pos : nat;
  file_isOpen : bool
}.

Inductive signal : Type :=
| statusUpdate (msg : string)
| boardRev (rev : Z)
| boardId (id : Z)
| bootloaderRev (rev : Z)
| flashSize (size : Z)
| serialNumber (sn : string)
| OTP (otp : string)
| flashProgress (pos size : Z)
| error (msg : string)
| done.

(** The uploader object.  [m_port_deleted] records [delete m_port];
    [tempFile] is [None] before [loadFile] has created the file and after
    [delete tempFile]; [running] records [start()].  [m_port_assigned]
    records that the pointer [m_port] has been given a value: the
    constructor leaves it uninitialised, and [run] is the only function
    that assigns it ([m_port = new QSerialPort()]); [m_port] is the
    object it points to once it is assigned. *)
Record t : Type := {
  m_stop : bool;
  m_serialBuffer : list Z;
  m_port : QSerialPort;
  m_port_deleted : bool;
  tempFile : option QTemporaryFile;
  m_loadedBoardID : Z;
  m_loadedFwSize : Z;
  m_loadedDescription : string;
  running : bool;
  emitted : list signal;
  m_port_assigned : bool
}.

Definition with_serialBuffer (b : list Z) (s : t) : t :=
  {| m_stop := m_stop s; m_serialBuffer := b; m_port := m_port s;
     m_port_deleted := m_port_deleted s; tempFile := tempFile s;
     m_loadedBoardID := m_loadedBoardID s; m_loadedFwSize := m_loadedFwSize s;
     m_loadedDescription := m_loadedDescription s; running := running s;
     emitted := emitted s;
     m_port_assigned := m_port_assigned s |}.

Definition with_port (p : QSerialPort) (s : t) : t :=
  {| m_stop := m_stop s; m_serialBuffer := m_serialBuffer s; m_port := p;
     m_port_deleted := m_port_deleted s; tempFile := tempFile s;
     m_loadedBoardID := m_loadedBoardID s; m_loadedFwSize := m_loadedFwSize s;
     m_loadedDescription := m_loadedDescription s; running := running s;
     emitted := emitted s;
     m_port_assigned := m_port_assigned s |}.

Definition with_port_deleted (s : t) : t :=
  {| m_stop := m_stop s; m_serialBuffer := m_serialBuffer s; m_port := m_port s;
     m_port_deleted := true; tempFile := tempFile s;
     m_loadedBoardID := m_loadedBoardID s; m_loadedFwSize := m_loadedFwSize s;
     m_loadedDescription := m_loadedDescription s; running := running s;
     emitted := emitted s;
     m_port_assigned := m_port_assigned s |}.

Definition with_tempFile (f : option QTemporaryFile) (s : t) : t :=
  {| m_stop := m_stop s; m_serialBuffer := m_serialBuffer s; m_port := m_port s;
     m_port_deleted := m_port_deleted s; tempFile := f;
     m_loadedBoardID := m_loadedBoardID s; m_loadedFwSize := m_loadedFwSize s;
     m_loadedDescription := m_loadedDescription s; running := running s;
     emitted := emitted s;
     m_port_assigned := m_port_assigned s |}.

Definition with_loaded (id size : Z) (description : string) (s : t) : t :=
  {| m_stop := m_stop s; m_serialBuffer := m_serialBuffer s; m_port := m_port s;
     m_port_deleted := m_port_deleted s; tempFile := tempFile s;
     m_loadedBoardID := id; m_loadedFwSize := size;
     m_loadedDescription := description; running := running s;
     emitted := emitted s;
     m_port_assigned := m_port_assigned s |}.

Definition with_running (s : t) : t :=
  {| m_stop := m_stop s; m_serialBuffer := m_serialBuffer s; m_port := m_port s;
     m_port_deleted := m_port_deleted s; tempFile := tempFile s;
     m_loadedBoardID := m_loadedBoardID s; m_loadedFwSize := m_loadedFwSize s;
     m_loadedDescription := m_loadedDescription s; running := true;
     emitted := emitted s;
     m_port_assigned := m_port_assigned s |}.

Definition with_emitted (e : list signal) (s : t) : t :=
  {| m_stop := m_stop s; m_serialBuffer := m_serialBuffer s; m_port := m_port s;
     m_port_deleted := m_port_deleted s; tempFile := tempFile s;
     m_loadedBoardID := m_loadedBoardID s; m_loadedFwSize := m_loadedFwSize s;
     m_loadedDescription := m_loadedDescription s; running := running s;
     emitted := e;
     m_port_assigned := m_port_assigned s |}.

(** *** Control flow

    A statement of [run] ends normally with a value, or leaves the
    enclosing retry loop iteration ([continue]), or leaves [run]
    ([return]).  [OutOfFuel] marks a loop of the model cut short;
    [Fault] marks the use of [tempFile] when there is no file. *)
Inductive result (A : Type) : Type :=
| Ok (a : A)
| Continue
| Return
| OutOfFuel
| Fault.
Arguments Ok {A} a.
Arguments Continue {A}.
Arguments Return {A}.
Arguments OutOfFuel {A}.
Arguments Fault {A}.

Definition M (A : Type) : Type := t -> result A * t.

Definition ret {A : Type} (a : A) : M A := fun s => (Ok a, s).

Definition bind {A B : Type} (c : M A) (k : A -> M B) : M B :=
  fun s =>
    match c s with
    | (Ok a, s') => k a s'
    | (Continue, s') => (Continue, s')
    | (Return, s') => (Return, s')
    | (OutOfFuel, s') => (OutOfFuel, s')
    | (Fault, s') => (Fault, s')
    end.

Definition continue {A : Type} : M A := fun s => (Continue, s).
Definition return_ {A : Type} : M A := fun s => (Return, s).
Definition out_of_fuel {A : Type} : M A := fun s => (OutOfFuel, s).
Definition fault {A : Type} : M A := fun s => (Fault, s).

Declare Scope uploader_scope.
Delimit Scope uploader_scope with uploader.
Notation "x <- c ;; k" := (bind c (fun x => k))
  (at level 61, c at next level, right associativity) : uploader_scope.
Notation "' p <- c ;; k" := (bind c (fun x => let p := x in k))
  (at level 61, p pattern, c at next level, right associativity) : uploader_scope.
Notation "c ;; k" := (bind c (fun _ => k))
  (at level 61, right associativity) : uploader_scope.
#[local] Open Scope uploader_scope.

Definition get_stop : M bool := fun s => (Ok (m_stop s), s).

Definition emit (sig : signal) : M unit :=
  fun s => (Ok tt, with_emitted (emitted s ++ [sig]) s).

(** [m_port->write(bytes)]. *)
Definition port_write (bytes : list Z) : M unit :=
  fun s =>
    let p := m_port s in
    (Ok tt, with_port {| incoming := incoming p; written := written p ++ [bytes];
                         isOpen := isOpen p |} s).

(** [m_port->close()]. *)
Definition port_close : M unit :=
  fun s =>
    let p := m_port s in
    (Ok tt, with_port {| incoming := incoming p; written := written p;
                         isOpen := false |} s).

(** [delete m_port]. *)
Definition port_delete : M unit := fun s => (Ok tt, with_port_deleted s).

(** [m_port->waitForReadyRead(msecs)], given what arrives. *)
Definition port_waitForReadyRead (msecs : Z) : M port_event :=
  fun s =>
    let p := m_port s in
    match incoming p with
    | [] => (Ok Expired, s)
    | e :: rest =>
        (Ok e, with_port {| incoming := rest; written := written p;
                            isOpen := isOpen p |} s)
    end.

(** [m_port->waitForReadyRead(msecs)] followed by the loop that reads and
    drops whatever is available. *)
Definition port_wait_and_drain (msecs : Z) : M unit :=
  _ <- port_waitForReadyRead msecs ;; ret tt.

(** *** readBytes

    The inner [while (m_port->waitForReadyRead(timeout))] of [readBytes]:
    what arrives is appended to [m_serialBuffer] until [num] bytes are
    there or a wait expires.  The result is the return value, the bytes
    appended to [buf], the new [m_serialBuffer] and the rest of the
    script.  The statements after [return -1] are never executed. *)
Fixpoint wait_for_bytes (num : nat) (serialBuffer : list Z) (script : list port_event)
  : Z * list Z * list Z * list port_event :=
  match script with
  | [] => (-1, [], serialBuffer, [])
  | Expired :: script' => (-1, [], serialBuffer, script')
  | Data bytes :: script' =>
      let serialBuffer := serialBuffer ++ bytes in
      if (num <=? List.length serialBuffer)%nat
      then (Z.of_nat num, firstn num serialBuffer, skipn num serialBuffer, script')
      else wait_for_bytes num serialBuffer script'
  end.

(** [readBytes(num, timeout, buf)] called with an empty [buf]: the return
    value and [buf] afterwards.  With fewer than [num] bytes in
    [m_serialBuffer], the outer [while] is guarded by [count < num], which
    holds ([count] is -1), and by
    [QDateTime::currentMSecsSinceEpoch() < (msec + timeout)], where [msec]
    is the clock read just before.  For a [timeout] that is not positive
    the guard fails, the loop is not entered and [count], still -1, is
    returned: nothing is read from the port.  For a positive [timeout] the
    guard holds when it is first tested (the clock is taken not to advance
    by [timeout] ms between the two readings that follow each other), and
    the body leaves the function, so the outer loop is the one pass through
    the inner loop, each wait of which lasts up to [timeout] ms. *)
Definition readBytes (num : nat) (timeout : Z) : M (Z * list Z) :=
  fun s =>
    if (num <=? List.length (m_serialBuffer s))%nat
    then (Ok (Z.of_nat num, firstn num (m_serialBuffer s)),
          with_serialBuffer (skipn num (m_serialBuffer s)) s)
    else if timeout <=? 0
    then (Ok (-1, []), s)
    else
      let p := m_port s in
      let '(count, buf, serialBuffer, script) :=
        wait_for_bytes num (m_serialBuffer s) (incoming p) in
      (Ok (count, buf),
       with_serialBuffer serialBuffer
         (with_port {| incoming := script; written := written p;
                       isOpen := isOpen p |} s)).

(** [get_sync(timeout)]. *)
Definition get_sync (timeout : Z) : M Z :=
  '(read, infobuf) <- readBytes 2 timeout ;;
  if negb (read =? 2) then ret (-1)
  else if negb (nth 0 infobuf 0 =? 0x12) || negb (nth 1 infobuf 0 =? 0x10)
       then ret (-1)
       else ret 0.

(** Modelled from the spec: the default argument of [get_sync], declared
    in PX4FirmwareUploader.h; the spec gives 2 s for the SYNC footer. *)
Definition get_sync_default_timeout : Z := 2000.

(** [reqInfo(infobyte, &reply)]: the return value and [*reply]
    afterwards. *)
Definition reqInfo (infobyte : Z) (reply : Z) : M (bool * Z) :=
  port_write [PROTO_GET_DEVICE; to_uchar infobyte; PROTO_EOC] ;;
  '(read, infobuf) <- readBytes 4 5000 ;;
  let reply :=
    if negb (read =? 4) then reply
    else to_uint (to_uchar (nth 0 infobuf 0)
                  + Z.shiftl (to_uchar (nth 1 infobuf 0)) 8
                  + Z.shiftl (to_uchar (nth 2 infobuf 0)) 16
                  + Z.shiftl (to_uchar (nth 3 infobuf 0)) 24) in
  sync <- get_sync 2000 ;;
  if negb (sync =? 0) then ret (false, reply) else ret (true, reply).

(** *** loadFile *)

(** The 4-byte big-endian size header put in front of the blob. *)
Definition size_header (fwSize : Z) : list Z :=
  [to_uchar (Z.land (Z.shiftr fwSize 24) 0xFF);
   to_uchar (Z.land (Z.shiftr fwSize 16) 0xFF);
   to_uchar (Z.land (Z.shiftr fwSize 8) 0xFF);
   to_uchar (Z.land (Z.shiftr fwSize 0) 0xFF)].

(** The number of bytes that the padding loop has still to append to a
    buffer of [n] bytes. *)
Definition appends_left (n : nat) : nat := ((4 - n mod 4) mod 4)%nat.
Arguments appends_left : simpl never.

(** [while ((uncompressed.count() % 4) != 0) uncompressed.append(0xFF);] *)
Equations? pad4 (uncompressed : list Z) : list Z
  by wf (appends_left (List.length uncompressed)) lt :=
  pad4 uncompressed with Nat.eq_dec (List.length uncompressed mod 4) 0 := {
    | left _ => uncompressed
    | right _ => pad4 (uncompressed ++ [0xFF]) }.
Proof.
  rewrite length_app. simpl List.length.
  clear pad4. revert n. generalize (List.length uncompressed). intros n Hn.
  change (n mod 4 <> 0)%nat in Hn.
  unfold appends_left.
  assert (Hb : (n mod 4 < 4)%nat) by (apply Nat.mod_upper_bound; lia).
  assert (Hs : ((n + 1) mod 4 = (n mod 4 + 1) mod 4)%nat).
  { rewrite Nat.Div0.add_mod by lia. reflexivity. }
  rewrite Hs.
  assert (Hc : (n mod 4 = 1 \/ n mod 4 = 2 \/ n mod 4 = 3)%nat) by lia.
  destruct Hc as [-> | [-> | ->]]; simpl; lia.
Qed.

(** The double quote character, as a string. *)
Definition dquote : string := String (ascii_of_nat 34) EmptyString.

(** The text of a field: what follows the last occurrence of [key], up to
    the first [stop]. *)
Definition field (key stop jsonstring : string) : string :=
  let decode_list := split key jsonstring in
  let decode_list := split stop (last decode_list EmptyString) in
  hd EmptyString decode_list.

(** [m_loadedFwSize] as [loadFile] reads it from the file: the text
    between the last ["image_size":] and the next comma, trimmed, through
    [toInt]. *)
Definition declared_size (jsonstring : string) : Z :=
  toInt (trimmed (field (dquote ++ "image_size" ++ dquote ++ ":")%string "," jsonstring)).

(** How a call of [loadFile] ends: at a [return] with its value; at the
    closing brace of the function, which the source reaches without a
    [return], so that no value is returned for the [bool]; or in a member
    call through [m_port] while the pointer is not the address of an
    object. *)
Inductive load_result : Type :=
| Returned (value : bool)
| NoReturnValue
| BadPointer.

(** [m_port] points to a [QSerialPort]: it has been assigned and the
    object has not been deleted. *)
Definition port_is_object (s : t) : bool :=
  m_port_assigned s && negb (m_port_deleted s).

Section Decode.

(** [QByteArray::fromBase64] and [qUncompress] are Qt's. *)
Variable fromBase64 : string -> list Z.
Variable qUncompress : list Z -> list Z.

(** The bytes handed to the size check: the decompressed blob. *)
Definition decode_image (jsonstring : string) : list Z :=
  let fwSize := toInt (trimmed (field (dquote ++ "image_size" ++ dquote ++ ":")%string "," jsonstring)) in
  let raw64 := field (dquote ++ "image" ++ dquote ++ ": " ++ dquote)%string dquote jsonstring in
  qUncompress (size_header fwSize ++ fromBase64 raw64).

(** [loadFile], from the text of the file on.  The three
    [decode_list.count() < 1] tests cannot succeed, [split] never returns
    an empty list.  The branch of the size check calls [m_port->close()]
    before its [return false]: [loadFile] does not assign [m_port], so the
    call needs the object of an earlier [run]. *)
Definition loadFile (jsonstring : string) (s : t) : load_result * t :=
  let board_id := trimmed (field (dquote ++ "board_id" ++ dquote ++ ":")%string "," jsonstring) in
  let loadedBoardID := toInt board_id in
  let image_size := trimmed (field (dquote ++ "image_size" ++ dquote ++ ":")%string "," jsonstring) in
  let loadedFwSize := toInt image_size in
  let loadedDescription := trimmed (field (dquote ++ "description" ++ dquote ++ ": " ++ dquote)%string dquote jsonstring) in
  let s := with_loaded loadedBoardID loadedFwSize loadedDescription s in
  let raw64 := field (dquote ++ "image" ++ dquote ++ ": " ++ dquote)%string dquote jsonstring in
  let fwimage := size_header (m_loadedFwSize s) ++ fromBase64 raw64 in
  let uncompressed := qUncompress fwimage in
  if negb (Z.of_nat (List.length uncompressed) =? m_loadedFwSize s)
  then
    if port_is_object s then (Returned false, snd (port_close s))
    else (BadPointer, s)
  else
    let uncompressed := pad4 uncompressed in
    let s := with_tempFile
               (Some {| data := uncompressed; pos := 0%nat; file_isOpen := false |}) s in
    (NoReturnValue, with_running s).

End Decode.

(** *** The temporary file *)

Definition with_file (f : QTemporaryFile -> QTemporaryFile) : M unit :=
  fun s =>
    match tempFile s with
    | Some file => (Ok tt, with_tempFile (Some (f file)) s)
    | None => (Fault, s)
    end.

Definition of_file {A : Type} (f : QTemporaryFile -> A) : M A :=
  fun s =>
    match tempFile s with
    | Some file => (Ok (f file), s)
    | None => (Fault, s)
    end.

(** [tempFile->open()]: the file is read from its start. *)
Definition tempFile_open : M unit :=
  with_file (fun f => {| data := data f; pos := 0%nat; file_isOpen := true |}).

Definition tempFile_close : M unit :=
  with_file (fun f => {| data := data f; pos := pos f; file_isOpen := false |}).

Definition tempFile_seek (p : nat) : M unit :=
  with_file (fun f => {| data := data f; pos := p; file_isOpen := file_isOpen f |}).

Definition tempFile_atEnd : M bool :=
  of_file (fun f => (List.length (data f) <=? pos f)%nat).

Definition tempFile_pos : M Z := of_file (fun f => Z.of_nat (pos f)).
Definition tempFile_size : M Z := of_file (fun f => Z.of_nat (List.length (data f))).

(** [tempFile->read(maxlen)]. *)
Definition tempFile_read (maxlen : nat) : M (list Z) :=
  buf <- of_file (fun f => firstn maxlen (skipn (pos f) (data f))) ;;
  with_file (fun f => {| data := data f; pos := (pos f + List.length buf)%nat;
                         file_isOpen := file_isOpen f |}) ;;
  ret buf.

(** [delete tempFile]. *)
Definition tempFile_delete : M unit :=
  fun s =>
    match tempFile s with
    | Some _ => (Ok tt, with_tempFile None s)
    | None => (Fault, s)
    end.

(** *** Buffers and their text form *)

(** [a[i] = v] on a C array. *)
Fixpoint store (i : nat) (v : Z) (a : list Z) : list Z :=
  match a, i with
  | [], _ => []
  | _ :: a', O => v :: a'
  | x :: a', S j => x :: store j v a'
  end.

Definition hex_digit (d : Z) : string := substring (Z.to_nat d) 1 "0123456789ABCDEF".

(** [QString::number(b, 16).toUpper()] of an [unsigned char]. *)
Definition number16_upper (b : Z) : string :=
  ((if (b <? 16)%Z then EmptyString else hex_digit (b / 16)%Z) ++ hex_digit (b mod 16)%Z)%string.

(** The text of a byte in the dumps: the character 0 in front of a value up
    to 0xF, then [QString::number(b,16).toUpper()], then a space. *)
Definition hex_byte (b : Z) : string :=
  ((if (b <=? 0xF)%Z then "0" else EmptyString) ++ number16_upper b ++ " ")%string.

Definition newline : string := String (ascii_of_nat 10) EmptyString.

(** The loop that formats the OTP dump, sixteen bytes to a line. *)
Fixpoint otp_dump (bytes : list Z) (i : Z) (otpoutput otpstr : string) : string :=
  match bytes with
  | [] => otpstr
  | b :: bytes' =>
      let otpoutput := (otpoutput ++ hex_byte b)%string in
      if Z.rem i 16 =? 15
      then otp_dump bytes' (i + 1) EmptyString (otpstr ++ otpoutput ++ newline)%string
      else otp_dump bytes' (i + 1) otpoutput otpstr
  end.

(** The loop that formats the serial number. *)
Definition sn_text (snbuf : list Z) : string :=
  fold_left (fun SN b => (SN ++ hex_byte b)%string) snbuf EmptyString.

(** The test of the OTP header in [run]:
    [otpbuf[0] != 80 && otpbuf[1] != 88 && otpbuf[2] != 52 && otpbuf[3] != 0]. *)
Definition otp_header_failure (otpbuf : list Z) : bool :=
  negb (nth 0 otpbuf 0 =? 80) && negb (nth 1 otpbuf 0 =? 88)
  && negb (nth 2 otpbuf 0 =? 52) && negb (nth 3 otpbuf 0 =? 0).

(** *** The commands of [run] *)

Definition sync_command : list Z := [0x21; 0x20].
Definition erase_command : list Z := [0x23; 0x20].
Definition reboot_command : list Z := [0x30; 0x20].

(** The bytes written for the OTP word at [i]. *)
Definition otp_command (i : Z) : list Z :=
  [0x2A; to_uchar (Z.land i 0xFF); to_uchar (Z.land (Z.shiftr i 8) 0xFF); 0; 0].

(** The bytes written for the serial number word at [i]. *)
Definition sn_command (i : Z) : list Z :=
  [0x2B; to_uchar i; 0; 0; 0; PROTO_EOC].

(** [tosend] for a chunk [buf] of the image. *)
Definition program_frame (buf : list Z) : list Z :=
  let tosend := [] in
  let tosend := tosend ++ [0x27] in
  let tosend := tosend ++ [to_uchar (Z.of_nat (List.length buf))] in
  let tosend := tosend ++ buf in
  tosend ++ [0x20].

(** *** The loops of [run] *)

(** One pass through the body of the OTP loop at index [i]; the value is
    the index of the next pass (the same index after a [continue] that
    follows [i-=4]) and the buffer. *)
Definition otp_chunk (i : Z) (otpbuf : list Z) : M (Z * list Z) :=
  port_write (otp_command i) ;;
  '(count, bytes) <- readBytes 4 2000 ;;
  if count <? 4 then
    let i := i - 4 in
    port_wait_and_drain 1000 ;;
    ret (i + 4, otpbuf)
  else
    let otpbuf := store (Z.to_nat i) (to_uchar (nth 0 bytes 0)) otpbuf in
    let otpbuf := store (Z.to_nat (i + 1)) (to_uchar (nth 1 bytes 0)) otpbuf in
    let otpbuf := store (Z.to_nat (i + 2)) (to_uchar (nth 2 bytes 0)) otpbuf in
    let otpbuf := store (Z.to_nat (i + 3)) (to_uchar (nth 3 bytes 0)) otpbuf in
    sync <- get_sync 2000 ;;
    if negb (sync =? 0) then
      let i := i - 4 in
      port_wait_and_drain 1000 ;;
      ret (i + 4, otpbuf)
    else
      stop <- get_stop ;;
      if stop then port_close ;; port_delete ;; return_
      else ret (i + 4, otpbuf).

(** [for (int i=0;i<512;i+=4)]. *)
Fixpoint otp_loop (fuel : nat) (i : Z) (otpbuf : list Z) : M (list Z) :=
  if i <? 512 then
    match fuel with
    | O => out_of_fuel
    | S fuel' =>
        '(i, otpbuf) <- otp_chunk i otpbuf ;;
        otp_loop fuel' i otpbuf
    end
  else ret otpbuf.

(** How a pass through the body of the serial number loop ends: the loop
    goes on at an index, or it is left by [break] with [bad] set. *)
Inductive sn_pass : Type :=
| SnNext (i : Z) (snbuf : list Z)
| SnBreakBad (snbuf : list Z).

Definition sn_chunk (i : Z) (snbuf : list Z) : M sn_pass :=
  port_write (sn_command i) ;;
  '(count, bytes) <- readBytes 4 2000 ;;
  if count <? 4 then
    let i := i - 4 in
    port_wait_and_drain 1000 ;;
    ret (SnNext (i + 4) snbuf)
  else
    let snbuf := store (Z.to_nat i) (to_uchar (nth 3 bytes 0)) snbuf in
    let snbuf := store (Z.to_nat (i + 1)) (to_uchar (nth 2 bytes 0)) snbuf in
    let snbuf := store (Z.to_nat (i + 2)) (to_uchar (nth 1 bytes 0)) snbuf in
    let snbuf := store (Z.to_nat (i + 3)) (to_uchar (nth 0 bytes 0)) snbuf in
    sync <- get_sync 2000 ;;
    if negb (sync =? 0) then ret (SnBreakBad snbuf)
    else ret (SnNext (i + 4) snbuf).

(** [for (int i=0;i<12;i+=4)]; the value is [bad] and the buffer. *)
Fixpoint sn_loop (fuel : nat) (i : Z) (snbuf : list Z) : M (bool * list Z) :=
  if i <? 12 then
    match fuel with
    | O => out_of_fuel
    | S fuel' =>
        pass <- sn_chunk i snbuf ;;
        match pass with
        | SnNext i snbuf => sn_loop fuel' i snbuf
        | SnBreakBad snbuf => ret (true, snbuf)
        end
    end
  else ret (false, snbuf).

(** One pass through the body of the programming loop; the value is
    [counter] and [failure] for the next pass. *)
Definition program_chunk (counter failure : Z) : M (Z * Z) :=
  buf <- tempFile_read 60 ;;
  if (0 <? List.length buf)%nat then
    port_write (program_frame buf) ;;
    sync <- get_sync 1000 ;;
    if negb (sync =? 0) then
      let failure := failure + 1 in
      if failure >? 2 then
        emit (error "Error writing firmware, invalid sync. Please retry") ;;
        port_close ;;
        tempFile_close ;;
        tempFile_delete ;;
        return_
      else
        emit (statusUpdate "Erasing flash, this may take up to a minute") ;;
        port_write erase_command ;;
        sync <- get_sync 60000 ;;
        if negb (sync =? 0) then return_
        else
          tempFile_seek 0 ;;
          ret (counter, failure)
    else
      (if Z.rem counter 50 =? 0
       then p <- tempFile_pos ;; size <- tempFile_size ;; emit (flashProgress p size)
       else ret tt) ;;
      let counter := counter + 1 in
      stop <- get_stop ;;
      if stop then
        port_close ;; tempFile_close ;; tempFile_delete ;; port_delete ;; return_
      else ret (counter, failure)
  else
    port_close ;; tempFile_close ;; tempFile_delete ;; port_delete ;; return_.

(** [while (!tempFile->atEnd())]. *)
Fixpoint program_loop (fuel : nat) (counter failure : Z) : M unit :=
  atEnd <- tempFile_atEnd ;;
  if atEnd then ret tt
  else
    match fuel with
    | O => out_of_fuel
    | S fuel' =>
        '(counter, failure) <- program_chunk counter failure ;;
        program_loop fuel' counter failure
    end.

(** *** run *)

(** [if (m_stop) { m_port->close(); delete m_port; return; }] *)
Definition return_if_stopped : M unit :=
  stop <- get_stop ;;
  if stop then port_close ;; port_delete ;; return_ else ret tt.

(** The serial number part of [if (bootloaderrev >= 4)], from
    [emit statusUpdate("Requesting board SN")] on; the value is [otpstr]
    and [snstr]. *)
Definition read_sn (fuel : nat) (otpstr : string) : M (string * string) :=
  emit (statusUpdate "Requesting board SN") ;;
  let snbuf := repeat 0 12 in
  '(bad, snbuf) <- sn_loop fuel 0 snbuf ;;
  if (bad : bool) then continue
  else
    let snstr := sn_text snbuf in
    emit (statusUpdate "Verifying OTP") ;;
    ret (otpstr, snstr).

(** The body of [if (bootloaderrev >= 4)].  [bad] is still [false] at the
    first [if (bad)]. *)
Definition read_otp_and_sn (fuel : nat) : M (string * string) :=
  let otpbuf := repeat 0 512 in
  emit (statusUpdate "Requesting OTP") ;;
  otpbuf <- otp_loop fuel 0 otpbuf ;;
  if otp_header_failure otpbuf then continue
  else
    let otpstr := otp_dump otpbuf 0 EmptyString EmptyString in
    read_sn fuel otpstr.

(** From [//Erase] to the end of the block that flashes the image. *)
Definition erase_and_program (fuel : nat) : M unit :=
  emit (statusUpdate "Erasing flash, this may take up to a minute") ;;
  port_write erase_command ;;
  sync <- get_sync 60000 ;;
  if negb (sync =? 0) then return_
  else
    return_if_stopped ;;
    emit (statusUpdate "Flashing firmware") ;;
    tempFile_open ;;
    program_loop fuel 0 0 ;;
    emit (statusUpdate "Flashing complete!") ;;
    port_write reboot_command ;;
    port_close ;;
    tempFile_close ;;
    tempFile_delete ;;
    port_delete ;;
    emit done ;;
    return_.

(** The body of [if (sync == 0)] in the retry loop. *)
Definition synced (fuel : nat) : M unit :=
  let read := 0 in
  emit (statusUpdate "Requesting bootloader rev") ;;
  '(reply, read) <- reqInfo PROTO_DEVICE_BL_REV read ;;
  if negb reply then continue
  else
    let bootloaderrev := to_int read in
    emit (statusUpdate "Requesting board ID") ;;
    '(reply, read) <- reqInfo PROTO_DEVICE_BOARD_ID read ;;
    if negb reply then continue
    else
      let boardid := to_int read in
      emit (statusUpdate "Requesting board rev") ;;
      '(reply, read) <- reqInfo PROTO_DEVICE_BOARD_REV read ;;
      if negb reply then continue
      else
        let boardrev := to_int read in
        emit (statusUpdate "Requesting firmware size") ;;
        '(reply, read) <- reqInfo PROTO_DEVICE_FW_SIZE read ;;
        if negb reply then continue
        else
          let flashsize := to_int read in
          return_if_stopped ;;
          '(otpstr, snstr) <-
            (if bootloaderrev >=? 4 then read_otp_and_sn fuel
             else ret (EmptyString, EmptyString)) ;;
          return_if_stopped ;;
          emit (boardRev boardrev) ;;
          emit (boardId boardid) ;;
          emit (bootloaderRev bootloaderrev) ;;
          emit (flashSize flashsize) ;;
          emit (serialNumber snstr) ;;
          emit (OTP otpstr) ;;
          erase_and_program fuel ;;
          port_close.

(** A [continue] ends the iteration of the retry loop, not the loop. *)
Definition iteration (body : M unit) : M unit :=
  fun s =>
    match body s with
    | (Continue, s') => (Ok tt, s')
    | r => r
    end.

(** [for (int retry=0;retry<5;retry++)], with [retries] iterations left.
    The statements that follow the [continue] of the [else] branch are
    never executed. *)
Fixpoint sync_loop (fuel : nat) (retries : nat) : M unit :=
  match retries with
  | O => ret tt
  | S retries' =>
      iteration
        (port_write sync_command ;;
         sync <- get_sync get_sync_default_timeout ;;
         if sync =? 0 then synced fuel else continue) ;;
      sync_loop fuel retries'
  end.

(** [run], from the retry loop on: the port has been found and opened. *)
Definition run_opened (fuel : nat) : M unit := sync_loop fuel 5.

End PX4FirmwareUploader.

(** ** src/comm/SerialLink.cc: the other accessors and setters *)

Module SerialLinkLine.
Import Qt SerialLink.

(** The baud rate enumerants of [QSerialPort] (qserialport.h): each is the
    rate it stands for. *)
Definition Baud1200 : Z := 1200.
Definition Baud2400 : Z := 2400.
Definition Baud4800 : Z := 4800.
Definition Baud9600 : Z := 9600.
Definition Baud19200 : Z := 19200.
Definition Baud38400 : Z := 38400.
Definition Baud57600 : Z := 57600.
Definition Baud115200 : Z := 115200.

(** The parity enumerants of [QSerialPort] (qserialport.h). *)
Definition NoParity : Z := 0.
Definition EvenParity : Z := 2.
Definition OddParity : Z := 3.

Definition port_with_line (data flow stop par : Z) (p : QSerialPort) : QSerialPort :=
  {| portName := portName p; baudRate := baudRate p; dataBits := data;
     flowControl := flow; stopBits := stop; parity := par; baud_ok := baud_ok p |}.

Definition set_parity (par : Z) (l : SerialLink.t) : SerialLink.t :=
  set_line par (m_stopBits l) (m_dataBits l) (m_flowControl l) l.
Definition set_stopBits (stop : Z) (l : SerialLink.t) : SerialLink.t :=
  set_line (m_parity l) stop (m_dataBits l) (m_flowControl l) l.
Definition set_dataBits (data : Z) (l : SerialLink.t) : SerialLink.t :=
  set_line (m_parity l) (m_stopBits l) data (m_flowControl l) l.
Definition set_flowControl (flow : Z) (l : SerialLink.t) : SerialLink.t :=
  set_line (m_parity l) (m_stopBits l) (m_dataBits l) flow l.

(** [getNominalDataRate].  The local [baudRate] is assigned in neither
    branch when the port reports the rate 0: [indeterminate] is the value it
    then happens to hold.  The value is the returned rate and the link,
    whose port is given the rate in the [default] case. *)
Definition getNominalDataRate (indeterminate : Z) (l : SerialLink.t) : Z * SerialLink.t :=
  let baudRate :=
    match m_port l with
    | Some p => let newBaud := baudRate p in
                if negb (newBaud =? 0) then newBaud else indeterminate
    | None => m_baud l
    end in
  if baudRate =? Baud1200 then (1200, l)
  else if baudRate =? Baud2400 then (2400, l)
  else if baudRate =? Baud4800 then (4800, l)
  else if baudRate =? Baud9600 then (9600, l)
  else if baudRate =? Baud19200 then (19200, l)
  else if baudRate =? Baud38400 then (38400, l)
  else if baudRate =? Baud57600 then (57600, l)
  else if baudRate =? Baud115200 then (115200, l)
  else
    let dataRate := if negb (m_baud l =? -1) then m_baud l else 57600 in
    let l := match m_port l with
             | Some p => set_port (Some (snd (port_setBaudRate dataRate p))) l
             | None => l
             end in
    (dataRate, l).

(** [getBaudRate]. *)
Definition getBaudRate (indeterminate : Z) (l : SerialLink.t) : Z * SerialLink.t :=
  let '(rate, l) := getNominalDataRate indeterminate l in (to_int rate, l).

Definition getDataBitsType (l : SerialLink.t) : Z :=
  match m_port l with Some p => dataBits p | None => m_dataBits l end.

Definition getStopBitsType (l : SerialLink.t) : Z :=
  match m_port l with Some p => stopBits p | None => m_stopBits l end.

(** [QString::toInt(&ok)]: the flag. *)
Definition toInt_ok (s : string) : bool :=
  match parse_int (trimmed s) with
  | Some z => in_int z
  | None => false
  end.

(** [setBaudRateString]. *)
Definition setBaudRateString (rate : string) (l : SerialLink.t) : bool * SerialLink.t :=
  let ok := toInt_ok rate in
  let intrate := toInt rate in
  if negb ok then (false, l) else setBaudRate intrate l.

Section PortAnswers.

(** The answers of the operating system to [QSerialPort::setFlowControl],
    [setParity], [setDataBits] and [setStopBits] for a value. *)
Variable flow_ok parity_ok data_ok stop_ok : Z -> bool.

Definition port_setFlowControl (flow : Z) (p : QSerialPort) : bool * QSerialPort :=
  if flow_ok flow
  then (true, port_with_line (dataBits p) flow (stopBits p) (parity p) p)
  else (false, p).

Definition port_setParity (par : Z) (p : QSerialPort) : bool * QSerialPort :=
  if parity_ok par
  then (true, port_with_line (dataBits p) (flowControl p) (stopBits p) par p)
  else (false, p).

Definition port_setDataBits (data : Z) (p : QSerialPort) : bool * QSerialPort :=
  if data_ok data
  then (true, port_with_line data (flowControl p) (stopBits p) (parity p) p)
  else (false, p).

Definition port_setStopBits (stop : Z) (p : QSerialPort) : bool * QSerialPort :=
  if stop_ok stop
  then (true, port_with_line (dataBits p) (flowControl p) stop (parity p) p)
  else (false, p).

(** [setFlowType]. *)
Definition setFlowType (flow : Z) (l : SerialLink.t) : bool * SerialLink.t :=
  if negb (flow =? m_flowControl l) then
    let l := set_flowControl flow l in
    let accepted := true in
    let '(accepted, l) :=
      match m_port l with
      | Some p => let '(ok, p) := port_setFlowControl flow p in (ok, set_port (Some p) l)
      | None => (accepted, l)
      end in
    (accepted, emit updateLink l)
  else (false, l).

(** [setParityType]: the [switch] passes 0, 2 and 3 on to the port, passes
    1 on as odd parity, and refuses the rest; the signal is emitted inside
    [if (m_port)]. *)
Definition setParityType (par : Z) (l : SerialLink.t) : bool * SerialLink.t :=
  if negb (par =? m_parity l) then
    let l := set_parity par l in
    let accepted := true in
    match m_port l with
    | Some p =>
        let '(accepted, p) :=
          if par =? NoParity then port_setParity NoParity p
          else if par =? 1 then port_setParity OddParity p
          else if par =? EvenParity then port_setParity EvenParity p
          else if par =? OddParity then port_setParity OddParity p
          else (false, p) in
        (accepted, emit updateLink (set_port (Some p) l))
    | None => (accepted, l)
    end
  else (false, l).

(** [setDataBits]. *)
Definition setDataBits (data : Z) (l : SerialLink.t) : bool * SerialLink.t :=
  if negb (data =? m_dataBits l) then
    let l := set_dataBits data l in
    let accepted := true in
    let '(accepted, l) :=
      match m_port l with
      | Some p => let '(ok, p) := port_setDataBits data p in (ok, set_port (Some p) l)
      | None => (accepted, l)
      end in
    (accepted, emit updateLink l)
  else (false, l).

(** [setStopBits]. *)
Definition setStopBits (stop : Z) (l : SerialLink.t) : bool * SerialLink.t :=
  if negb (stop =? m_stopBits l) then
    let l := set_stopBits stop l in
    let accepted := true in
    let '(accepted, l) :=
      match m_port l with
      | Some p => let '(ok, p) := port_setStopBits stop p in (ok, set_port (Some p) l)
      | None => (accepted, l)
      end in
    (accepted, emit updateLink l)
  else (false, l).

(** [setDataBitsType] and [setStopBitsType] have the bodies of [setDataBits]
    and [setStopBits]. *)
Definition setDataBitsType (data : Z) (l : SerialLink.t) : bool * SerialLink.t :=
  if negb (data =? m_dataBits l) then
    let l := set_dataBits data l in
    let accepted := true in
    let '(accepted, l) :=
      match m_port l with
      | Some p => let '(ok, p) := port_setDataBits data p in (ok, set_port (Some p) l)
      | None => (accepted, l)
      end in
    (accepted, emit updateLink l)
  else (false, l).

Definition setStopBitsType (stop : Z) (l : SerialLink.t) : bool * SerialLink.t :=
  if negb (stop =? m_stopBits l) then
    let l := set_stopBits stop l in
    let accepted := true in
    let '(accepted, l) :=
      match m_port l with
      | Some p => let '(ok, p) := port_setStopBits stop p in (ok, set_port (Some p) l)
      | None => (accepted, l)
      end in
    (accepted, emit updateLink l)
  else (false, l).

End PortAnswers.

End SerialLinkLine.

(** ** src/comm/SerialLink.cc: the queue, the loop of [run] and the reads *)

Module SerialLinkIO.
Import Qt SerialLink.

(** The input and output side of the device behind [m_port].  [rx_buffer]
    holds the bytes received and not yet read.  [rx_script] scripts the
    successive [waitForReadyRead] calls: new bytes arrive, or the wait
    expires (as it does once the script is used up).  [tx_script] scripts
    the successive [write] calls: how many bytes the device takes, a
    negative number for an error; everything is taken once the script is
    used up.  [tx_log] lists the bytes taken so far, [dtr_log] the
    arguments of the [setDataTerminalReady] calls. *)
Record device : Type := {
  dev_isOpen : bool;
  rx_buffer : list Z;
  rx_script : list (option (list Z));
  tx_script : list Z;
  tx_log : list Z;
  dtr_log : list bool
}.

Inductive signal : Type :=
| bytesReceived (data : list Z)
| communicationError (name msg : string)
| communicationUpdate (name msg : string)
| disconnected
| connected_bool (connected : bool)
| disconnected_link.

(** The members that the loop and the queue use, beside those of
    [SerialLink.t].  [isRunning] is the state of the thread. *)
Record t : Type := {
  link : SerialLink.t;
  dev : device;
  m_transmitBuffer : list Z;
  m_bytesRead : Z;
  m_stopp : bool;
  m_reqReset : bool;
  isRunning : bool;
  signals : list signal
}.

Definition with_link (l : SerialLink.t) (s : t) : t :=
  {| link := l; dev := dev s; m_transmitBuffer := m_transmitBuffer s;
     m_bytesRead := m_bytesRead s; m_stopp := m_stopp s; m_reqReset := m_reqReset s;
     isRunning := isRunning s; signals := signals s |}.

Definition with_dev (d : device) (s : t) : t :=
  {| link := link s; dev := d; m_transmitBuffer := m_transmitBuffer s;
     m_bytesRead := m_bytesRead s; m_stopp := m_stopp s; m_reqReset := m_reqReset s;
     isRunning := isRunning s; signals := signals s |}.

Definition with_transmitBuffer (b : list Z) (s : t) : t :=
  {| link := link s; dev := dev s; m_transmitBuffer := b;
     m_bytesRead := m_bytesRead s; m_stopp := m_stopp s; m_reqReset := m_reqReset s;
     isRunning := isRunning s; signals := signals s |}.

Definition with_bytesRead (n : Z) (s : t) : t :=
  {| link := link s; dev := dev s; m_transmitBuffer := m_transmitBuffer s;
     m_bytesRead := n; m_stopp := m_stopp s; m_reqReset := m_reqReset s;
     isRunning := isRunning s; signals := signals s |}.

Definition with_stopp (b : bool) (s : t) : t :=
  {| link := link s; dev := dev s; m_transmitBuffer := m_transmitBuffer s;
     m_bytesRead := m_bytesRead s; m_stopp := b; m_reqReset := m_reqReset s;
     isRunning := isRunning s; signals := signals s |}.

Definition with_reqReset (b : bool) (s : t) : t :=
  {| link := link s; dev := dev s; m_transmitBuffer := m_transmitBuffer s;
     m_bytesRead := m_bytesRead s; m_stopp := m_stopp s; m_reqReset := b;
     isRunning := isRunning s; signals := signals s |}.

Definition with_isRunning (b : bool) (s : t) : t :=
  {| link := link s; dev := dev s; m_transmitBuffer := m_transmitBuffer s;
     m_bytesRead := m_bytesRead s; m_stopp := m_stopp s; m_reqReset := m_reqReset s;
     isRunning := b; signals := signals s |}.

Definition emit (sig : signal) (s : t) : t :=
  {| link := link s; dev := dev s; m_transmitBuffer := m_transmitBuffer s;
     m_bytesRead := m_bytesRead s; m_stopp := m_stopp s; m_reqReset := m_reqReset s;
     isRunning := isRunning s; signals := signals s ++ [sig] |}.

Definition set_bitsSentTotal (n : Z) (l : SerialLink.t) : SerialLink.t :=
  {| m_port := m_port l; m_baud := m_baud l; m_dataBits := m_dataBits l;
     m_flowControl := m_flowControl l; m_stopBits := m_stopBits l;
     m_parity := m_parity l; m_portName := m_portName l;
     m_portBaudMap := m_portBaudMap l; m_bitsSentTotal := n;
     m_bitsReceivedTotal := m_bitsReceivedTotal l;
     m_connectionStartTime := m_connectionStartTime l;
     m_statisticsMutex := m_statisticsMutex l; emitted := emitted l |}.

Definition set_bitsReceivedTotal (n : Z) (l : SerialLink.t) : SerialLink.t :=
  {| m_port := m_port l; m_baud := m_baud l; m_dataBits := m_dataBits l;
     m_flowControl := m_flowControl l; m_stopBits := m_stopBits l;
     m_parity := m_parity l; m_portName := m_portName l;
     m_portBaudMap := m_portBaudMap l; m_bitsSentTotal := m_bitsSentTotal l;
     m_bitsReceivedTotal := n;
     m_connectionStartTime := m_connectionStartTime l;
     m_statisticsMutex := m_statisticsMutex l; emitted := emitted l |}.

(** *** The device *)

(** [m_port->waitForReadyRead(msecs)]. *)
Definition dev_waitForReadyRead (d : device) : bool * device :=
  match rx_script d with
  | Some bytes :: script =>
      (true, {| dev_isOpen := dev_isOpen d; rx_buffer := rx_buffer d ++ bytes;
                rx_script := script; tx_script := tx_script d;
                tx_log := tx_log d; dtr_log := dtr_log d |})
  | None :: script =>
      (false, {| dev_isOpen := dev_isOpen d; rx_buffer := rx_buffer d;
                 rx_script := script; tx_script := tx_script d;
                 tx_log := tx_log d; dtr_log := dtr_log d |})
  | [] => (false, d)
  end.

(** [m_port->readAll()]. *)
Definition dev_readAll (d : device) : list Z * device :=
  (rx_buffer d, {| dev_isOpen := dev_isOpen d; rx_buffer := [];
                   rx_script := rx_script d; tx_script := tx_script d;
                   tx_log := tx_log d; dtr_log := dtr_log d |}).

(** [m_port->read(data, maxSize)]. *)
Definition dev_read (maxSize : nat) (d : device) : list Z * device :=
  (firstn maxSize (rx_buffer d),
   {| dev_isOpen := dev_isOpen d; rx_buffer := skipn maxSize (rx_buffer d);
      rx_script := rx_script d; tx_script := tx_script d;
      tx_log := tx_log d; dtr_log := dtr_log d |}).

(** [m_port->write(bytes)]: the return value and the device. *)
Definition dev_write (bytes : list Z) (d : device) : Z * device :=
  let '(taken, script) :=
    match tx_script d with
    | n :: script => (n, script)
    | [] => (Z.of_nat (List.length bytes), [])
    end in
  if taken <? 0
  then (-1, {| dev_isOpen := dev_isOpen d; rx_buffer := rx_buffer d;
               rx_script := rx_script d; tx_script := script;
               tx_log := tx_log d; dtr_log := dtr_log d |})
  else
    let n := Nat.min (Z.to_nat taken) (List.length bytes) in
    (Z.of_nat n,
     {| dev_isOpen := dev_isOpen d; rx_buffer := rx_buffer d;
        rx_script := rx_script d; tx_script := script;
        tx_log := tx_log d ++ firstn n bytes; dtr_log := dtr_log d |}).

(** [m_port->setDataTerminalReady(set)]. *)
Definition dev_setDataTerminalReady (set : bool) (d : device) : device :=
  {| dev_isOpen := dev_isOpen d; rx_buffer := rx_buffer d;
     rx_script := rx_script d; tx_script := tx_script d;
     tx_log := tx_log d; dtr_log := dtr_log d ++ [set] |}.

(** [m_port->close()]. *)
Definition dev_close (d : device) : device :=
  {| dev_isOpen := false; rx_buffer := rx_buffer d;
     rx_script := rx_script d; tx_script := tx_script d;
     tx_log := tx_log d; dtr_log := dtr_log d |}.

(** [QByteArray::remove(pos, len)] at position 0: nothing is removed for a
    [len] that is not positive. *)
Definition remove0 (len : Z) (bytes : list Z) : list Z :=
  if len <=? 0 then bytes else skipn (Z.to_nat len) bytes.

(** *** The member functions *)

(** [requestReset]. *)
Definition requestReset (s : t) : t := with_reqReset true s.

(** [isConnected]. *)
Definition isConnected (s : t) : bool :=
  match m_port (link s) with
  | Some _ => dev_isOpen (dev s)
  | None => false
  end.

(** [getName]. *)
Definition getName (s : t) : string := m_portName (link s).

(** [bytesAvailable]. *)
Definition bytesAvailable (s : t) : Z :=
  match m_port (link s) with
  | Some _ => Z.of_nat (List.length (rx_buffer (dev s)))
  | None => 0
  end.

(** [disconnect].  In the branch of a running thread the statement
    [QLOG_INFO() << "running so disconnect" << m_port->portName();] calls
    through [m_port] without the test that guards the log statement
    before it: with [m_port] null the call is a null pointer dereference,
    [None] here. *)
Definition disconnect (s : t) : option (bool * t) :=
  if isRunning s then
    match m_port (link s) with
    | Some _ =>
        let s := with_stopp true s in
        let s := emit disconnected s in
        let s := emit (connected_bool false) s in
        let s := emit disconnected_link s in
        Some (true, s)
    | None => None
    end
  else Some (true, s).

(** [writeBytes(data, size)], with [size] the length of [data]; [None]
    when [disconnect] does not come back. *)
Definition writeBytes (data : list Z) (s : t) : option t :=
  let size := Z.of_nat (List.length data) in
  if match m_port (link s) with Some _ => dev_isOpen (dev s) | None => false end
  then
    let s := with_transmitBuffer (m_transmitBuffer s ++ data) s in
    Some (with_link
            (set_bitsSentTotal (quint64 (m_bitsSentTotal (link s) + size * 8)) (link s)) s)
  else
    match disconnect s with
    | Some (_, s) =>
        Some (emit (communicationError (getName s)
                      ("Could not send data - link " ++ getName s ++ " is disconnected!")) s)
    | None => None
    end.

(** [readBytes]. *)
Definition readBytes (s : t) : t :=
  if match m_port (link s) with Some _ => dev_isOpen (dev s) | None => false end
  then
    let maxLength := 2048 in
    let numBytes := Z.of_nat (List.length (rx_buffer (dev s))) in
    if 0 <? numBytes then
      let numBytes := if maxLength <? numBytes then maxLength else numBytes in
      let '(b, d) := dev_read (Z.to_nat numBytes) (dev s) in
      let s := with_dev d s in
      let s := emit (bytesReceived b) s in
      with_link (set_bitsReceivedTotal
                   (quint64 (m_bitsReceivedTotal (link s) + numBytes * 8)) (link s)) s
    else s
  else s.

(** The [while (m_port->waitForReadyRead(10)) readData += m_port->readAll();]
    of the loop. *)
Fixpoint read_more (readData : list Z) (script : list (option (list Z)))
  : list Z * list (option (list Z)) :=
  match script with
  | Some bytes :: script' => read_more (readData ++ bytes) script'
  | None :: script' => (readData, script')
  | [] => (readData, [])
  end.

(** The receiving part of an iteration. *)
Definition receive (s : t) : t :=
  let '(error, d) := dev_waitForReadyRead (dev s) in
  let s := with_dev d s in
  if error then
    let '(readData, d) := dev_readAll (dev s) in
    let '(readData, script) := read_more readData (rx_script d) in
    let d := {| dev_isOpen := dev_isOpen d; rx_buffer := [];
                rx_script := script; tx_script := tx_script d;
                tx_log := tx_log d; dtr_log := dtr_log d |} in
    let s := with_dev d s in
    if (0 <? List.length readData)%nat then
      let s := emit (bytesReceived readData) s in
      let s := with_bytesRead (quint64 (m_bytesRead s + Z.of_nat (List.length readData))) s in
      with_link (set_bitsReceivedTotal
                   (quint64 (m_bitsReceivedTotal (link s)
                             + Z.of_nat (List.length readData) * 8)) (link s)) s
    else s
  else s.

(** The transmitting part of an iteration. *)
Definition transmit (s : t) : t :=
  if (0 <? List.length (m_transmitBuffer s))%nat then
    let '(numWritten, d) := dev_write (m_transmitBuffer s) (dev s) in
    let s := with_dev d s in
    with_transmitBuffer (remove0 numWritten (m_transmitBuffer s)) s
  else s.

(** How an iteration of [forever] ends. *)
Inductive loop_step : Type := Again | Exit.

(** One iteration of the [forever] of [run]. *)
Definition iteration (s : t) : loop_step * t :=
  if m_stopp s then (Exit, with_stopp false s)
  else
    let s :=
      if m_reqReset s then
        let s := with_reqReset false s in
        let s := emit (communicationUpdate (getName s) "Reset requested via DTR signal") s in
        let s := with_dev (dev_setDataTerminalReady true (dev s)) s in
        with_dev (dev_setDataTerminalReady false (dev s)) s
      else s in
    let s := transmit s in
    let s := receive s in
    (Again, s).

(** [m_port->close()] on the port of the link.  A port that is open
    announces [aboutToClose()] and is closed; [hardwareConnect], which
    creates every port of the link, connects that signal to the signal
    [disconnected()] of the link, so [disconnected()] is emitted.  A port
    that is not open is left as it is. *)
Definition port_close (s : t) : t :=
  if dev_isOpen (dev s)
  then with_dev (dev_close (dev s)) (emit disconnected s)
  else s.

(** What [run] does after the loop: the port is closed and deleted, the
    signals are emitted, and the thread ends. *)
Definition after_loop (s : t) : t :=
  let s :=
    match m_port (link s) with
    | Some _ => with_link (set_port None (link s)) (port_close s)
    | None => s
    end in
  let s := emit disconnected s in
  let s := emit (connected_bool false) s in
  let s := emit disconnected_link s in
  with_isRunning false s.


End SerialLinkIO.

(** ** PX4FirmwareUploader: the start of [run] and [stop]

    From [src/ui/configuration/PX4FirmwareUploader.cc]: [stop], the loop
    of [run] that waits for a port to appear, and [run] from the port that
    has been opened to the retry loop. *)

Module PX4FirmwareUploaderStart.
Import Qt PX4FirmwareUploader.
#[local] Open Scope uploader_scope.

(** [stop()]. *)
Definition stop (s : t) : t :=
  {| m_stop := true; m_serialBuffer := m_serialBuffer s; m_port := m_port s;
     m_port_deleted := m_port_deleted s; tempFile := tempFile s;
     m_loadedBoardID := m_loadedBoardID s; m_loadedFwSize := m_loadedFwSize s;
     m_loadedDescription := m_loadedDescription s; running := running s;
     emitted := emitted s;
     m_port_assigned := m_port_assigned s |}.

(** [portlist.contains(name)]. *)
Definition list_contains (portlist : list string) (name : string) : bool :=
  existsb (String.eqb name) portlist.

(** The [foreach] with [break] inside the waiting loop: the first name of
    the enumeration that [portlist] does not contain. *)
Fixpoint first_new (portlist ports : list string) : option string :=
  match ports with
  | [] => None
  | name :: ports' =>
      if negb (list_contains portlist name) then Some name
      else first_new portlist ports'
  end.

(** How the wait for the device ends.  [Enumerating] marks a model that
    has run out of answers of [QSerialPortInfo::availablePorts()]. *)
Inductive detection : Type :=
| Found (portnametouse : string)
| Stopped
| Enumerating.

(** [while (!found)]: each pass takes the port names of one enumeration
    for the [foreach], those of a second one for the size test and, when
    the test holds, those of a third one for the rescan. *)
Fixpoint wait_for_device (m_stop : bool) (portlist : list string) (size : Z)
    (enumerations : list (list string)) : detection :=
  match enumerations with
  | ports :: counted :: enumerations' =>
      let found := first_new portlist ports in
      if size >? Z.of_nat (List.length counted) then
        match enumerations' with
        | rescanned :: enumerations'' =>
            let portlist := rescanned in
            let size := Z.of_nat (List.length portlist) in
            if m_stop then Stopped
            else match found with
                 | Some portnametouse => Found portnametouse
                 | None => wait_for_device m_stop portlist size enumerations''
                 end
        | [] => Enumerating
        end
      else
        if m_stop then Stopped
        else match found with
             | Some portnametouse => Found portnametouse
             | None => wait_for_device m_stop portlist size enumerations'
             end
  | _ => Enumerating
  end.

(** [run] up to the end of the waiting loop: the first enumeration fills
    [portlist]. *)
Definition detect (m_stop : bool) (enumerations : list (list string)) : detection :=
  match enumerations with
  | ports :: enumerations' =>
      let portlist := ports in
      let size := Z.of_nat (List.length portlist) in
      wait_for_device m_stop portlist size enumerations'
  | [] => Enumerating
  end.

(** [for (int i=0;i<128;i++) m_port->write(QByteArray().append((char)0x0))],
    with [n] passes left. *)
Fixpoint write_zeros (n : nat) : M unit :=
  match n with
  | O => ret tt
  | S n' => port_write [0x0] ;; write_zeros n'
  end.

(** [run] once the port has been opened and configured: the zero bytes,
    the test of [m_stop], the retry loop.  The loop that reads and drops
    the bytes available after the zero bytes takes nothing from the script,
    which holds what the later waits obtain. *)
Definition run_connected (fuel : nat) : M unit :=
  write_zeros 128 ;;
  return_if_stopped ;;
  run_opened fuel.

End PX4FirmwareUploaderStart.

(** ** Notions used in the statements *)

Module StringSpec.

(** [has_char c s]: the character [c] occurs in [s]. *)
Fixpoint has_char (c : ascii) (s : string) : bool :=
  match s with
  | EmptyString => false
  | String c' s' => Ascii.eqb c c' || has_char c s'
  end.

(** Every character of [s] satisfies [p]. *)
Fixpoint all_chars (p : ascii -> bool) (s : string) : bool :=
  match s with
  | EmptyString => true
  | String c s' => p c && all_chars p s'
  end.

Definition is_number_char (c : ascii) : bool :=
  let n := N_of_ascii c in ((n =? 45) || (48 <=? n) && (n <=? 57))%N.

End StringSpec.

Module SerialLinkSpec.
Import Qt SerialLink StringSpec.

(** One entry of the persisted map, [port:baud]. *)
Definition entry (i : string * Z) : string := (fst i ++ ":" ++ number (snd i))%string.

(** A port name that can be told apart in the persisted map. *)
Definition clean_name (k : string) : Prop :=
  has_char ":" k = false /\ has_char "," k = false.

(** A freshly constructed link, before [loadSettings]. *)
Definition fresh : SerialLink.t :=
  {| m_port := None; m_baud := -1; m_dataBits := 8; m_flowControl := 0;
     m_stopBits := 1; m_parity := 0; m_portName := EmptyString; m_portBaudMap := [];
     m_bitsSentTotal := 0; m_bitsReceivedTotal := 0; m_connectionStartTime := 0;
     m_statisticsMutex := false; emitted := [] |}.

Definition with_map (name : string) (baud : Z) (m : QMap) : SerialLink.t :=
  {| m_port := None; m_baud := baud; m_dataBits := 8; m_flowControl := 0;
     m_stopBits := 1; m_parity := 0; m_portName := name; m_portBaudMap := m;
     m_bitsSentTotal := 0; m_bitsReceivedTotal := 0; m_connectionStartTime := 0;
     m_statisticsMutex := false; emitted := [] |}.

(** A link that has been connected at clock value 1000000 and has sent
    800 bits and received 1600. *)
Definition connected_link : SerialLink.t :=
  {| m_port := None; m_baud := 57600; m_dataBits := 8; m_flowControl := 0;
     m_stopBits := 1; m_parity := 0; m_portName := "COM1"; m_portBaudMap := [];
     m_bitsSentTotal := 800; m_bitsReceivedTotal := 1600;
     m_connectionStartTime := 1000000;
     m_statisticsMutex := false; emitted := [] |}.

End SerialLinkSpec.

Module UploaderSpec.
Import Qt PX4FirmwareUploader.
#[local] Open Scope uploader_scope.

(** The bytes that the script delivers before a wait expires. *)
Fixpoint arriving (script : list port_event) : list Z :=
  match script with
  | Data bytes :: script' => bytes ++ arriving script'
  | _ => []
  end.

(** The bytes that a read obtains within its timeout: those already in
    [m_serialBuffer], then those that arrive before a wait expires. *)
Definition received_before_timeout (s : t) : list Z :=
  m_serialBuffer s ++ arriving (incoming (m_port s)).




(** The sync footer. *)
Definition footer : list Z := [0x12; 0x10].

(** An uploader whose port is open on a device that follows [script], with
    [image] in the temporary file. *)
Definition uploader (image : list Z) (script : list port_event) : t :=
  {| m_stop := false; m_serialBuffer := [];
     m_port := {| incoming := script; written := []; isOpen := true |};
     m_port_deleted := false;
     tempFile := Some {| data := image; pos := 0%nat; file_isOpen := false |};
     m_loadedBoardID := 9; m_loadedFwSize := Z.of_nat (List.length image);
     m_loadedDescription := EmptyString; running := true; emitted := [];
     m_port_assigned := true |}.

(** The uploader as its constructor leaves it: [m_stop] is [false];
    [m_port] and [tempFile] have not been given a value, so the port
    record stands for no object. *)
Definition constructed : t :=
  {| m_stop := false; m_serialBuffer := [];
     m_port := {| incoming := []; written := []; isOpen := false |};
     m_port_deleted := false; tempFile := None;
     m_loadedBoardID := 0; m_loadedFwSize := 0;
     m_loadedDescription := EmptyString; running := false; emitted := [];
     m_port_assigned := false |}.

(** A toy container format for the examples: the blob is the text itself,
    and decompressing it drops the size header. *)
Definition plain_fromBase64 (raw64 : string) : list Z :=
  map (fun c => Z.of_N (N_of_ascii c)) (list_ascii_of_string raw64).
Definition plain_qUncompress (fwimage : list Z) : list Z := skipn 4 fwimage.

Definition px4_file (image_size image : string) : string :=
  ("{" ++ dquote ++ "board_id" ++ dquote ++ ": 9, "
       ++ dquote ++ "image_size" ++ dquote ++ ": " ++ image_size ++ ", "
       ++ dquote ++ "description" ++ dquote ++ ": " ++ dquote ++ "test" ++ dquote ++ ", "
       ++ dquote ++ "image" ++ dquote ++ ": " ++ dquote ++ image ++ dquote ++ "}")%string.

(** The device acknowledges a command. *)
Definition ack : port_event := Data footer.

(** The device answers a GET_DEVICE or a word read: four bytes, then the
    footer. *)
Definition word (b0 b1 b2 b3 : Z) : port_event := Data ([b0; b1; b2; b3] ++ footer).

(** The answers up to the end of the queries: SYNC, then bootloader
    revision [rev], board id 9, board revision 0, flash size 0x100000. *)
Definition handshake (rev : Z) : list port_event :=
  [ack; word rev 0 0 0; word 9 0 0 0; word 0 0 0 0; word 0 0 0x10 0].

Definition small_image : list Z := repeat 0xAA 8.
Definition two_chunk_image : list Z := repeat 0xAA 120.

(** A revision 4 bootloader whose OTP region reads as zeros. *)
Definition blank_otp_device : list port_event :=
  handshake 4 ++ repeat (word 0 0 0 0) 128 ++ repeat (word 1 2 3 4) 3 ++ [ack; ack].

(** A device that never answers ERASE. *)
Definition erase_timeout_device : list port_event := handshake 3 ++ [Expired].

(** A device that erases, fails the first chunk and then never answers
    the second ERASE. *)
Definition second_erase_timeout_device : list port_event :=
  handshake 3 ++ [ack; Expired; Expired].

(** A device that erases and then fails every chunk. *)
Definition failing_device : list port_event :=
  handshake 3 ++ [ack; Expired; ack; Expired; ack; Expired].

Definition is_error (sig : signal) : bool :=
  match sig with error _ => true | _ => false end.

(** The uploader at the start of the programming loop. *)
Definition programming (image : list Z) (script : list port_event) : t :=
  snd (tempFile_open (uploader image script)).

(** Every second chunk fails: a failure, then (after the erase) a
    success, and so on. *)
Definition flaky_device : list port_event :=
  [Expired; ack; ack; Expired; ack; ack; Expired].

(** The serial number read with a first answer that comes too late. *)
Definition slow_sn_device : list port_event :=
  [Expired; Expired; word 1 2 3 4; word 5 6 7 8; word 9 10 11 12].

(** [program_chunk] has read the chunk and written its frame: the footer
    is awaited in this state. *)
Definition frame_sent (s : t) : t :=
  snd ((buf <- tempFile_read 60 ;; port_write (program_frame buf)) s).

Definition acknowledged (timeout : Z) (s : t) : bool :=
  match fst (get_sync timeout s) with Ok 0 => true | _ => false end.

(** The footer of the chunk sent from [s] arrives. *)
Definition chunk_acknowledged (s : t) : bool := acknowledged 1000 (frame_sent s).

(** After a chunk that failed, ERASE has been written again: its footer
    is awaited in this state. *)
Definition erase_sent (s : t) : t :=
  snd ((emit (statusUpdate "Erasing flash, this may take up to a minute") ;;
        port_write erase_command) (snd (get_sync 1000 (frame_sent s)))).

Definition erase_acknowledged (s : t) : bool := acknowledged 60000 (erase_sent s).

(** The bytes that the next [tempFile->read(60)] returns. *)
Definition next_chunk (s : t) : list Z :=
  match tempFile s with
  | Some f => firstn 60 (skipn (pos f) (data f))
  | None => []
  end.

(** There is a chunk left to send. *)
Definition chunk_pending (s : t) : Prop :=
  exists f, tempFile s = Some f /\ (pos f < List.length (data f))%nat.

Definition file_pos (s : t) : option nat := option_map pos (tempFile s).

(** [sn_chunk] has written the command for the word at [i]. *)
Definition sn_requested (i : Z) (s : t) : t := snd (port_write (sn_command i) s).

(** Fewer than four bytes come back. *)
Definition short_read (s : t) : Prop :=
  (List.length (received_before_timeout s) < 4)%nat.

(** Four bytes come back, but not the footer after them. *)
Definition bad_footer (s : t) : Prop :=
  (4 <= List.length (received_before_timeout s))%nat
  /\ acknowledged 2000 (snd (readBytes 4 2000 s)) = false.

End UploaderSpec.

(** ** Further notions used in the statements *)

Module SerialLinkSpecMore.
Import Qt SerialLink StringSpec SerialLinkSpec.

(** A port on which the operating system accepts rates up to 115200. *)
Definition port_up_to_115200 : QSerialPort :=
  {| portName := "COM1"; baudRate := 57600; dataBits := 8; flowControl := 0;
     stopBits := 1; parity := 0; baud_ok := fun r => r <=? 115200 |}.

Definition open_link : SerialLink.t :=
  {| m_port := Some port_up_to_115200; m_baud := 57600; m_dataBits := 8;
     m_flowControl := 0; m_stopBits := 1; m_parity := 0; m_portName := "COM1";
     m_portBaudMap := [("COM1", 57600)];
     m_bitsSentTotal := 80000; m_bitsReceivedTotal := 160000;
     m_connectionStartTime := 1000000;
     m_statisticsMutex := false; emitted := [] |}.

(** Settings in which the port key is present and the persisted map is
    [portmap]. *)
Definition settings_with_portmap (portmap : string) : QSettings :=
  setValue "SERIALLINK_COMM_PORTMAP" (VString portmap)
    (setValue "SERIALLINK_COMM_BAUD" (VInt 57600)
       (setValue "SERIALLINK_COMM_PORT" (VString "COM1") no_settings)).

End SerialLinkSpecMore.

Module SerialLinkLineSpec.
Import Qt SerialLink SerialLinkLine.

(** The rates that [getNominalDataRate] knows. *)
Definition standard_rates : list Z :=
  [1200; 2400; 4800; 9600; 19200; 38400; 57600; 115200].

(** The rate that [getNominalDataRate] falls back to. *)
Definition fallback_rate (l : SerialLink.t) : Z :=
  if m_baud l =? -1 then 57600 else m_baud l.

(** An operating system that accepts every line setting, and one that
    accepts none. *)
Definition any_value : Z -> bool := fun _ => true.
Definition no_value : Z -> bool := fun _ => false.

End SerialLinkLineSpec.

Module SerialLinkIOSpec.
Import Qt SerialLink SerialLinkSpec SerialLinkSpecMore SerialLinkIO.

(** What the owner of a link and its thread do, one after the other:
    [writeBytes] with some bytes, or an iteration of the loop. *)
Inductive action : Type :=
| Send (data : list Z)
| Poll.

(** One action.  An iteration takes place while the thread runs; the one
    that leaves the loop is followed by the end of [run].  [None]: the
    program does not survive the action. *)
Definition act (s : t) (a : action) : option t :=
  match a with
  | Send data => writeBytes data s
  | Poll =>
      if isRunning s then
        match iteration s with
        | (Again, s') => Some s'
        | (Exit, s') => Some (after_loop s')
        end
      else Some s
  end.

Fixpoint perform (actions : list action) (s : t) : option t :=
  match actions with
  | [] => Some s
  | a :: actions' =>
      match act s a with
      | Some s' => perform actions' s'
      | None => None
      end
  end.

(** The bytes handed to [writeBytes], in order. *)
Definition sent (actions : list action) : list Z :=
  flat_map (fun a => match a with Send data => data | Poll => [] end) actions.

(** The bytes that arrive before a wait expires. *)
Fixpoint arriving_now (script : list (option (list Z))) : list Z :=
  match script with
  | Some bytes :: script' => bytes ++ arriving_now script'
  | _ => []
  end.

(** A connected link on a device that follows the two scripts. *)
Definition connected_io (rx : list (option (list Z))) (tx : list Z) : t :=
  {| link := open_link;
     dev := {| dev_isOpen := true; rx_buffer := []; rx_script := rx;
               tx_script := tx; tx_log := []; dtr_log := [] |};
     m_transmitBuffer := []; m_bytesRead := 0; m_stopp := false;
     m_reqReset := false; isRunning := true; signals := [] |}.

(** A link whose thread runs while [m_port] is null, as when [run] has
    started and [hardwareConnect] has not yet created the port. *)
Definition starting_io : t :=
  {| link := fresh;
     dev := {| dev_isOpen := false; rx_buffer := []; rx_script := [];
               tx_script := []; tx_log := []; dtr_log := [] |};
     m_transmitBuffer := []; m_bytesRead := 0; m_stopp := false;
     m_reqReset := false; isRunning := true; signals := [] |}.

(** A link without a port whose thread is not running. *)
Definition idle_io : t :=
  {| link := fresh;
     dev := {| dev_isOpen := false; rx_buffer := []; rx_script := [];
               tx_script := []; tx_log := []; dtr_log := [] |};
     m_transmitBuffer := []; m_bytesRead := 0; m_stopp := false;
     m_reqReset := false; isRunning := false; signals := [] |}.

End SerialLinkIOSpec.

Module UploaderSpecMore.
Import Qt PX4FirmwareUploader UploaderSpec.
#[local] Open Scope uploader_scope.

(** All the bytes that a script delivers, whatever the waits in between. *)
Fixpoint all_data (script : list port_event) : list Z :=
  match script with
  | Data bytes :: script' => bytes ++ all_data script'
  | Expired :: script' => all_data script'
  | [] => []
  end.

(** The bytes that the uploader has received or will receive and has not
    yet handed to a caller of [readBytes]. *)
Definition pending (s : t) : list Z :=
  m_serialBuffer s ++ all_data (incoming (m_port s)).

Definition is_byte (b : Z) : Prop := 0 <= b < 256.

(** The bytes written for a GET_DEVICE query. *)
Definition info_command (infobyte : Z) : list Z := [PROTO_GET_DEVICE; infobyte; PROTO_EOC].

(** [reqInfo] has written its command: the answer is awaited in this
    state. *)
Definition info_requested (infobyte : Z) (s : t) : t :=
  snd (port_write (info_command infobyte) s).

(** No wait on the device expires: whatever the script still holds arrives
    in time. *)
Definition prompt (script : list port_event) : bool :=
  forallb (fun e => match e with Data _ => true | Expired => false end) script.

(** The state after reads and writes on the port: [m_serialBuffer], the
    script and what has been written change, nothing else. *)
Definition port_state (serialBuffer : list Z) (script : list port_event)
    (commands : list (list Z)) (s : t) : t :=
  with_serialBuffer serialBuffer
    (with_port {| incoming := script; written := commands; isOpen := isOpen (m_port s) |} s).

(** The bytes with which the device answers a word read or a query. *)
Definition answer (w : list Z) : list Z := w ++ footer.

(** The byte offsets of [n] consecutive words from word [j] on. *)
Definition word_offsets (j n : nat) : list Z := map (fun k => 4 * Z.of_nat k) (seq j n).

(** The image cut into the pieces that successive [read(60)] calls
    return; [n] bounds the number of pieces. *)
Fixpoint chunks (n : nat) (image : list Z) : list (list Z) :=
  match n, image with
  | S n', _ :: _ => firstn 60 image :: chunks n' (skipn 60 image)
  | _, _ => []
  end.

(** The image bytes carried by a PROGRAM_MULTI frame. *)
Definition frame_payload (frame : list Z) : list Z :=
  firstn (List.length frame - 3) (skipn 2 frame).

Definition is_progress (sig : signal) : bool :=
  match sig with flashProgress _ _ => true | _ => false end.

(** The uploader between the erase and the first chunk: [m_stop] is not
    set and the temporary file holds [image]. *)
Definition flashing (image : list Z) (position : nat) (file_open : bool)
    (serialBuffer : list Z) (port : QSerialPort) (deleted : bool)
    (id size : Z) (description : string) (run : bool) (signals : list signal)
    (assigned : bool) : t :=
  {| m_stop := false; m_serialBuffer := serialBuffer; m_port := port;
     m_port_deleted := deleted;
     tempFile := Some {| data := image; pos := position; file_isOpen := file_open |};
     m_loadedBoardID := id; m_loadedFwSize := size;
     m_loadedDescription := description; running := run; emitted := signals;
     m_port_assigned := assigned |}.

(** What [run] writes before it has decided to flash: SYNC commands and
    GET_DEVICE queries. *)
Definition is_sync_or_query (command : list Z) : bool :=
  match command with
  | [a; b] => (a =? 0x21) && (b =? 0x20)
  | [a; _; c] => (a =? 0x22) && (c =? 0x20)
  | _ => false
  end.

(** From [s] to [s'] the stop request stands, the temporary file is
    untouched and only SYNC commands and queries have been written. *)
Definition only_queries (s s' : t) : Prop :=
  m_stop s' = m_stop s
  /\ tempFile s' = tempFile s
  /\ exists ws, written (m_port s') = written (m_port s) ++ ws
                /\ forallb is_sync_or_query ws = true.

(** A statement that, run with the stop request set, writes nothing but
    SYNC commands and queries and does not end in a fault. *)
Definition harmless {A : Type} (c : M A) : Prop :=
  forall s, m_stop s = true ->
    only_queries s (snd (c s)) /\ fst (c s) <> OutOfFuel /\ fst (c s) <> Fault.

(** The number that four answer bytes stand for, least significant byte
    first, as the [int] that [run] keeps. *)
Definition reply_value (w : list Z) : Z :=
  to_int (fold_right (fun b value => b + 256 * value) 0 w).

(** A four-byte answer. *)
Definition is_word (w : list Z) : Prop := List.length w = 4%nat /\ Forall is_byte w.

End UploaderSpecMore.

(** ** Facts about the Qt value classes *)

Module QtFacts.
Import Qt StringSpec.

Lemma append_nil_r (s : string) : (s ++ EmptyString)%string = s.
Proof. induction s as [| c s IH]; simpl; [reflexivity | now rewrite IH]. Qed.

Lemma append_assoc (a b c : string) : ((a ++ b) ++ c)%string = (a ++ (b ++ c))%string.
Proof. induction a as [| x a IH]; simpl; [reflexivity | now rewrite IH]. Qed.

Lemma length_append (a b : string) :
  String.length (a ++ b) = (String.length a + String.length b)%nat.
Proof. induction a as [| x a IH]; simpl; [reflexivity | now rewrite IH]. Qed.

Lemma has_char_append (c : ascii) (a b : string) :
  has_char c (a ++ b) = has_char c a || has_char c b.
Proof.
  induction a as [| x a IH]; simpl; [reflexivity |].
  now rewrite IH, orb_assoc.
Qed.

Lemma all_chars_append (p : ascii -> bool) (a b : string) :
  all_chars p (a ++ b) = all_chars p a && all_chars p b.
Proof.
  induction a as [| x a IH]; simpl; [reflexivity |].
  now rewrite IH, andb_assoc.
Qed.

Lemma all_chars_has_char (p : ascii -> bool) (c : ascii) (s : string) :
  p c = false -> all_chars p s = true -> has_char c s = false.
Proof.
  intros Hc. induction s as [| x s IH]; simpl; [reflexivity |].
  intros [Hx Hs]%andb_prop. rewrite (IH Hs), orb_false_r.
  destruct (Ascii.eqb_spec c x) as [-> |]; [congruence | reflexivity].
Qed.

(** *** substring and mid *)

Lemma substring_0_append (a b : string) :
  substring 0 (String.length a) (a ++ b) = a.
Proof.
  induction a as [| x a IH]; simpl.
  - now destruct b.
  - now rewrite IH.
Qed.

(** Dropping the last character with [mid], as [writeSettings] does. *)
Lemma mid_drop_last (a : string) (c : ascii) :
  let s := (a ++ String c EmptyString)%string in
  mid 0 (Z.of_nat (String.length s) - 1) s = a.
Proof.
  simpl. unfold mid. rewrite length_append. simpl String.length.
  replace (String.length a + 1 <? 0)%nat with false by (symmetry; apply Nat.ltb_ge; lia).
  replace (Z.of_nat (String.length a + 1) - 1 <? 0) with false
    by (symmetry; apply Z.ltb_ge; lia).
  replace (Z.of_nat (String.length a + 1 - 0) <? Z.of_nat (String.length a + 1) - 1)
    with false by (symmetry; apply Z.ltb_ge; lia).
  simpl orb. cbv iota.
  replace (Z.to_nat (Z.of_nat (String.length a + 1) - 1)) with (String.length a) by lia.
  apply substring_0_append.
Qed.

(** *** split on a one-character separator *)

Lemma split_from_no_sep (c : ascii) (s cur : string) :
  has_char c s = false ->
  split_from (String c EmptyString) 0 cur s = [(cur ++ s)%string].
Proof.
  revert cur. induction s as [| x s IH]; intros cur H; simpl in *.
  - now rewrite append_nil_r.
  - apply orb_false_elim in H as [Hx Hs].
    destruct (ascii_dec c x) as [-> | _].
    + now rewrite Ascii.eqb_refl in Hx.
    + rewrite (IH _ Hs), append_assoc. reflexivity.
Qed.

Lemma split_from_sep (c : ascii) (a b cur : string) :
  has_char c a = false ->
  split_from (String c EmptyString) 0 cur (a ++ String c b)
  = (cur ++ a)%string :: split_from (String c EmptyString) 0 EmptyString b.
Proof.
  revert cur. induction a as [| x a IH]; intros cur H; simpl in *.
  - destruct (ascii_dec c c) as [_ | N]; [| congruence].
    rewrite append_nil_r. now destruct b.
  - apply orb_false_elim in H as [Hx Ha].
    destruct (ascii_dec c x) as [-> | _].
    + now rewrite Ascii.eqb_refl in Hx.
    + rewrite (IH _ Ha), append_assoc. reflexivity.
Qed.

(** Splitting undoes joining when no piece holds the separator. *)
Lemma split_concat (c : ascii) (l : list string) :
  l <> [] ->
  Forall (fun s => has_char c s = false) l ->
  split (String c EmptyString) (String.concat (String c EmptyString) l) = l.
Proof.
  unfold split. induction l as [| a l IH]; intros Hne Hall; [congruence |].
  inversion Hall as [| ? ? Ha Hl]; subst.
  destruct l as [| b l].
  - simpl. now rewrite split_from_no_sep.
  - change (String.concat (String c EmptyString) (a :: b :: l))
      with (a ++ String c EmptyString ++ String.concat (String c EmptyString) (b :: l))%string.
    simpl append at 2.
    rewrite split_from_sep by assumption. simpl append.
    f_equal. apply IH; [congruence | assumption].
Qed.

(** *** number and toInt *)

Lemma string_of_uint_digits (d : Decimal.uint) :
  all_chars is_number_char (NilEmpty.string_of_uint d) = true.
Proof. induction d; simpl; auto. Qed.

Lemma number_chars (z : Z) : all_chars is_number_char (number z) = true.
Proof.
  unfold number, NilZero.string_of_int, NilZero.string_of_uint.
  destruct (Z.to_int z) as [d | d]; destruct d; simpl;
    try reflexivity; apply string_of_uint_digits.
Qed.

Lemma number_no_char (c : ascii) (z : Z) :
  is_number_char c = false -> has_char c (number z) = false.
Proof. intros Hc. eapply all_chars_has_char; [eassumption | apply number_chars]. Qed.

Lemma trim_right_id (s : string) :
  all_chars (fun c => negb (isSpace c)) s = true -> trim_right s = s.
Proof.
  induction s as [| c s IH]; simpl; [reflexivity |].
  intros [Hc Hs]%andb_prop. rewrite (IH Hs).
  apply negb_true_iff in Hc. rewrite Hc. now destruct s.
Qed.

Lemma trim_left_id (s : string) :
  all_chars (fun c => negb (isSpace c)) s = true -> trim_left s = s.
Proof.
  destruct s as [| c s]; simpl; [reflexivity |].
  intros [Hc _]%andb_prop. apply negb_true_iff in Hc. now rewrite Hc.
Qed.

Lemma all_chars_impl (p q : ascii -> bool) (s : string) :
  (forall c, p c = true -> q c = true) ->
  all_chars p s = true -> all_chars q s = true.
Proof.
  intros Hpq. induction s as [| c s IH]; simpl; [reflexivity |].
  intros [Hc Hs]%andb_prop. now rewrite (Hpq _ Hc), (IH Hs).
Qed.

Lemma number_char_not_space (c : ascii) :
  is_number_char c = true -> negb (isSpace c) = true.
Proof.
  unfold is_number_char, isSpace. intros H.
  apply negb_true_iff.
  destruct (N.eqb_spec (N_of_ascii c) 45) as [-> |]; [reflexivity |].
  simpl in H. apply andb_prop in H as [H1 H2].
  apply N.leb_le in H1. apply N.leb_le in H2.
  apply orb_false_intro.
  - apply andb_false_intro2. apply N.leb_gt. lia.
  - apply N.eqb_neq. lia.
Qed.

Lemma trimmed_number (z : Z) : trimmed (number z) = number z.
Proof.
  assert (H : all_chars (fun c => negb (isSpace c)) (number z) = true).
  { eapply all_chars_impl; [apply number_char_not_space | apply number_chars]. }
  unfold trimmed. now rewrite (trim_left_id _ H), (trim_right_id _ H).
Qed.

Lemma parse_int_number (z : Z) : parse_int (number z) = Some z.
Proof.
  assert (Hint : NilZero.int_of_string (number z) = Some (Z.to_int z)).
  { unfold number. apply NilZero.isi.
    - destruct z; simpl; try discriminate.
      intros [= H]. now apply Unsigned.to_uint_nonnil in H.
    - destruct z; simpl; try discriminate.
      intros [= H]. now apply Unsigned.to_uint_nonnil in H. }
  pose proof (number_chars z) as Hc.
  unfold parse_int.
  destruct (number z) as [| c s] eqn:E.
  - simpl in Hint. discriminate.
  - assert (Hplus : c <> "+"%char).
    { simpl in Hc. apply andb_prop in Hc as [Hc _]. intros ->. discriminate. }
    rewrite Hint. simpl. rewrite DecimalZ.of_to.
    destruct c as [[|] [|] [|] [|] [|] [|] [|] [|]]; try reflexivity.
    congruence.
Qed.

(** Reading back a printed [int] gives the [int]. *)
Lemma toInt_number (z : Z) : in_int z = true -> toInt (number z) = z.
Proof.
  intros Hz. unfold toInt. now rewrite trimmed_number, parse_int_number, Hz.
Qed.

End QtFacts.

(** ** Facts about [QMap] *)

Module QMapFacts.
Import Qt.

Lemma compare_refl (k : string) : String.compare k k = Eq.
Proof.
  induction k as [| c k IH]; simpl; [reflexivity |].
  unfold Ascii.compare. now rewrite N.compare_refl.
Qed.

(** Storing a key that is above all the keys of the map appends it. *)
Lemma insert_above (k : string) (v : Z) (m : QMap) :
  Forall (fun e => key_lt e (k, v)) m -> insert k v m = m ++ [(k, v)].
Proof.
  induction m as [| [k' v'] m IH]; intros H; simpl; [reflexivity |].
  inversion H as [| ? ? Hlt Hm]; subst. unfold key_lt in Hlt. simpl in Hlt.
  rewrite String.compare_antisym, Hlt. simpl. now rewrite IH.
Qed.

Lemma ordered_app_inv (a b : QMap) :
  ordered (a ++ b) ->
  ordered b /\ Forall (fun x => Forall (key_lt x) b) a.
Proof.
  unfold ordered. induction a as [| x a IH]; simpl; intros H.
  - split; [assumption | constructor].
  - inversion H as [| ? ? Hs Hall]; subst.
    destruct (IH Hs) as [Hb Ha]. split; [assumption |].
    constructor; [| assumption].
    apply Forall_app in Hall. tauto.
Qed.

(** Storing the entries of an ordered map one after the other, in the
    order of the map, rebuilds the map. *)
Lemma insert_all (done_ todo : QMap) :
  ordered (done_ ++ todo) ->
  fold_left (fun m e => insert (fst e) (snd e) m) todo done_ = done_ ++ todo.
Proof.
  revert done_. induction todo as [| [k v] todo IH]; intros done_ H; simpl.
  - now rewrite app_nil_r.
  - rewrite insert_above.
    + rewrite IH; rewrite <- app_assoc; [reflexivity | exact H].
    + apply ordered_app_inv in H as [_ H].
      eapply Forall_impl; [| exact H].
      intros e He. now inversion He.
Qed.

End QMapFacts.

(** ** SerialLink: settings *)

Section SerialLinkSettings.
Import Qt SerialLink StringSpec QtFacts QMapFacts SerialLinkSpec.

Lemma entry_no_comma (i : string * Z) :
  clean_name (fst i) -> has_char "," (entry i) = false.
Proof.
  intros [_ Hc]. unfold entry.
  rewrite !has_char_append, Hc. simpl.
  now rewrite number_no_char.
Qed.

Lemma split_entry (i : string * Z) :
  clean_name (fst i) -> split ":" (entry i) = [fst i; number (snd i)].
Proof.
  intros [Hc _]. unfold split, entry. simpl append.
  rewrite split_from_sep by assumption.
  rewrite split_from_no_sep by (now apply number_no_char).
  reflexivity.
Qed.

Lemma load_portbaud_entry (m : QMap) (i : string * Z) :
  clean_name (fst i) -> in_int (snd i) = true ->
  load_portbaud m (entry i) = insert (fst i) (snd i) m.
Proof.
  intros Hc Hv. unfold load_portbaud. rewrite split_entry by assumption.
  simpl. now rewrite toInt_number.
Qed.

Lemma load_entries (todo done_ : QMap) :
  Forall (fun i => clean_name (fst i)) todo ->
  Forall (fun i => in_int (snd i) = true) todo ->
  fold_left load_portbaud (map entry todo) done_
  = fold_left (fun m e => insert (fst e) (snd e) m) todo done_.
Proof.
  revert done_. induction todo as [| i todo IH]; intros done_ Hc Hv; simpl.
  - reflexivity.
  - inversion Hc; inversion Hv; subst.
    rewrite load_portbaud_entry by assumption. now apply IH.
Qed.

Lemma fold_entries (m : QMap) (acc : string) :
  fold_left (fun acc i => (acc ++ fst i ++ ":" ++ number (snd i) ++ ",")%string) m acc
  = (acc ++ fold_right (fun i r => (entry i ++ "," ++ r)%string) EmptyString m)%string.
Proof.
  revert acc. induction m as [| i m IH]; intros acc; simpl fold_left; simpl fold_right.
  - now rewrite append_nil_r.
  - rewrite IH. unfold entry at 2. rewrite !append_assoc.
    do 2 f_equal. cbn [append]. f_equal. now rewrite append_assoc.
Qed.

Lemma concat_entries (m : QMap) :
  m <> [] ->
  fold_right (fun i r => (entry i ++ "," ++ r)%string) EmptyString m
  = (String.concat "," (map entry m) ++ ",")%string.
Proof.
  induction m as [| i m IH]; intros Hne; [congruence |].
  destruct m as [| j m].
  - reflexivity.
  - simpl fold_right in *. rewrite IH by congruence.
    change (String.concat "," (map entry (i :: j :: m)))
      with (entry i ++ "," ++ String.concat "," (map entry (j :: m)))%string.
    now rewrite !append_assoc.
Qed.

(** [writeSettings] joins the entries with commas, without a comma at the
    end. *)
Lemma portbaudmap_string_concat (m : QMap) :
  portbaudmap_string m = String.concat "," (map entry m).
Proof.
  unfold portbaudmap_string. destruct m as [| i m]; [reflexivity |].
  rewrite fold_entries, concat_entries by discriminate.
  apply (mid_drop_last (String.concat "," (map entry (i :: m))) ","%char).
Qed.

End SerialLinkSettings.

Section SerialLinkProperties.
Import Qt SerialLink StringSpec QtFacts QMapFacts SerialLinkSpec.

Lemma loadSettings_after_write (l l0 : SerialLink.t) (settings : QSettings) :
  m_portBaudMap l0 = [] ->
  let m := fold_left load_portbaud
             (split "," (portbaudmap_string (m_portBaudMap l))) [] in
  m_portBaudMap (loadSettings (writeSettings l settings) l0)
  = if (List.length m =? 0)%nat
    then insert (getPortName l) (getBaudRateType l) m
    else m.
Proof.
  intros H0. unfold loadSettings, writeSettings.
  cbn [settings_contains setValue String.eqb Ascii.eqb Bool.eqb
       variant_toString variant_toInt set_portName set_baud set_line
       set_portBaudMap m_portBaudMap m_portName m_baud].
  rewrite H0.
  destruct (List.length _ =? 0)%nat; reflexivity.
Qed.

(** C9 (as amended): for every non-empty map whose port names contain
    neither ':' nor ',', [writeSettings] stores the entries [port:baud]
    joined by commas with no comma at the end, and [loadSettings], run on
    a new link against what was stored, ends with exactly that map. *)
Theorem portmap_roundtrip (l l0 : SerialLink.t) (settings : QSettings) :
  ordered (m_portBaudMap l) ->
  Forall (fun i => in_int (snd i) = true) (m_portBaudMap l) ->
  m_portBaudMap l0 = [] ->
  Forall (fun i => clean_name (fst i)) (m_portBaudMap l) ->
  m_portBaudMap l <> [] ->
  let saved := writeSettings l settings in
  variant_toString (saved "SERIALLINK_COMM_PORTMAP")
  = String.concat "," (map entry (m_portBaudMap l))
  /\ m_portBaudMap (loadSettings saved l0) = m_portBaudMap l.
Proof.
  intros Hord Hint H0 Hclean Hne saved. split.
  - unfold saved, writeSettings. cbn [setValue String.eqb Ascii.eqb Bool.eqb variant_toString].
    apply portbaudmap_string_concat.
  - unfold saved. rewrite loadSettings_after_write by assumption.
    rewrite portbaudmap_string_concat.
    rewrite (split_concat ","%char).
    + rewrite load_entries by assumption.
      rewrite insert_all by assumption. simpl app.
      destruct (m_portBaudMap l); [congruence | reflexivity].
    + destruct (m_portBaudMap l); [congruence | discriminate].
    + apply Forall_map. eapply Forall_impl; [| exact Hclean].
      intros i Hi. now apply entry_no_comma.
Qed.

Lemma portmap_roundtrip_witness :
  let l := with_map "COM1" 57600 [("COM1", 57600); ("ttyUSB0", 115200)] in
  variant_toString (writeSettings l no_settings "SERIALLINK_COMM_PORTMAP")
  = "COM1:57600,ttyUSB0:115200"
  /\ m_portBaudMap (loadSettings (writeSettings l no_settings) fresh)
     = [("COM1", 57600); ("ttyUSB0", 115200)].
Proof.
  apply (portmap_roundtrip
           (with_map "COM1" 57600 [("COM1", 57600); ("ttyUSB0", 115200)])
           fresh no_settings).
  - repeat constructor.
  - repeat constructor.
  - reflexivity.
  - repeat constructor.
  - discriminate.
Defined.

(** C9 (as stated) fails for the empty map: what is stored is the empty
    string, and [loadSettings] then enters the current port with the
    current baud rate. *)
Lemma empty_portmap_is_not_recovered :
  let l := with_map "COM1" 57600 [] in
  ordered (m_portBaudMap l)
  /\ Forall (fun i => clean_name (fst i)) (m_portBaudMap l)
  /\ variant_toString (writeSettings l no_settings "SERIALLINK_COMM_PORTMAP") = EmptyString
  /\ m_portBaudMap (loadSettings (writeSettings l no_settings) fresh) = [("COM1", 57600)]
  /\ m_portBaudMap (loadSettings (writeSettings l no_settings) fresh) <> m_portBaudMap l.
Proof.
  repeat split; try constructor; try reflexivity. discriminate.
Qed.

Lemma setBaudRate_portName (rate : Z) (l : SerialLink.t) :
  m_portName (snd (setBaudRate rate l)) = m_portName l.
Proof.
  unfold setBaudRate. destruct (rate =? m_baud l); cbn; [reflexivity |].
  destruct (m_port l) as [p |]; cbn; [| reflexivity].
  unfold port_setBaudRate. destruct (baud_ok p rate); reflexivity.
Qed.

Lemma setBaudRate_baud (rate : Z) (l : SerialLink.t) :
  m_baud (snd (setBaudRate rate l)) = rate.
Proof.
  unfold setBaudRate.
  destruct (Z.eqb_spec rate (m_baud l)) as [-> | _]; cbn; [reflexivity |].
  destruct (m_port l) as [p |]; cbn; [| reflexivity].
  unfold port_setBaudRate. destruct (baud_ok p rate); reflexivity.
Qed.

(** C10: [setPortName] returns [false] whatever it is given; when the name
    is new and not blank it does store the trimmed name, and it makes the
    baud rate remembered for that port the current one. *)
Theorem setPortName_returns_false (portName : string) (l : SerialLink.t) :
  fst (setPortName portName l) = false
  /\ (portName <> m_portName l ->
      trimmed portName <> EmptyString ->
      let l' := snd (setPortName portName l) in
      m_portName l' = trimmed portName
      /\ forall baud, find (trimmed portName) (m_portBaudMap l) = Some baud ->
                      m_baud l' = baud).
Proof.
  split.
  - unfold setPortName. now destruct (_ && _).
  - intros Hnew Hblank l'. subst l'. unfold setPortName.
    destruct (String.eqb_spec portName (m_portName l)) as [-> | _]; [congruence |].
    destruct (trimmed portName) as [| c n] eqn:Ht; [congruence |].
    cbn [negb andb String.length Nat.ltb Nat.leb snd].
    set (l1 := emit updateLink _).
    assert (Hname : m_portName l1 = String c n)
      by (subst l1; cbn; destruct (m_port l); reflexivity).
    assert (Hmap : m_portBaudMap l1 = m_portBaudMap l)
      by (subst l1; cbn; destruct (m_port l); reflexivity).
    rewrite Hname, Hmap. unfold contains, value.
    destruct (find (String c n) (m_portBaudMap l)) as [b |].
    + split.
      * now rewrite setBaudRate_portName.
      * intros baud [= <-]. apply setBaudRate_baud.
    + split; [assumption | discriminate].
Qed.

Lemma setPortName_returns_false_witness :
  let l := with_map "COM1" 57600 [("COM1", 57600); ("ttyUSB0", 115200)] in
  fst (setPortName " ttyUSB0 " l) = false
  /\ m_portName (snd (setPortName " ttyUSB0 " l)) = "ttyUSB0"
  /\ m_baud (snd (setPortName " ttyUSB0 " l)) = 115200.
Proof.
  pose proof (setPortName_returns_false " ttyUSB0 "
                (with_map "COM1" 57600 [("COM1", 57600); ("ttyUSB0", 115200)]))
    as [Hret Hacc].
  split; [exact Hret |].
  destruct Hacc as [Hname Hbaud]; [discriminate | discriminate |].
  split; [exact Hname | apply Hbaud; reflexivity].
Defined.

(** The divisor of the rate accessors is zero during the first second of
    a connection. *)
Lemma elapsed_seconds_zero (now : Z) (l : SerialLink.t) :
  0 <= now - m_connectionStartTime l < 1000 -> elapsed_seconds now l = 0.
Proof.
  intros H. unfold elapsed_seconds, quint64.
  rewrite Z.mod_small by lia. apply Z.div_small. lia.
Qed.

(** Whatever the counters hold, an accessor called during the first second
    divides by zero. *)
Lemma rate_in_first_second (now : Z) (l : SerialLink.t) :
  m_statisticsMutex l = false ->
  0 <= now - m_connectionStartTime l < 1000 ->
  fst (getTotalUpstream now l) = DivisionByZero
  /\ fst (getTotalDownstream now l) = DivisionByZero.
Proof.
  intros Hm H. unfold getTotalUpstream, getTotalDownstream. rewrite Hm.
  change (elapsed_seconds now (lock_statistics l)) with (elapsed_seconds now l).
  rewrite (elapsed_seconds_zero now l H). split; reflexivity.
Qed.

(** C5 (the code's behaviour at the failing input): half a second after
    the connection started both rate accessors divide by zero. *)
Theorem rate_divides_by_zero :
  elapsed_seconds 1000500 connected_link = 0
  /\ fst (getTotalUpstream 1000500 connected_link) = DivisionByZero
  /\ fst (getTotalDownstream 1000500 connected_link) = DivisionByZero.
Proof. repeat split. Qed.

End SerialLinkProperties.

(** ** PX4FirmwareUploader: reading from the port *)

Section UploaderReads.
Import Qt PX4FirmwareUploader UploaderSpec.

Lemma firstn_app_le {A : Type} (n : nat) (a b : list A) :
  (n <= List.length a)%nat -> firstn n (a ++ b) = firstn n a.
Proof.
  intros H. rewrite firstn_app.
  replace (n - List.length a)%nat with 0%nat by lia.
  now rewrite firstn_O, app_nil_r.
Qed.

Lemma wait_for_bytes_spec (num : nat) (script : list port_event) (serialBuffer : list Z) :
  (List.length serialBuffer < num)%nat ->
  let r := serialBuffer ++ arriving script in
  let '(count, buf, _, _) := wait_for_bytes num serialBuffer script in
  if (num <=? List.length r)%nat
  then count = Z.of_nat num /\ buf = firstn num r
  else count = -1 /\ buf = [].
Proof.
  revert serialBuffer.
  induction script as [| e script IH]; intros serialBuffer Hlt; simpl.
  - rewrite app_nil_r.
    destruct (Nat.leb_spec num (List.length serialBuffer)); [lia | tauto].
  - destruct e as [bytes |]; simpl.
    + destruct (Nat.leb_spec num (List.length (serialBuffer ++ bytes))) as [Hge | Hlt'].
      * rewrite app_assoc.
        destruct (Nat.leb_spec num (List.length ((serialBuffer ++ bytes) ++ arriving script)))
          as [_ | Hc]; [| rewrite length_app in Hc; lia].
        split; [reflexivity |].
        symmetry. now apply firstn_app_le.
      * specialize (IH (serialBuffer ++ bytes) Hlt').
        rewrite <- app_assoc in IH. exact IH.
    + rewrite app_nil_r.
      destruct (Nat.leb_spec num (List.length serialBuffer)); [lia | tauto].
Qed.

(** [readBytes] returns the first [num] bytes obtained within the timeout,
    or -1 when fewer are obtained. *)
Lemma readBytes_spec (num : nat) (timeout : Z) (s : t) :
  0 < timeout ->
  let r := received_before_timeout s in
  fst (readBytes num timeout s)
  = Ok (if (num <=? List.length r)%nat then (Z.of_nat num, firstn num r) else (-1, [])).
Proof.
  intros Ht. unfold readBytes, received_before_timeout.
  destruct (Nat.leb_spec num (List.length (m_serialBuffer s))) as [Hge | Hlt].
  - simpl.
    destruct (Nat.leb_spec num (List.length (m_serialBuffer s ++ arriving (incoming (m_port s)))))
      as [_ | Hc]; [| rewrite length_app in Hc; lia].
    now rewrite firstn_app_le.
  - destruct (Z.leb_spec timeout 0) as [Hc | _]; [lia |].
    pose proof (wait_for_bytes_spec num (incoming (m_port s)) (m_serialBuffer s) Hlt) as H.
    destruct (wait_for_bytes num (m_serialBuffer s) (incoming (m_port s)))
      as [[[count buf] sb] script].
    simpl in *.
    destruct (num <=? _)%nat; destruct H as [-> ->]; reflexivity.
Qed.

Lemma fst_bind_ok {A B : Type} (c : M A) (k : A -> M B) (s : t) (a : A) :
  fst (c s) = Ok a -> fst (bind c k s) = fst (k a (snd (c s))).
Proof. unfold bind. destruct (c s) as [[] s']; simpl; congruence. Qed.


Lemma get_sync_spec (timeout : Z) (s : t) :
  0 < timeout ->
  fst (get_sync timeout s)
  = Ok (match received_before_timeout s with
        | b0 :: b1 :: _ => if (b0 =? 0x12) && (b1 =? 0x10) then 0 else -1
        | _ => -1
        end).
Proof.
  intros Ht. unfold get_sync.
  rewrite (fst_bind_ok _ _ _ _ (readBytes_spec 2 timeout s Ht)).
  destruct (received_before_timeout s) as [| b0 [| b1 r]]; try reflexivity.
  simpl. destruct (b0 =? 18), (b1 =? 16); reflexivity.
Qed.






End UploaderReads.

(** ** PX4FirmwareUploader: the PROGRAM_MULTI frame *)

Section UploaderFrame.
Import Qt PX4FirmwareUploader UploaderSpec.

(** C6: for a chunk of at most 60 bytes the frame has 3 bytes more than
    the chunk, starts with 0x27, carries the chunk length in its second
    byte, then the bytes of the chunk unchanged, and ends with 0x20. *)
Theorem program_frame_layout (buf : list Z) :
  (List.length buf <= 60)%nat ->
  let tosend := program_frame buf in
  List.length tosend = (3 + List.length buf)%nat
  /\ nth 0 tosend 0 = 0x27
  /\ nth 1 tosend 0 = Z.of_nat (List.length buf)
  /\ firstn (List.length buf) (skipn 2 tosend) = buf
  /\ skipn (2 + List.length buf) tosend = [0x20].
Proof.
  intros Hlen. unfold program_frame. simpl app.
  repeat split.
  - simpl. rewrite length_app. simpl. lia.
  - unfold to_uchar. simpl nth. apply Z.mod_small. lia.
  - simpl skipn. rewrite firstn_app, Nat.sub_diag, firstn_all. simpl.
    apply app_nil_r.
  - simpl skipn. rewrite skipn_app, Nat.sub_diag, skipn_all. reflexivity.
Qed.

Lemma program_frame_layout_witness :
  program_frame [1; 2; 3] = [0x27; 3; 1; 2; 3; 0x20]
  /\ List.length (program_frame [1; 2; 3]) = 6%nat.
Proof.
  split; [reflexivity |].
  apply (program_frame_layout [1; 2; 3]). simpl. lia.
Defined.

(** A chunk read from the temporary file has at most 60 bytes. *)
Lemma tempFile_read_length (maxlen : nat) (s : t) (buf : list Z) (s' : t) :
  tempFile_read maxlen s = (Ok buf, s') -> (List.length buf <= maxlen)%nat.
Proof.
  unfold tempFile_read, bind, of_file, with_file, ret.
  destruct (tempFile s) as [f |] eqn:Hf; cbn; [| discriminate].
  rewrite Hf. cbn. intros [= <- _]. apply firstn_le_length.
Qed.

End UploaderFrame.

(** ** PX4FirmwareUploader: decoding the file *)

Section UploaderDecode.
Import Qt PX4FirmwareUploader UploaderSpec.

Lemma appends_left_0 (n : nat) : (n mod 4 = 0)%nat -> appends_left n = 0%nat.
Proof. unfold appends_left. now intros ->. Qed.

Lemma appends_left_S (n : nat) :
  (n mod 4 <> 0)%nat -> appends_left n = S (appends_left (n + 1)).
Proof.
  intros Hn. unfold appends_left.
  assert (Hb : (n mod 4 < 4)%nat) by (apply Nat.mod_upper_bound; lia).
  assert (Hs : ((n + 1) mod 4 = (n mod 4 + 1) mod 4)%nat).
  { rewrite Nat.Div0.add_mod by lia. reflexivity. }
  rewrite Hs.
  assert (Hc : (n mod 4 = 1 \/ n mod 4 = 2 \/ n mod 4 = 3)%nat) by lia.
  destruct Hc as [-> | [-> | ->]]; reflexivity.
Qed.

Lemma appends_left_bound (n : nat) :
  (appends_left n < 4 /\ (n + appends_left n) mod 4 = 0)%nat.
Proof.
  unfold appends_left.
  assert (Hb : (n mod 4 < 4)%nat) by (apply Nat.mod_upper_bound; lia).
  split; [apply Nat.mod_upper_bound; lia |].
  rewrite Nat.Div0.add_mod by lia.
  assert (Hc : (n mod 4 = 0 \/ n mod 4 = 1 \/ n mod 4 = 2 \/ n mod 4 = 3)%nat) by lia.
  destruct Hc as [-> | [-> | [-> | ->]]]; reflexivity.
Qed.

(** The padding loop appends as many 0xFF as are missing. *)
Lemma pad4_spec (uncompressed : list Z) :
  pad4 uncompressed
  = uncompressed ++ repeat 0xFF (appends_left (List.length uncompressed)).
Proof.
  funelim (pad4 uncompressed).
  - rewrite appends_left_0 by assumption. simpl. now rewrite app_nil_r.
  - rewrite H. rewrite length_app. simpl List.length.
    rewrite (appends_left_S (List.length uncompressed)) by assumption.
    simpl repeat. now rewrite <- app_assoc.
Qed.

Variable fromBase64 : string -> list Z.
Variable qUncompress : list Z -> list Z.

(** C8: when the decompressed blob has exactly the declared number of
    bytes, [loadFile] stores the payload and starts the upload: the
    payload is the blob followed by bytes 0xFF only, and its length is the
    smallest multiple of 4 that is at least the declared size; but the
    function ends without returning a value.  When the lengths differ,
    [loadFile] stores no payload and does not start the upload; it
    returns [false] when [m_port] points to a port, which it closes, and
    it ends in the call through [m_port] when the pointer is not the
    address of an object, as after the constructor. *)
Theorem loadFile_decode (jsonstring : string) (s : t) :
  let uncompressed := decode_image fromBase64 qUncompress jsonstring in
  let image_size := declared_size jsonstring in
  let r := loadFile fromBase64 qUncompress jsonstring s in
  (Z.of_nat (List.length uncompressed) = image_size ->
   fst r = NoReturnValue
   /\ exists payload,
       tempFile (snd r) = Some {| data := payload; pos := 0%nat; file_isOpen := false |}
       /\ running (snd r) = true
       /\ Z.of_nat (List.length payload) mod 4 = 0
       /\ image_size <= Z.of_nat (List.length payload) < image_size + 4
       /\ firstn (List.length uncompressed) payload = uncompressed
       /\ Forall (fun b => b = 0xFF) (skipn (List.length uncompressed) payload))
  /\ (Z.of_nat (List.length uncompressed) <> image_size ->
      tempFile (snd r) = tempFile s
      /\ running (snd r) = running s
      /\ (port_is_object s = true ->
          fst r = Returned false /\ isOpen (m_port (snd r)) = false)
      /\ (port_is_object s = false -> fst r = BadPointer)).
Proof.
  cbv zeta. unfold loadFile, decode_image, declared_size, port_is_object.
  cbn [with_loaded m_loadedFwSize m_port_assigned m_port_deleted].
  set (size := toInt _). set (u := qUncompress _).
  destruct (Z.eqb_spec (Z.of_nat (List.length u)) size) as [Heq | Hne]; cbn [negb].
  - split; [intros _ | congruence]. split; [reflexivity |].
    cbn [fst snd with_running with_tempFile tempFile running].
    exists (pad4 u). rewrite pad4_spec.
    destruct (appends_left_bound (List.length u)) as [Hlt Hmod].
    repeat split.
    + rewrite length_app, repeat_length.
      change 4 with (Z.of_nat 4). rewrite <- Nat2Z.inj_mod, Hmod. reflexivity.
    + rewrite length_app, repeat_length. lia.
    + rewrite length_app, repeat_length. lia.
    + rewrite firstn_app, Nat.sub_diag, firstn_all. simpl. apply app_nil_r.
    + rewrite skipn_app, Nat.sub_diag, skipn_all. simpl.
      apply Forall_forall. intros b Hb. now apply repeat_spec in Hb.
  - split; [congruence | intros _].
    destruct (m_port_assigned s && negb (m_port_deleted s)); cbn;
      repeat split; congruence.
Qed.

End UploaderDecode.

Section UploaderDecodeExample.
Import Qt PX4FirmwareUploader UploaderSpec.

Lemma loadFile_decode_witness :
  let s := uploader [] [] in
  (fst (loadFile plain_fromBase64 plain_qUncompress (px4_file "5" "hello") s) = NoReturnValue
   /\ exists payload,
       tempFile (snd (loadFile plain_fromBase64 plain_qUncompress (px4_file "5" "hello") s))
       = Some {| data := payload; pos := 0%nat; file_isOpen := false |}
       /\ Z.of_nat (List.length payload) = 8)
  /\ fst (loadFile plain_fromBase64 plain_qUncompress (px4_file "6" "hello") s)
     = Returned false
  /\ fst (loadFile plain_fromBase64 plain_qUncompress (px4_file "6" "hello") constructed)
     = BadPointer.
Proof.
  intros s.
  pose proof (loadFile_decode plain_fromBase64 plain_qUncompress (px4_file "5" "hello") s)
    as [Hok _].
  pose proof (loadFile_decode plain_fromBase64 plain_qUncompress (px4_file "6" "hello") s)
    as [_ Hbad].
  pose proof (loadFile_decode plain_fromBase64 plain_qUncompress (px4_file "6" "hello")
                constructed) as [_ Hfresh].
  split; [| split].
  - destruct Hok as [Hret [payload (Hfile & _ & Hmod & Hrange & _)]]; [reflexivity |].
    split; [exact Hret |].
    exists payload. split; [exact Hfile |].
    change (declared_size (px4_file "5" "hello")) with 5 in Hrange.
    assert (Hq := Z.div_mod (Z.of_nat (List.length payload)) 4). lia.
  - destruct Hbad as (_ & _ & Hport & _); [vm_compute; discriminate |].
    apply Hport. reflexivity.
  - destruct Hfresh as (_ & _ & _ & Hnone); [vm_compute; discriminate |].
    apply Hnone. reflexivity.
Defined.

End UploaderDecodeExample.

(** ** PX4FirmwareUploader: the checks of [run] on concrete devices *)

Section UploaderRuns.
Import Qt PX4FirmwareUploader UploaderSpec.

(** What the OTP header test rejects: buffers that differ from the magic
    in each of the four bytes. *)
Lemma otp_header_failure_iff (otpbuf : list Z) :
  otp_header_failure otpbuf = true
  <-> nth 0 otpbuf 0 <> 80 /\ nth 1 otpbuf 0 <> 88
      /\ nth 2 otpbuf 0 <> 52 /\ nth 3 otpbuf 0 <> 0.
Proof.
  unfold otp_header_failure.
  rewrite !andb_true_iff, !negb_true_iff, !Z.eqb_neq. tauto.
Qed.

(** C1 (the code's behaviour at the failing input): an OTP region of
    zeros does not start with the magic 'P','X','4',0, the header test
    lets it pass, and the upload goes on: the serial number is requested
    and the image is flashed. *)
Theorem blank_otp_passes_header_test :
  let otpbuf := repeat 0 512 in
  let r := run_opened 200 (uploader small_image blank_otp_device) in
  firstn 4 otpbuf <> [80; 88; 52; 0]
  /\ otp_header_failure otpbuf = false
  /\ fst r = Return
  /\ nth 133 (written (m_port (snd r))) [] = sn_command 0
  /\ last (written (m_port (snd r))) [] = reboot_command
  /\ last (emitted (snd r)) (error EmptyString) = done.
Proof. vm_compute. repeat split. discriminate. Qed.

(** C4 (the code's behaviour at the failing input): when the footer of
    ERASE does not arrive, [run] returns with the port open, the
    temporary file in place and no error signal, before programming as
    well as after a failed chunk; the sibling path for the exhausted
    failure budget closes the port and deletes the file. *)
Theorem erase_timeout_leaves_port_open :
  let r1 := run_opened 200 (uploader small_image erase_timeout_device) in
  let r2 := run_opened 200 (uploader small_image second_erase_timeout_device) in
  let r3 := run_opened 200 (uploader small_image failing_device) in
  (fst r1 = Return
   /\ isOpen (m_port (snd r1)) = true
   /\ tempFile (snd r1) = tempFile (uploader small_image erase_timeout_device)
   /\ existsb is_error (emitted (snd r1)) = false)
  /\ (fst r2 = Return
      /\ isOpen (m_port (snd r2)) = true
      /\ tempFile (snd r2) <> None
      /\ existsb is_error (emitted (snd r2)) = false)
  /\ (fst r3 = Return
      /\ isOpen (m_port (snd r3)) = false
      /\ tempFile (snd r3) = None
      /\ existsb is_error (emitted (snd r3)) = true).
Proof. vm_compute. repeat split. discriminate. Qed.

(** C2 (as stated) fails: with every second chunk failing, no two
    failures follow each other, yet the counter is not reset by the
    chunks that succeed and the third failure aborts the upload. *)
Lemma failure_counter_is_not_reset :
  let s0 := programming two_chunk_image flaky_device in
  let p1 := program_chunk 0 0 s0 in
  let p2 := program_chunk 0 1 (snd p1) in
  let p3 := program_chunk 1 1 (snd p2) in
  let p4 := program_chunk 1 2 (snd p3) in
  let p5 := program_chunk 2 2 (snd p4) in
  (chunk_acknowledged s0 = false /\ fst p1 = Ok (0, 1))
  /\ (chunk_acknowledged (snd p1) = true /\ fst p2 = Ok (1, 1))
  /\ (chunk_acknowledged (snd p2) = false /\ fst p3 = Ok (1, 2))
  /\ (chunk_acknowledged (snd p3) = true /\ fst p4 = Ok (2, 2))
  /\ (chunk_acknowledged (snd p4) = false /\ fst p5 = Return)
  /\ program_loop 10 0 0 s0 = (Return, snd p5)
  /\ existsb is_error (emitted (snd p5)) = true.
Proof. vm_compute. repeat split. Qed.

(** C3 (as stated) fails: after a short read the command for the same
    word is written again, and the serial number read completes. *)
Lemma short_sn_read_is_retried :
  let s := uploader small_image slow_sn_device in
  let r := sn_loop 10 0 (repeat 0 12) s in
  short_read (sn_requested 0 s)
  /\ fst r = Ok (false, [4; 3; 2; 1; 8; 7; 6; 5; 12; 11; 10; 9])
  /\ written (m_port (snd r)) = [sn_command 0; sn_command 0; sn_command 4; sn_command 8]
  /\ fst (read_sn 10 EmptyString s) <> Continue.
Proof. vm_compute. repeat split; [lia | discriminate]. Qed.

End UploaderRuns.

(** ** PX4FirmwareUploader: failures while programming and while reading
  the serial number *)

Section UploaderFailures.
Import Qt PX4FirmwareUploader UploaderSpec.

(** [get_sync] always comes back, with 0 or -1. *)
Lemma get_sync_returns (timeout : Z) (s : t) :
  get_sync timeout s
  = (Ok (if acknowledged timeout s then 0 else -1), snd (get_sync timeout s)).
Proof.
  unfold acknowledged, get_sync, bind.
  destruct (readBytes 2 timeout s) as [[[read infobuf] | | | |] s'] eqn:Hr;
    try (exfalso; unfold readBytes in Hr;
         destruct (2 <=? _)%nat; [discriminate |];
         destruct (timeout <=? 0); [discriminate |];
         destruct (wait_for_bytes _ _ _) as [[[? ?] ?] ?]; discriminate).
  cbn [fst snd].
  destruct (negb (read =? 2)); [reflexivity |].
  destruct (negb _ || negb _); reflexivity.
Qed.

Lemma readBytes_returns (num : nat) (timeout : Z) (s : t) :
  0 < timeout ->
  let r := received_before_timeout s in
  readBytes num timeout s
  = (Ok (if (num <=? List.length r)%nat then (Z.of_nat num, firstn num r) else (-1, [])),
     snd (readBytes num timeout s)).
Proof.
  intros Ht r. rewrite (surjective_pairing (readBytes num timeout s)) at 1.
  f_equal. now apply readBytes_spec.
Qed.

Lemma bind_ok {A B : Type} (c : M A) (k : A -> M B) (s s' : t) (a : A) :
  c s = (Ok a, s') -> bind c k s = k a s'.
Proof. unfold bind. now intros ->. Qed.

Lemma bind_assoc {A B C : Type} (c : M A) (k1 : A -> M B) (k2 : B -> M C) (s : t) :
  bind (bind c k1) k2 s = bind c (fun a => bind (k1 a) k2) s.
Proof. unfold bind. destruct (c s) as [[] s']; reflexivity. Qed.

(** A read changes [m_serialBuffer] and the script, nothing else. *)
Lemma readBytes_frame (num : nat) (timeout : Z) (s : t) :
  exists value serialBuffer script,
    readBytes num timeout s
    = (Ok value,
       with_serialBuffer serialBuffer
         (with_port {| incoming := script; written := written (m_port s);
                       isOpen := isOpen (m_port s) |} s)).
Proof.
  unfold readBytes.
  destruct (num <=? List.length (m_serialBuffer s))%nat.
  - eexists _, (skipn num (m_serialBuffer s)), (incoming (m_port s)).
    destruct s as [? ? []]; reflexivity.
  - destruct (timeout <=? 0).
    + eexists _, (m_serialBuffer s), (incoming (m_port s)).
      destruct s as [? ? []]; reflexivity.
    + destruct (wait_for_bytes num (m_serialBuffer s) (incoming (m_port s)))
        as [[[count buf] sb] script].
      eexists _, sb, script. reflexivity.
Qed.

Lemma readBytes_step (num : nat) (timeout : Z) (s : t) :
  0 < timeout ->
  exists serialBuffer script,
    readBytes num timeout s
    = (Ok (if (num <=? List.length (received_before_timeout s))%nat
           then (Z.of_nat num, firstn num (received_before_timeout s))
           else (-1, [])),
       with_serialBuffer serialBuffer
         (with_port {| incoming := script; written := written (m_port s);
                       isOpen := isOpen (m_port s) |} s)).
Proof.
  intros Ht.
  pose proof (readBytes_returns num timeout s Ht) as H. cbv zeta in H.
  destruct (readBytes_frame num timeout s) as (value & sb & script & Hf).
  exists sb, script. rewrite H, Hf. reflexivity.
Qed.

Lemma get_sync_step (timeout : Z) (s : t) :
  exists serialBuffer script,
    get_sync timeout s
    = (Ok (if acknowledged timeout s then 0 else -1),
       with_serialBuffer serialBuffer
         (with_port {| incoming := script; written := written (m_port s);
                       isOpen := isOpen (m_port s) |} s)).
Proof.
  rewrite get_sync_returns. unfold get_sync.
  destruct (readBytes_frame 2 timeout s) as ([read infobuf] & sb & script & H).
  exists sb, script. rewrite (bind_ok _ _ _ _ _ H).
  destruct (negb (read =? 2)); [reflexivity |].
  destruct (negb _ || negb _); reflexivity.
Qed.

Lemma chunk_nonempty (f : QTemporaryFile) :
  (pos f < List.length (data f))%nat ->
  (0 <? List.length (firstn 60 (skipn (pos f) (data f))))%nat = true.
Proof. intros H. apply Nat.ltb_lt. rewrite length_firstn, length_skipn. lia. Qed.

(** C2 (as amended): in a pass of the programming loop that has a chunk to
    send, the frame of the chunk is written.  A chunk that is acknowledged
    leaves the failure counter as it is (it is not reset), and nothing
    more is written.  A chunk that fails when the incremented counter
    exceeds 2 ends [run] with the error signal, the port closed and the
    temporary file deleted, and no ERASE is written.  A chunk that fails
    earlier makes the pass write ERASE after the frame; when that erase is
    acknowledged the pass ends with the incremented counter and the file
    at offset 0, and when it is not, [run] is left. *)
Theorem program_chunk_failure_budget (counter failure : Z) (s : t) :
  chunk_pending s ->
  let r := program_chunk counter failure s in
  let frame := program_frame (next_chunk s) in
  (chunk_acknowledged s = true -> m_stop s = false ->
   fst r = Ok (counter + 1, failure)
   /\ written (m_port (snd r)) = written (m_port s) ++ [frame])
  /\ (chunk_acknowledged s = false -> failure + 1 > 2 ->
      fst r = Return
      /\ written (m_port (snd r)) = written (m_port s) ++ [frame]
      /\ existsb is_error (emitted (snd r)) = true
      /\ isOpen (m_port (snd r)) = false
      /\ tempFile (snd r) = None)
  /\ (chunk_acknowledged s = false -> failure + 1 <= 2 ->
      written (m_port (snd r)) = written (m_port s) ++ [frame; erase_command]
      /\ (erase_acknowledged s = true ->
          fst r = Ok (counter, failure + 1) /\ file_pos (snd r) = Some 0%nat)
      /\ (erase_acknowledged s = false -> fst r = Return)).
Proof.
  intros (f & Hf & Hpos) r frame. subst r frame.
  unfold erase_acknowledged, erase_sent, chunk_acknowledged, frame_sent, program_chunk,
    next_chunk.
  destruct s as [stop sb port del tf id size descr run em assigned]. cbn in Hf. subst tf.
  cbn -[get_sync program_frame acknowledged firstn skipn Nat.ltb].
  rewrite (chunk_nonempty f Hpos).
  cbn -[get_sync program_frame acknowledged firstn skipn Nat.ltb].
  match goal with |- context [acknowledged 1000 ?x] => set (s1 := x) end.
  destruct (get_sync_step 1000 s1) as (sb1 & script1 & Hg).
  rewrite (bind_ok _ _ _ _ _ Hg). rewrite Hg. clear Hg.
  destruct (acknowledged 1000 s1).
  - (* the chunk is acknowledged *)
    split; [| split]; try discriminate.
    intros _ ->. subst s1. cbn -[program_frame firstn skipn].
    destruct (Z.rem counter 50 =? 0); split; reflexivity.
  - (* the chunk fails *)
    split; [discriminate |]. cbn [negb Z.eqb]. split; intros _ Hbudget.
    + apply Z.gtb_gt in Hbudget. rewrite Hbudget. subst s1.
      cbn -[program_frame firstn skipn].
      rewrite existsb_app. cbn -[program_frame firstn skipn].
      rewrite orb_true_r. repeat split.
    + destruct (Z.gtb_spec (failure + 1) 2) as [Hc | _]; [lia |].
      subst s1.
      cbn -[get_sync program_frame acknowledged firstn skipn Nat.ltb].
      match goal with |- context [acknowledged 60000 ?x] => set (s3 := x) end.
      destruct (get_sync_step 60000 s3) as (sb3 & script3 & Hg).
      rewrite (bind_ok _ _ _ _ _ Hg). clear Hg.
      destruct (acknowledged 60000 s3); subst s3; cbn -[program_frame firstn skipn];
        rewrite <- app_assoc; (split; [reflexivity |]);
        split; try discriminate; intros _; try split; reflexivity.
Qed.

Lemma program_chunk_failure_budget_witness :
  let s0 := programming two_chunk_image flaky_device in
  fst (program_chunk 0 1 (snd (program_chunk 0 0 s0))) = Ok (1, 1)
  /\ fst (program_chunk 5 2 s0) = Return
  /\ fst (program_chunk 0 0 s0) = Ok (0, 1)
  /\ written (m_port (snd (program_chunk 0 0 s0)))
     = [program_frame (repeat 0xAA 60); erase_command].
Proof.
  intros s0.
  assert (Hp0 : chunk_pending s0)
    by (eexists; split; [reflexivity | vm_compute; lia]).
  assert (Hp1 : chunk_pending (snd (program_chunk 0 0 s0)))
    by (eexists; split; [vm_compute; reflexivity | vm_compute; lia]).
  destruct (program_chunk_failure_budget 0 1 _ Hp1) as (Hack & _ & _).
  destruct (program_chunk_failure_budget 5 2 _ Hp0) as (_ & Hfatal & _).
  destruct (program_chunk_failure_budget 0 0 _ Hp0) as (_ & _ & Hretry).
  split; [| split; [| split]].
  - apply Hack; reflexivity.
  - apply Hfatal; [reflexivity | lia].
  - destruct Hretry as (_ & Herase & _); [reflexivity | lia |].
    apply Herase. reflexivity.
  - destruct Hretry as (Hw & _); [reflexivity | lia |].
    rewrite Hw. reflexivity.
Defined.

(** The drain after a failed read consumes one wait and leaves the log of
    writes as it is. *)
Lemma port_wait_and_drain_step (msecs : Z) (s : t) :
  exists script,
    port_wait_and_drain msecs s
    = (Ok tt, with_port {| incoming := script; written := written (m_port s);
                           isOpen := isOpen (m_port s) |} s).
Proof.
  unfold port_wait_and_drain, port_waitForReadyRead, bind, ret.
  destruct (incoming (m_port s)) as [| e rest] eqn:E.
  - exists []. destruct s as [? ? []]. cbn in *. now subst.
  - exists rest. reflexivity.
Qed.

(** C3 (as amended): in the serial number loop a short read makes the next
    pass run at the same index, so the command for the same word is written
    again; a bad footer after the four bytes ends the loop with [bad] set
    and nothing written after the command; and a loop that ends with [bad]
    set makes the serial number part [continue] with the next retry of the
    SYNC loop. *)
Theorem sn_chunk_failures (fuel : nat) (i : Z) (snbuf : list Z) (s : t) :
  i < 12 ->
  let r := sn_loop (S fuel) i snbuf s in
  (short_read (sn_requested i s) ->
   exists s', written (m_port s') = written (m_port s) ++ [sn_command i]
              /\ r = sn_loop fuel i snbuf s')
  /\ (bad_footer (sn_requested i s) ->
      (exists snbuf', fst r = Ok (true, snbuf'))
      /\ written (m_port (snd r)) = written (m_port s) ++ [sn_command i])
  /\ (forall otpstr snbuf',
         fst (sn_loop fuel 0 (repeat 0 12)
                (snd (emit (statusUpdate "Requesting board SN") s)))
         = Ok (true, snbuf') ->
         fst (read_sn fuel otpstr s) = Continue).
Proof.
  intros Hi r. subst r. apply Z.ltb_lt in Hi.
  unfold short_read, bad_footer, sn_requested.
  cbn [sn_loop]. rewrite Hi. unfold sn_chunk. rewrite !bind_assoc.
  destruct s as [stop sb port del tf id size descr run em assigned].
  cbn -[readBytes get_sync sn_command acknowledged received_before_timeout
        port_wait_and_drain sn_loop store].
  match goal with |- context [received_before_timeout ?x] => set (s1 := x) end.
  destruct (readBytes_step 4 2000 s1 eq_refl) as (sb1 & script1 & Hr).
  rewrite !bind_assoc, !(bind_ok _ _ _ _ _ Hr). rewrite Hr. clear Hr.
  split; [| split].
  - intros Hshort. apply Nat.leb_gt in Hshort. rewrite Hshort.
    cbn -[sn_command port_wait_and_drain sn_loop].
    match goal with |- context [bind _ _ ?x] => set (s2 := x) end.
    destruct (port_wait_and_drain_step 1000 s2) as (script2 & Hw).
    rewrite !bind_assoc, (bind_ok _ _ _ _ _ Hw). clear Hw.
    cbn -[sn_command sn_loop].
    rewrite Z.sub_add. eexists. split; [| reflexivity]. reflexivity.
  - intros [Hlen Hbad]. apply Nat.leb_le in Hlen. rewrite Hlen.
    cbn -[get_sync sn_command acknowledged sn_loop store] in *.
    match type of Hbad with acknowledged 2000 ?x = false => set (s2 := x) in * end.
    destruct (get_sync_step 2000 s2) as (sb2 & script2 & Hg).
    rewrite !bind_assoc, (bind_ok _ _ _ _ _ Hg). clear Hg. rewrite Hbad.
    cbn -[sn_command store]. split; [eexists; reflexivity | reflexivity].
  - intros otpstr snbuf' Hloop. unfold read_sn.
    cbn -[sn_loop] in *.
    match type of Hloop with fst (sn_loop _ _ _ ?x) = _ => set (s2 := x) in * end.
    unfold bind. destruct (sn_loop fuel 0 _ s2) as [res s3].
    cbn in Hloop. subst res. reflexivity.
Qed.

Lemma sn_chunk_failures_witness :
  let s := uploader small_image slow_sn_device in
  let bad := uploader small_image [Data [1; 2; 3; 4; 0x12; 0x11]] in
  (exists s', sn_loop 3 0 (repeat 0 12) s = sn_loop 2 0 (repeat 0 12) s')
  /\ (exists snbuf', fst (sn_loop 1 0 (repeat 0 12) bad) = Ok (true, snbuf'))
  /\ fst (read_sn 3 EmptyString bad) = Continue.
Proof.
  intros s bad. split; [| split].
  - destruct (sn_chunk_failures 2 0 (repeat 0 12) s) as [H _]; [lia |].
    destruct H as (s' & _ & H); [vm_compute; lia |].
    exists s'. exact H.
  - destruct (sn_chunk_failures 0 0 (repeat 0 12) bad) as (_ & H & _); [lia |].
    apply H. split; [vm_compute; lia | reflexivity].
  - destruct (sn_chunk_failures 3 0 (repeat 0 12) bad) as (_ & _ & H); [lia |].
    eapply H. vm_compute. reflexivity.
Defined.

(** When the footer of ERASE does not arrive, [run] returns at once: the
    port and the temporary file are left as they are and no error is
    signalled. *)
Lemma erase_timeout_returns (fuel : nat) (s : t) :
  let s1 := snd ((emit (statusUpdate "Erasing flash, this may take up to a minute") ;;
                  port_write erase_command)%uploader s) in
  acknowledged 60000 s1 = false ->
  let r := erase_and_program fuel s in
  fst r = Return
  /\ isOpen (m_port (snd r)) = isOpen (m_port s)
  /\ m_port_deleted (snd r) = m_port_deleted s
  /\ tempFile (snd r) = tempFile s
  /\ existsb is_error (emitted (snd r)) = existsb is_error (emitted s).
Proof.
  unfold erase_and_program.
  destruct s as [stop sb port del tf id size descr run em assigned].
  cbn -[get_sync acknowledged program_loop].
  match goal with |- context [acknowledged 60000 ?x] => set (s1 := x) end.
  destruct (get_sync_step 60000 s1) as (sb1 & script1 & Hg).
  rewrite (bind_ok _ _ _ _ _ Hg). clear Hg.
  intros ->. subst s1. cbn. rewrite existsb_app. cbn. rewrite orb_false_r.
  repeat split.
Qed.

End UploaderFailures.

(** ** More facts about [QMap] *)

Module QMapLookup.
Import Qt QMapFacts.

Lemma ascii_compare_trans (a b c : ascii) :
  Ascii.compare a b = Lt -> Ascii.compare b c = Lt -> Ascii.compare a c = Lt.
Proof.
  unfold Ascii.compare. rewrite !N.compare_lt_iff. lia.
Qed.

Lemma compare_trans (a b c : string) :
  String.compare a b = Lt -> String.compare b c = Lt -> String.compare a c = Lt.
Proof.
  revert b c. induction a as [| x a IH]; intros [| y b] [| z c]; simpl; try congruence.
  destruct (Ascii.compare x y) eqn:Hxy; try discriminate;
    destruct (Ascii.compare y z) eqn:Hyz; try discriminate; intros Hab Hbc.
  - apply Ascii.compare_eq_iff in Hxy, Hyz. subst.
    replace (Ascii.compare z z) with Eq
      by (symmetry; unfold Ascii.compare; apply N.compare_refl).
    eauto.
  - apply Ascii.compare_eq_iff in Hxy. subst. now rewrite Hyz.
  - apply Ascii.compare_eq_iff in Hyz. subst. now rewrite Hxy.
  - now rewrite (ascii_compare_trans _ _ _ Hxy Hyz).
Qed.

Lemma compare_eqb (a b : string) :
  String.eqb a b = match String.compare a b with Eq => true | _ => false end.
Proof.
  destruct (String.eqb_spec a b) as [-> | N].
  - now rewrite compare_refl.
  - destruct (String.compare a b) eqn:E; try reflexivity.
    apply String.compare_eq_iff in E. contradiction.
Qed.

(** Reading back the key that was just stored. *)
Lemma find_insert (k : string) (v : Z) (m : QMap) :
  find k (insert k v m) = Some v.
Proof.
  induction m as [| [k' v'] m IH]; simpl.
  - now rewrite String.eqb_refl.
  - destruct (String.compare k k') eqn:E; simpl.
    + now rewrite String.eqb_refl.
    + now rewrite String.eqb_refl.
    + rewrite compare_eqb, E. exact IH.
Qed.

(** Storing a key leaves the other keys as they are. *)
Lemma find_insert_other (k k' : string) (v : Z) (m : QMap) :
  k' <> k -> find k' (insert k v m) = find k' m.
Proof.
  intros Hne. induction m as [| [k0 v0] m IH]; simpl.
  - apply String.eqb_neq in Hne. now rewrite Hne.
  - destruct (String.compare k k0) eqn:E; simpl.
    + apply String.compare_eq_iff in E. subst k0.
      apply String.eqb_neq in Hne. now rewrite Hne.
    + apply String.eqb_neq in Hne. now rewrite Hne.
    + now rewrite IH.
Qed.

(** Storing keeps the keys in ascending order. *)
Lemma insert_ordered (k : string) (v : Z) (m : QMap) :
  ordered m -> ordered (insert k v m).
Proof.
  unfold ordered. induction m as [| [k' v'] m IH]; intros H; simpl.
  - repeat constructor.
  - inversion H as [| ? ? Hs Hall]; subst.
    destruct (String.compare k k') eqn:E.
    + apply String.compare_eq_iff in E. subst k'. now constructor.
    + constructor; [assumption |]. constructor; [exact E |].
      eapply Forall_impl; [| exact Hall].
      intros e He. unfold key_lt in *. simpl in *. eapply compare_trans; eauto.
    + constructor; [now apply IH |].
      assert (Hk : key_lt (k', v') (k, v)).
      { unfold key_lt. simpl. now rewrite String.compare_antisym, E. }
      clear IH H Hs E. induction m as [| [k1 v1] m IHm]; simpl.
      * now constructor.
      * inversion Hall; subst.
        destruct (String.compare k k1); constructor; auto.
  Qed.

Lemma contains_find (k : string) (m : QMap) :
  contains k m = match find k m with Some _ => true | None => false end.
Proof. reflexivity. Qed.

End QMapLookup.

(** ** SerialLink: the per-port baud memory *)

Section SerialLinkBaudMemory.
Import Qt SerialLink StringSpec QtFacts QMapFacts QMapLookup SerialLinkSpec.

Lemma setBaudRate_map (rate : Z) (l : SerialLink.t) :
  m_portBaudMap (snd (setBaudRate rate l))
  = if rate =? m_baud l then m_portBaudMap l
    else insert (m_portName l) rate (m_portBaudMap l).
Proof.
  unfold setBaudRate. destruct (rate =? m_baud l); cbn; [reflexivity |].
  destruct (m_port l) as [p |]; cbn; [| reflexivity].
  unfold port_setBaudRate. destruct (baud_ok p rate); reflexivity.
Qed.

Lemma setBaudRate_find (rate : Z) (l : SerialLink.t) :
  rate <> m_baud l ->
  find (m_portName l) (m_portBaudMap (snd (setBaudRate rate l))) = Some rate.
Proof.
  intros Hne. rewrite setBaudRate_map. apply Z.eqb_neq in Hne. rewrite Hne.
  apply find_insert.
Qed.

(** The name and the rate after [setPortName] has taken a new name. *)
Lemma setPortName_switch (portName : string) (l : SerialLink.t) :
  portName <> m_portName l ->
  trimmed portName <> EmptyString ->
  m_portName (snd (setPortName portName l)) = trimmed portName
  /\ forall baud, find (trimmed portName) (m_portBaudMap l) = Some baud ->
                  m_baud (snd (setPortName portName l)) = baud.
Proof.
  intros Hnew Hblank. unfold setPortName.
  apply String.eqb_neq in Hnew. rewrite Hnew.
  destruct (trimmed portName) as [| c n] eqn:Ht; [congruence |].
  cbn [negb andb String.length Nat.ltb Nat.leb snd].
  set (l1 := emit updateLink _).
  assert (Hname : m_portName l1 = String c n)
    by (subst l1; cbn; destruct (m_port l); reflexivity).
  assert (Hmap : m_portBaudMap l1 = m_portBaudMap l)
    by (subst l1; cbn; destruct (m_port l); reflexivity).
  rewrite Hname, Hmap. unfold contains, value.
  destruct (find (String c n) (m_portBaudMap l)) as [b |].
  - split; [now rewrite setBaudRate_portName |].
    intros baud [= <-]. apply setBaudRate_baud.
  - split; [assumption | discriminate].
Qed.

(** X1: a call of [setBaudRate] with a rate other than the current one
    makes it the current rate and the rate remembered for the current port,
    leaves what is remembered for the other ports as it is, and keeps the
    map ordered. *)
Theorem setBaudRate_remembers (rate : Z) (l : SerialLink.t) :
  rate <> m_baud l ->
  let l' := snd (setBaudRate rate l) in
  m_baud l' = rate
  /\ m_portName l' = m_portName l
  /\ find (m_portName l) (m_portBaudMap l') = Some rate
  /\ (forall k, k <> m_portName l ->
                find k (m_portBaudMap l') = find k (m_portBaudMap l))
  /\ (ordered (m_portBaudMap l) -> ordered (m_portBaudMap l')).
Proof.
  intros Hne l'. subst l'.
  rewrite setBaudRate_baud, setBaudRate_portName, setBaudRate_map.
  apply Z.eqb_neq in Hne. rewrite Hne.
  repeat split.
  - apply find_insert.
  - intros k Hk. now apply find_insert_other.
  - apply insert_ordered.
Qed.

Lemma setBaudRate_remembers_witness :
  let l := with_map "COM1" 57600 [("COM1", 57600); ("ttyUSB0", 115200)] in
  find "COM1" (m_portBaudMap (snd (setBaudRate 9600 l))) = Some 9600
  /\ find "ttyUSB0" (m_portBaudMap (snd (setBaudRate 9600 l))) = Some 115200.
Proof.
  intros l.
  destruct (setBaudRate_remembers 9600 l) as (_ & _ & Hk & Hother & _);
    [discriminate |].
  split; [exact Hk |].
  rewrite Hother; [reflexivity | discriminate].
Defined.

(** X2: when the device refuses the rate, [setBaudRate] returns [false] but
    has already stored the rate as the current one and in the map, so that
    the link and the port disagree from then on. *)
Theorem setBaudRate_refused_is_stored (rate : Z) (p : QSerialPort) (l : SerialLink.t) :
  m_port l = Some p ->
  baud_ok p rate = false ->
  rate <> m_baud l ->
  let r := setBaudRate rate l in
  fst r = false
  /\ m_baud (snd r) = rate
  /\ find (m_portName l) (m_portBaudMap (snd r)) = Some rate
  /\ getBaudRateType (snd r) = baudRate p.
Proof.
  intros Hp Hok Hne r. subst r.
  split; [| split; [apply setBaudRate_baud | split]].
  - unfold setBaudRate. apply Z.eqb_neq in Hne. rewrite Hne. cbn.
    rewrite Hp. unfold port_setBaudRate. rewrite Hok. reflexivity.
  - now apply setBaudRate_find.
  - unfold setBaudRate, getBaudRateType. apply Z.eqb_neq in Hne. rewrite Hne. cbn.
    rewrite Hp. unfold port_setBaudRate. rewrite Hok. reflexivity.
Qed.

Lemma setPortName_map_other (portName k : string) (l : SerialLink.t) :
  k <> trimmed portName ->
  find k (m_portBaudMap (snd (setPortName portName l))) = find k (m_portBaudMap l).
Proof.
  intros Hk. unfold setPortName.
  destruct (negb _ && _); [| reflexivity]. cbn [snd].
  set (l1 := emit updateLink _).
  assert (Hname : m_portName l1 = trimmed portName)
    by (subst l1; cbn; destruct (m_port l); reflexivity).
  assert (Hmap : m_portBaudMap l1 = m_portBaudMap l)
    by (subst l1; cbn; destruct (m_port l); reflexivity).
  destruct (contains _ _); [| now rewrite Hmap].
  rewrite setBaudRate_map, Hname, Hmap.
  destruct (_ =? _); [reflexivity |]. now apply find_insert_other.
Qed.

(** X3: a rate that [setBaudRate] accepts as a change (a rate other than
    the current one) on port [a] comes back when the link is moved to
    another port and then back: after that [setBaudRate], [setPortName b]
    and [setPortName a], the current rate is again the one that was set. *)
Theorem switching_back_restores_baud (a b : string) (rate : Z) (l : SerialLink.t) :
  m_portName l = a ->
  trimmed a = a ->
  a <> EmptyString ->
  rate <> m_baud l ->
  b <> a ->
  trimmed b <> EmptyString ->
  trimmed b <> a ->
  let l1 := snd (setBaudRate rate l) in
  let l2 := snd (setPortName b l1) in
  let l3 := snd (setPortName a l2) in
  m_portName l2 = trimmed b /\ m_portName l3 = a /\ m_baud l3 = rate.
Proof.
  intros Ha Hta Hane Hrate Hb Htb Hba l1 l2 l3.
  pose proof (setBaudRate_portName rate l) as Hn1.
  pose proof (setBaudRate_find rate l Hrate) as Hf1.
  fold l1 in Hn1, Hf1. rewrite Ha in *.
  destruct (setPortName_switch b l1) as [Hn2 _]; [congruence | assumption |].
  fold l2 in Hn2.
  assert (Hf2 : find a (m_portBaudMap l2) = Some rate).
  { subst l2. rewrite setPortName_map_other by congruence. exact Hf1. }
  destruct (setPortName_switch a l2) as [Hn3 Hb3]; [congruence | congruence |].
  fold l3 in Hn3, Hb3.
  rewrite Hta in *. repeat split; [assumption | assumption |].
  apply Hb3. exact Hf2.
Qed.

Lemma switching_back_restores_baud_witness :
  let l := with_map "COM1" 57600 [("ttyUSB0", 115200)] in
  let l3 := snd (setPortName "COM1" (snd (setPortName "ttyUSB0" (snd (setBaudRate 9600 l))))) in
  m_portName l3 = "COM1" /\ m_baud l3 = 9600.
Proof.
  intros l.
  destruct (switching_back_restores_baud "COM1" "ttyUSB0" 9600 l) as (_ & H1 & H2);
    try reflexivity; try discriminate.
  split; assumption.
Defined.

Lemma setBaudRate_emitted (rate : Z) (l : SerialLink.t) :
  (List.length (emitted l) <= List.length (emitted (snd (setBaudRate rate l))))%nat.
Proof.
  unfold setBaudRate. destruct (rate =? m_baud l); cbn; [lia |].
  destruct (m_port l) as [p |]; cbn.
  - unfold port_setBaudRate. destruct (baud_ok p rate); cbn;
      rewrite length_app; simpl; lia.
  - rewrite length_app; simpl; lia.
Qed.

(** X4: [setPortName] leaves the link untouched exactly when the name is the
    stored one or is blank; in every other case it emits its signals, also
    when the name differs from the stored one by surrounding white space
    only. *)
Theorem setPortName_no_change_iff (portName : string) (l : SerialLink.t) :
  snd (setPortName portName l) = l
  <-> portName = m_portName l \/ trimmed portName = EmptyString.
Proof.
  unfold setPortName.
  destruct (String.eqb_spec portName (m_portName l)) as [-> | Hne]; cbn [negb andb].
  - split; [now left | reflexivity].
  - destruct (trimmed portName) as [| c n] eqn:Ht; cbn [String.length Nat.ltb Nat.leb snd].
    + split; [now right | reflexivity].
    + split; [| intros [? | ?]; congruence].
      intros Heq. exfalso.
      apply (f_equal (fun x => List.length (emitted x))) in Heq.
      set (l1 := emit updateLink _) in Heq.
      assert (H1 : List.length (emitted l1) = (List.length (emitted l) + 2)%nat).
      { subst l1. cbn. destruct (m_port l); cbn; rewrite !length_app; simpl; lia. }
      destruct (contains _ _).
      * pose proof (setBaudRate_emitted (value (m_portName l1) (m_portBaudMap l1)) l1). lia.
      * lia.
Qed.

End SerialLinkBaudMemory.

Section SerialLinkBaudMemoryExamples.
Import Qt SerialLink StringSpec QtFacts QMapFacts QMapLookup SerialLinkSpec SerialLinkSpecMore.

Lemma setBaudRate_refused_is_stored_witness :
  fst (setBaudRate 230400 open_link) = false
  /\ m_baud (snd (setBaudRate 230400 open_link)) = 230400
  /\ getBaudRateType (snd (setBaudRate 230400 open_link)) = 57600.
Proof.
  destruct (setBaudRate_refused_is_stored 230400 port_up_to_115200 open_link)
    as (H1 & H2 & _ & H4); [reflexivity | reflexivity | discriminate |].
  split; [exact H1 | split; [exact H2 | exact H4]].
Defined.

Lemma setPortName_no_change_iff_witness :
  snd (setPortName "   " open_link) = open_link
  /\ snd (setPortName " COM1" open_link) <> open_link.
Proof.
  split.
  - apply (setPortName_no_change_iff "   " open_link). right. reflexivity.
  - intros H. apply (setPortName_no_change_iff " COM1" open_link) in H.
    destruct H as [H | H]; discriminate H.
Defined.

End SerialLinkBaudMemoryExamples.

(** ** SerialLink: what [loadSettings] makes of the persisted map *)

Section SerialLinkLoad.
Import Qt SerialLink StringSpec QtFacts QMapFacts QMapLookup SerialLinkSpec SerialLinkSpecMore.

(** X5: in the persisted map an entry without ':' and an entry with two
    ':' are skipped, and an entry [port:text] stores for [port] whatever
    [toInt] makes of [text] (0 when it is not a number). *)
Theorem load_portbaud_malformed (m : QMap) (a b c : string) :
  has_char ":" a = false -> has_char ":" b = false -> has_char ":" c = false ->
  load_portbaud m a = m
  /\ load_portbaud m (a ++ ":" ++ b ++ ":" ++ c) = m
  /\ load_portbaud m (a ++ ":" ++ b) = insert a (toInt b) m.
Proof.
  intros Ha Hb Hc. unfold load_portbaud, split. repeat split.
  - now rewrite split_from_no_sep.
  - simpl append. rewrite split_from_sep by assumption.
    rewrite split_from_sep by assumption.
    now rewrite split_from_no_sep.
  - simpl append. rewrite split_from_sep by assumption.
    now rewrite split_from_no_sep.
Qed.

Lemma load_portbaud_malformed_witness :
  load_portbaud [("COM1", 57600)] "COM2" = [("COM1", 57600)]
  /\ load_portbaud [("COM1", 57600)] "COM2:9600:8" = [("COM1", 57600)]
  /\ load_portbaud [("COM1", 57600)] "COM2:fast" = [("COM1", 57600); ("COM2", 0)].
Proof.
  apply (load_portbaud_malformed [("COM1", 57600)] "COM2" "fast" "8"); reflexivity.
Defined.

Lemma find_fold_insert_absent (k : string) (es m : QMap) :
  Forall (fun e => fst e <> k) es ->
  find k (fold_left (fun m e => insert (fst e) (snd e) m) es m) = find k m.
Proof.
  revert m. induction es as [| e es IH]; intros m H; simpl; [reflexivity |].
  inversion H; subst. rewrite IH by assumption.
  apply find_insert_other. congruence.
Qed.

Lemma fold_left_app_insert (es1 es2 m : QMap) :
  fold_left (fun m e => insert (fst e) (snd e) m) (es1 ++ es2) m
  = fold_left (fun m e => insert (fst e) (snd e) m) es2
      (fold_left (fun m e => insert (fst e) (snd e) m) es1 m).
Proof. apply fold_left_app. Qed.

(** X6: when a port occurs more than once in the persisted map, the entry
    that comes last is the one [loadSettings] keeps. *)
Theorem loadSettings_last_entry_wins
    (settings : QSettings) (l0 : SerialLink.t) (before after : QMap) (k : string) (v : Z) :
  settings_contains "SERIALLINK_COMM_PORT" settings = true ->
  settings "SERIALLINK_COMM_PORTMAP"
  = VString (String.concat "," (map entry (before ++ (k, v) :: after))) ->
  Forall (fun i => clean_name (fst i)) (before ++ (k, v) :: after) ->
  Forall (fun i => in_int (snd i) = true) (before ++ (k, v) :: after) ->
  Forall (fun i => fst i <> k) after ->
  find k (m_portBaudMap (loadSettings settings l0)) = Some v.
Proof.
  intros Hport Hmap Hclean Hint Hafter. unfold loadSettings. rewrite Hport, Hmap.
  cbn [variant_toString set_portName set_baud set_line set_portBaudMap
       m_portBaudMap m_portName m_baud].
  rewrite (split_concat ","%char).
  - rewrite load_entries by assumption.
    rewrite fold_left_app_insert. cbn [fold_left fst snd].
    set (m1 := insert k v _).
    assert (Hf : find k (fold_left (fun m e => insert (fst e) (snd e) m) after m1) = Some v).
    { rewrite find_fold_insert_absent by assumption. apply find_insert. }
    destruct (fold_left _ after m1) as [| e m2] eqn:E; [discriminate Hf |].
    cbn [List.length Nat.eqb m_portBaudMap set_portBaudMap]. exact Hf.
  - destruct before; discriminate.
  - apply Forall_map. eapply Forall_impl; [| exact Hclean].
    intros i Hi. now apply entry_no_comma.
Qed.

Lemma loadSettings_last_entry_wins_witness :
  find "COM2" (m_portBaudMap
                 (loadSettings (settings_with_portmap "COM2:9600,COM1:57600,COM2:115200") fresh))
  = Some 115200.
Proof.
  apply (loadSettings_last_entry_wins
           (settings_with_portmap "COM2:9600,COM1:57600,COM2:115200") fresh
           [("COM2", 9600); ("COM1", 57600)] [] "COM2" 115200).
  - reflexivity.
  - reflexivity.
  - repeat constructor.
  - repeat constructor.
  - constructor.
Defined.

(** X7: what [writeSettings] stores and [loadSettings] reads back for the
    line: the port name, the baud rate, the parity and the flow control
    come back as the accessors report them; the data bits and the stop bits
    come back as their counts, so that they are restored for 5 to 8 data
    bits and 1 or 2 stop bits and read back as -1 otherwise. *)
Theorem line_settings_roundtrip (l l0 : SerialLink.t) (settings : QSettings) :
  let l' := loadSettings (writeSettings l settings) l0 in
  (m_portName l' = m_portName l
   /\ m_baud l' = getBaudRateType l
   /\ m_parity l' = getParityType l
   /\ m_flowControl l' = getFlowType l
   /\ m_dataBits l' = getDataBits l
   /\ m_stopBits l' = getStopBits l)
  /\ (m_port l = None ->
      (5 <= m_dataBits l <= 8 -> m_dataBits l' = m_dataBits l)
      /\ (1 <= m_stopBits l <= 2 -> m_stopBits l' = m_stopBits l)
      /\ (~ 5 <= m_dataBits l <= 8 -> m_dataBits l' = -1)
      /\ (~ 1 <= m_stopBits l <= 2 -> m_stopBits l' = -1)).
Proof.
  intros l'.
  assert (H : m_portName l' = m_portName l
              /\ m_baud l' = getBaudRateType l
              /\ m_parity l' = getParityType l
              /\ m_flowControl l' = getFlowType l
              /\ m_dataBits l' = getDataBits l
              /\ m_stopBits l' = getStopBits l).
  { subst l'. unfold loadSettings, writeSettings.
    cbn [settings_contains setValue String.eqb Ascii.eqb Bool.eqb
         variant_toString variant_toInt set_portName set_baud set_line
         set_portBaudMap m_portBaudMap m_portName m_baud].
    destruct (List.length _ =? 0)%nat; repeat split. }
  split; [exact H |].
  destruct H as (_ & _ & _ & _ & Hd & Hs). rewrite Hd, Hs.
  unfold getDataBits, getStopBits, Data5, Data6, Data7, Data8, OneStop, TwoStop.
  intros ->.
  repeat split; intros Hr.
  - destruct (Z.eqb_spec (m_dataBits l) 5); [lia |].
    destruct (Z.eqb_spec (m_dataBits l) 6); [lia |].
    destruct (Z.eqb_spec (m_dataBits l) 7); [lia |].
    destruct (Z.eqb_spec (m_dataBits l) 8); lia.
  - destruct (Z.eqb_spec (m_stopBits l) 1); [lia |].
    destruct (Z.eqb_spec (m_stopBits l) 2); lia.
  - destruct (Z.eqb_spec (m_dataBits l) 5); [lia |].
    destruct (Z.eqb_spec (m_dataBits l) 6); [lia |].
    destruct (Z.eqb_spec (m_dataBits l) 7); [lia |].
    destruct (Z.eqb_spec (m_dataBits l) 8); lia.
  - destruct (Z.eqb_spec (m_stopBits l) 1); [lia |].
    destruct (Z.eqb_spec (m_stopBits l) 2); lia.
Qed.

Lemma line_settings_roundtrip_witness :
  let l := set_line 2 3 8 1 (with_map "COM1" 57600 []) in
  let l' := loadSettings (writeSettings l no_settings) fresh in
  m_dataBits l' = 8 /\ m_stopBits l' = -1 /\ m_parity l' = 2.
Proof.
  intros l l'.
  destruct (line_settings_roundtrip l fresh no_settings) as [(_ & _ & Hp & _) H].
  destruct H as (Hd & _ & _ & Hs); [reflexivity |].
  split; [| split].
  - apply Hd. cbn. lia.
  - apply Hs. cbn. lia.
  - exact Hp.
Defined.

End SerialLinkLoad.

(** ** SerialLink: the rate accessors *)

Section SerialLinkRates.
Import Qt SerialLink StringSpec SerialLinkSpec SerialLinkSpecMore.

(** X8: called for the first time a second or more after the connection
    started, a rate accessor returns the bits counted so far divided by the
    whole seconds elapsed. *)
Theorem rate_after_first_second (now : Z) (l : SerialLink.t) :
  m_statisticsMutex l = false ->
  1000 <= now - m_connectionStartTime l < 2 ^ 64 ->
  0 <= m_bitsSentTotal l < 2 ^ 63 ->
  0 <= m_bitsReceivedTotal l < 2 ^ 63 ->
  let seconds := (now - m_connectionStartTime l) / 1000 in
  fst (getTotalUpstream now l) = Rate (m_bitsSentTotal l / seconds)
  /\ fst (getTotalDownstream now l) = Rate (m_bitsReceivedTotal l / seconds).
Proof.
  intros Hm Ht Hs Hr seconds.
  assert (Hsec : elapsed_seconds now l = seconds).
  { unfold elapsed_seconds, quint64. now rewrite Z.mod_small by lia. }
  assert (Hpos : 1 <= seconds).
  { subst seconds. apply Z.div_le_lower_bound; lia. }
  assert (Hq : forall b, 0 <= b < 2 ^ 63 -> qint64 (b / seconds) = b / seconds).
  { intros b Hb. unfold qint64, quint64.
    assert (0 <= b / seconds <= b).
    { split; [apply Z.div_pos; lia |].
      apply Z.div_le_upper_bound; nia. }
    rewrite Z.mod_small by lia.
    destruct (Z.ltb_spec (b / seconds) (2 ^ 63)); lia. }
  unfold getTotalUpstream, getTotalDownstream. rewrite Hm.
  change (elapsed_seconds now (lock_statistics l)) with (elapsed_seconds now l).
  rewrite Hsec.
  destruct (Z.eqb_spec seconds 0); [lia |].
  cbn [fst lock_statistics m_bitsSentTotal m_bitsReceivedTotal].
  now rewrite !Hq.
Qed.

Lemma rate_after_first_second_witness :
  fst (getTotalUpstream 1010500 open_link) = Rate 8000
  /\ fst (getTotalDownstream 1010500 open_link) = Rate 16000.
Proof.
  apply (rate_after_first_second 1010500 open_link); cbn; try reflexivity; lia.
Defined.

(** X9: a rate accessor returns with the statistics mutex locked, so once
    either of them has been called, every call of either blocks. *)
Theorem rate_accessors_block_after_first_call (now now' : Z) (l : SerialLink.t) :
  let l1 := snd (getTotalUpstream now l) in
  let l2 := snd (getTotalDownstream now l) in
  fst (getTotalUpstream now' l1) = Blocked
  /\ fst (getTotalDownstream now' l1) = Blocked
  /\ fst (getTotalUpstream now' l2) = Blocked
  /\ fst (getTotalDownstream now' l2) = Blocked.
Proof.
  unfold getTotalUpstream, getTotalDownstream.
  destruct (m_statisticsMutex l) eqn:Hm; cbn [snd].
  - rewrite Hm. repeat split.
  - destruct (elapsed_seconds now (lock_statistics l) =? 0); cbn; repeat split.
Qed.

End SerialLinkRates.

(** ** SerialLink: the nominal data rate and the line setters *)

Section SerialLinkLineFacts.
Import Qt SerialLink StringSpec QtFacts SerialLinkSpec SerialLinkSpecMore.
Import SerialLinkLine SerialLinkLineSpec.

Lemma standard_rate_dec (b : Z) :
  {In b standard_rates} + {~ In b standard_rates}.
Proof. apply in_dec, Z.eq_dec. Qed.

Lemma nominal_switch (b : Z) (A : Type) (x1 x2 x3 x4 x5 x6 x7 x8 d : A) :
  (if b =? Baud1200 then x1 else if b =? Baud2400 then x2
   else if b =? Baud4800 then x3 else if b =? Baud9600 then x4
   else if b =? Baud19200 then x5 else if b =? Baud38400 then x6
   else if b =? Baud57600 then x7 else if b =? Baud115200 then x8 else d)
  = if b =? 1200 then x1 else if b =? 2400 then x2
    else if b =? 4800 then x3 else if b =? 9600 then x4
    else if b =? 19200 then x5 else if b =? 38400 then x6
    else if b =? 57600 then x7 else if b =? 115200 then x8 else d.
Proof. reflexivity. Qed.

(** X10: without a port [getNominalDataRate] returns the stored rate, and
    57600 when the stored rate is -1.  With a port that reports one of the
    eight rates it returns that rate; with a port that reports another
    non-zero rate it returns the stored rate (57600 for -1) instead and asks
    the port for it. *)
Theorem getNominalDataRate_cases (indeterminate : Z) (l : SerialLink.t) :
  (m_port l = None ->
   getNominalDataRate indeterminate l = (fallback_rate l, l))
  /\ (forall p, m_port l = Some p -> baudRate p <> 0 ->
        (In (baudRate p) standard_rates ->
         getNominalDataRate indeterminate l = (baudRate p, l))
        /\ (~ In (baudRate p) standard_rates ->
            getNominalDataRate indeterminate l
            = (fallback_rate l,
               set_port (Some (snd (port_setBaudRate (fallback_rate l) p))) l))).
Proof.
  unfold getNominalDataRate, fallback_rate. split.
  - intros ->. rewrite nominal_switch.
    repeat match goal with
           | |- context [Z.eqb ?a ?b] =>
               destruct (Z.eqb_spec a b); try lia; try congruence
           end; cbn; try reflexivity; try congruence.
  - intros p -> Hnz. apply Z.eqb_neq in Hnz. rewrite Hnz. cbn [negb].
    rewrite nominal_switch. unfold standard_rates. split.
    + intros Hin. simpl in Hin.
      repeat match goal with
             | |- context [Z.eqb (baudRate p) ?b] =>
                 destruct (Z.eqb_spec (baudRate p) b); try congruence
             end.
      intuition congruence.
    + intros Hin. simpl in Hin.
      repeat match goal with
             | |- context [Z.eqb (baudRate p) ?b] =>
                 destruct (Z.eqb_spec (baudRate p) b);
                 [exfalso; apply Hin; intuition congruence |]
             end.
      destruct (m_baud l =? -1); reflexivity.
Qed.

Lemma getNominalDataRate_cases_witness :
  fst (getNominalDataRate 0 fresh) = 57600
  /\ fst (getNominalDataRate 0 open_link) = 57600
  /\ fst (getNominalDataRate 0 (with_map "COM1" 250000 [])) = 250000.
Proof.
  split; [| split].
  - destruct (getNominalDataRate_cases 0 fresh) as [H _].
    rewrite H; reflexivity.
  - destruct (getNominalDataRate_cases 0 open_link) as [_ H].
    destruct (H port_up_to_115200) as [H1 _]; [reflexivity | discriminate |].
    rewrite H1; [reflexivity |]. simpl. tauto.
  - destruct (getNominalDataRate_cases 0 (with_map "COM1" 250000 [])) as [H _].
    rewrite H; reflexivity.
Defined.

Lemma toInt_ok_number (z : Z) : toInt_ok (number z) = in_int z.
Proof. unfold toInt_ok. now rewrite trimmed_number, parse_int_number. Qed.

(** X11: [setBaudRateString] on the decimal text of an [int] does what
    [setBaudRate] does on that [int]; on the text of a number that does not
    fit an [int], and on text that is not a number, it returns [false] and
    leaves the link as it is. *)
Theorem setBaudRateString_cases (l : SerialLink.t) :
  (forall z, in_int z = true -> setBaudRateString (number z) l = setBaudRate z l)
  /\ (forall z, in_int z = false -> setBaudRateString (number z) l = (false, l))
  /\ (forall text, parse_int (trimmed text) = None ->
                   setBaudRateString text l = (false, l)).
Proof.
  unfold setBaudRateString. repeat split.
  - intros z Hz. now rewrite toInt_ok_number, Hz, toInt_number.
  - intros z Hz. now rewrite toInt_ok_number, Hz.
  - intros text Hp. unfold toInt_ok. now rewrite Hp.
Qed.

Lemma setBaudRateString_cases_witness :
  m_baud (snd (setBaudRateString "9600" fresh)) = 9600
  /\ setBaudRateString "4294967296" fresh = (false, fresh)
  /\ setBaudRateString "fast" fresh = (false, fresh).
Proof.
  destruct (setBaudRateString_cases fresh) as (H1 & H2 & H3).
  split; [| split].
  - change "9600" with (number 9600). rewrite H1 by reflexivity. reflexivity.
  - change "4294967296" with (number 4294967296). apply H2. reflexivity.
  - apply H3. reflexivity.
Defined.

Variable flow_ok parity_ok data_ok stop_ok : Z -> bool.

(** X12: [setParityType] with a value other than the stored one stores it
    in [m_parity] in every case.  Without a port it accepts every value.
    With a port it refuses every value other than 0, 1, 2 and 3 and leaves
    the port as it is, and it hands the value 1 to the port as odd parity
    (3). *)
Theorem setParityType_cases (par : Z) (l : SerialLink.t) :
  par <> m_parity l ->
  let r := setParityType parity_ok par l in
  m_parity (snd r) = par
  /\ (m_port l = None -> fst r = true)
  /\ (forall p, m_port l = Some p ->
        (~ In par [0; 1; 2; 3] -> fst r = false /\ m_port (snd r) = Some p)
        /\ (par = 1 -> parity_ok 3 = true ->
            fst r = true /\ getParityType (snd r) = 3)).
Proof.
  intros Hne r. subst r. unfold setParityType.
  apply Z.eqb_neq in Hne. rewrite Hne. cbn [negb].
  cbn [set_parity set_line m_port].
  destruct (m_port l) as [p |] eqn:Hp.
  - split; [| split; [discriminate |]].
    + unfold NoParity, EvenParity, OddParity, port_setParity.
      repeat match goal with
             | |- context [if ?c then _ else _] => destruct c
             end; reflexivity.
    + intros p' [= <-]. split.
      * intros Hin. simpl in Hin. unfold NoParity, EvenParity, OddParity.
        destruct (Z.eqb_spec par 0); [lia |].
        destruct (Z.eqb_spec par 1); [lia |].
        destruct (Z.eqb_spec par 2); [lia |].
        destruct (Z.eqb_spec par 3); [lia |].
        split; reflexivity.
      * intros -> Hok. cbn. unfold port_setParity, OddParity. rewrite Hok.
        split; reflexivity.
  - split; [reflexivity | split; [reflexivity | discriminate]].
Qed.

(** X13: [setFlowType], [setDataBits] and [setStopBits] with a value other
    than the stored one store it in the member whatever the port answers,
    and return the answer of the port when there is one; with the stored
    value they return [false] and change nothing.  [setDataBitsType] and
    [setStopBitsType] do what [setDataBits] and [setStopBits] do. *)
Theorem line_setters_store_first (v : Z) (l : SerialLink.t) :
  (v <> m_flowControl l ->
   m_flowControl (snd (setFlowType flow_ok v l)) = v
   /\ (m_port l <> None -> fst (setFlowType flow_ok v l) = flow_ok v))
  /\ (v <> m_dataBits l ->
      m_dataBits (snd (setDataBits data_ok v l)) = v
      /\ (m_port l <> None -> fst (setDataBits data_ok v l) = data_ok v))
  /\ (v <> m_stopBits l ->
      m_stopBits (snd (setStopBits stop_ok v l)) = v
      /\ (m_port l <> None -> fst (setStopBits stop_ok v l) = stop_ok v))
  /\ setFlowType flow_ok (m_flowControl l) l = (false, l)
  /\ setDataBits data_ok (m_dataBits l) l = (false, l)
  /\ setStopBits stop_ok (m_stopBits l) l = (false, l)
  /\ setDataBitsType data_ok v l = setDataBits data_ok v l
  /\ setStopBitsType stop_ok v l = setStopBits stop_ok v l.
Proof.
  unfold setFlowType, setDataBits, setStopBits, setDataBitsType, setStopBitsType.
  rewrite !Z.eqb_refl. cbn [negb].
  split; [| split; [| split; [| repeat split]]];
    intros Hne; apply Z.eqb_neq in Hne; rewrite Hne; cbn [negb];
    (split; [| intros Hp; revert Hp]); cbn;
    (destruct (m_port l) as [p |]; cbn; [| try reflexivity; congruence]);
    try intros _.
  - unfold port_setFlowControl. destruct (flow_ok v); reflexivity.
  - unfold port_setFlowControl. destruct (flow_ok v); reflexivity.
  - unfold port_setDataBits. destruct (data_ok v); reflexivity.
  - unfold port_setDataBits. destruct (data_ok v); reflexivity.
  - unfold port_setStopBits. destruct (stop_ok v); reflexivity.
  - unfold port_setStopBits. destruct (stop_ok v); reflexivity.
Qed.

End SerialLinkLineFacts.

Section SerialLinkLineExamples.
Import Qt SerialLink StringSpec QtFacts SerialLinkSpec SerialLinkSpecMore.
Import SerialLinkLine SerialLinkLineSpec.

Lemma setParityType_cases_witness :
  let r := setParityType any_value 5 open_link in
  let r1 := setParityType any_value 1 open_link in
  (m_parity (snd r) = 5 /\ fst r = false /\ getParityType (snd r) = 0)
  /\ (m_parity (snd r1) = 1 /\ fst r1 = true /\ getParityType (snd r1) = 3).
Proof.
  intros r r1. split.
  - destruct (setParityType_cases any_value 5 open_link) as (Hm & _ & Hp);
      [discriminate |].
    destruct (Hp port_up_to_115200) as [[Hf Hport] _]; [reflexivity | |].
    + simpl. lia.
    + fold r in Hm, Hf, Hport. split; [exact Hm | split; [exact Hf |]].
      unfold getParityType. rewrite Hport. reflexivity.
  - destruct (setParityType_cases any_value 1 open_link) as (Hm & _ & Hp);
      [discriminate |].
    destruct (Hp port_up_to_115200) as [_ [Hf Hpar]];
      [reflexivity | reflexivity | reflexivity |].
    split; [exact Hm | split; [exact Hf | exact Hpar]].
Defined.

Lemma line_setters_store_first_witness :
  m_stopBits (snd (setStopBits no_value 3 open_link)) = 3
  /\ fst (setStopBits no_value 3 open_link) = false
  /\ getStopBits (snd (setStopBits no_value 3 open_link)) = 1.
Proof.
  destruct (line_setters_store_first any_value any_value no_value 3 open_link)
    as (_ & _ & [Hm Hf] & _); [discriminate |].
  split; [exact Hm | split; [apply Hf; discriminate | reflexivity]].
Defined.

End SerialLinkLineExamples.

(** ** SerialLink: the transmit queue and the loop *)

Section SerialLinkQueue.
Import Qt SerialLink SerialLinkSpec SerialLinkSpecMore SerialLinkIO SerialLinkIOSpec.

Lemma dev_write_log (bytes : list Z) (d : device) :
  tx_log (snd (dev_write bytes d)) ++ remove0 (fst (dev_write bytes d)) bytes
  = tx_log d ++ bytes.
Proof.
  unfold dev_write, remove0.
  destruct (tx_script d) as [| n script].
  - destruct (Z.ltb_spec (Z.of_nat (List.length bytes)) 0); [lia |].
    cbn [fst snd tx_log]. rewrite Nat2Z.id, Nat.min_id.
    destruct (Z.leb_spec (Z.of_nat (List.length bytes)) 0).
    + destruct bytes; [| simpl in *; lia]. simpl. now rewrite !app_nil_r.
    + rewrite Nat2Z.id, firstn_all, skipn_all. now rewrite app_nil_r.
  - destruct (Z.ltb_spec n 0); cbn [fst snd tx_log]; [reflexivity |].
    set (k := Nat.min (Z.to_nat n) (List.length bytes)).
    destruct (Z.leb_spec (Z.of_nat k) 0).
    + replace k with 0%nat by lia. simpl. now rewrite app_nil_r.
    + rewrite Nat2Z.id, <- app_assoc. now rewrite firstn_skipn.
Qed.

Lemma transmit_conserves (s : t) :
  tx_log (dev (transmit s)) ++ m_transmitBuffer (transmit s)
  = tx_log (dev s) ++ m_transmitBuffer s.
Proof.
  unfold transmit. destruct (0 <? List.length (m_transmitBuffer s))%nat; [| reflexivity].
  pose proof (dev_write_log (m_transmitBuffer s) (dev s)) as H.
  destruct (dev_write (m_transmitBuffer s) (dev s)) as [n d]. exact H.
Qed.

Lemma receive_tx (s : t) :
  tx_log (dev (receive s)) = tx_log (dev s)
  /\ m_transmitBuffer (receive s) = m_transmitBuffer s
  /\ isConnected (receive s) = isConnected s
  /\ m_bitsSentTotal (link (receive s)) = m_bitsSentTotal (link s).
Proof.
  unfold receive, dev_waitForReadyRead, isConnected.
  destruct (rx_script (dev s)) as [| [bytes |] script]; cbn; try (repeat split; fail).
  destruct (read_more _ script) as [readData script'].
  destruct readData; cbn; repeat split.
Qed.

Lemma transmit_frame (s : t) :
  isConnected (transmit s) = isConnected s
  /\ m_bitsSentTotal (link (transmit s)) = m_bitsSentTotal (link s).
Proof.
  unfold transmit, isConnected.
  destruct (0 <? List.length (m_transmitBuffer s))%nat; [| tauto].
  destruct (dev_write (m_transmitBuffer s) (dev s)) as [n d] eqn:E.
  assert (Hd : dev_isOpen d = dev_isOpen (dev s)).
  { unfold dev_write in E. destruct (tx_script (dev s)) as [| k script];
      match type of E with context [if ?c then _ else _] => destruct c end;
      injection E as <- <-; reflexivity. }
  cbn. rewrite Hd. tauto.
Qed.

Lemma iteration_conserves (s : t) :
  let s' := snd (iteration s) in
  tx_log (dev s') ++ m_transmitBuffer s' = tx_log (dev s) ++ m_transmitBuffer s
  /\ isConnected s' = isConnected s
  /\ m_bitsSentTotal (link s') = m_bitsSentTotal (link s).
Proof.
  unfold iteration. destruct (m_stopp s); cbn [snd]; [cbn; tauto |].
  set (s1 := if m_reqReset s then _ else s).
  assert (H1 : tx_log (dev s1) = tx_log (dev s)
               /\ m_transmitBuffer s1 = m_transmitBuffer s
               /\ isConnected s1 = isConnected s
               /\ m_bitsSentTotal (link s1) = m_bitsSentTotal (link s))
    by (subst s1; destruct (m_reqReset s); cbn; tauto).
  destruct H1 as (Ha & Hb & Hc & Hd).
  destruct (receive_tx (transmit s1)) as (Ra & Rb & Rc & Rd).
  destruct (transmit_frame s1) as (Ta & Tb).
  rewrite Ra, Rb, Rc, Rd, transmit_conserves, Ta, Tb, Ha, Hb, Hc, Hd. tauto.
Qed.

Lemma quint64_add (a b : Z) : quint64 (quint64 a + b) = quint64 (a + b).
Proof. unfold quint64. now rewrite Zplus_mod_idemp_l. Qed.

Lemma transmit_stopp (s : t) : m_stopp (transmit s) = m_stopp s.
Proof.
  unfold transmit. destruct (0 <? List.length (m_transmitBuffer s))%nat; [| reflexivity].
  destruct (dev_write (m_transmitBuffer s) (dev s)) as [n d]. reflexivity.
Qed.

Lemma receive_stopp (s : t) : m_stopp (receive s) = m_stopp s.
Proof.
  unfold receive, dev_waitForReadyRead.
  destruct (rx_script (dev s)) as [| [bytes |] script]; cbn; try reflexivity.
  destruct (read_more _ script) as [readData script'].
  destruct readData; reflexivity.
Qed.

(** Without a stop request an iteration stays in the loop and sets no
    stop request. *)
Lemma iteration_again (s : t) :
  m_stopp s = false ->
  fst (iteration s) = Again /\ m_stopp (snd (iteration s)) = false.
Proof.
  intros Hs. unfold iteration. rewrite Hs. cbn [fst snd]. split; [reflexivity |].
  rewrite receive_stopp, transmit_stopp. destruct (m_reqReset s); cbn; exact Hs.
Qed.

(** X14: on a connected link without a stop request, whatever the order
    of [writeBytes] calls and loop iterations and whatever the device takes
    at each write, no action fails or asks the loop to stop, and the bytes
    taken by the device followed by the bytes still queued are the bytes
    handed to [writeBytes], in order: nothing is lost, repeated or
    reordered.  [m_bitsSentTotal] counts eight bits for each byte handed
    over, whether or not it has been transmitted. *)
Theorem transmit_queue_is_fifo (actions : list action) (s : t) :
  isConnected s = true ->
  m_stopp s = false ->
  exists s',
    perform actions s = Some s'
    /\ tx_log (dev s') ++ m_transmitBuffer s'
       = tx_log (dev s) ++ m_transmitBuffer s ++ sent actions
    /\ quint64 (m_bitsSentTotal (link s'))
       = quint64 (m_bitsSentTotal (link s) + 8 * Z.of_nat (List.length (sent actions)))
    /\ isConnected s' = true
    /\ m_stopp s' = false.
Proof.
  revert s. induction actions as [| a actions IH]; intros s Hc Hs; cbn -[quint64 Z.mul].
  - exists s. rewrite !app_nil_r, Z.add_0_r. tauto.
  - assert (Hstep : exists s1,
               act s a = Some s1
               /\ tx_log (dev s1) ++ m_transmitBuffer s1
                  = tx_log (dev s) ++ m_transmitBuffer s
                    ++ match a with Send data => data | Poll => [] end
               /\ quint64 (m_bitsSentTotal (link s1))
                  = quint64 (m_bitsSentTotal (link s)
                             + 8 * Z.of_nat (List.length
                                 match a with Send data => data | Poll => [] end))
               /\ isConnected s1 = true
               /\ m_stopp s1 = false).
    { destruct a as [data |]; cbn [act].
      - unfold writeBytes. unfold isConnected in Hc. rewrite Hc.
        eexists. split; [reflexivity |].
        cbn -[quint64 Z.mul]. unfold isConnected. cbn -[quint64 Z.mul]. rewrite Hc.
        split; [reflexivity | split; [| split; [reflexivity | exact Hs]]].
        unfold quint64. rewrite Z.mod_mod by lia. f_equal. lia.
      - destruct (isRunning s).
        + destruct (iteration_again s Hs) as (Ha & Hb).
          destruct (iteration_conserves s) as (H1 & H2 & H3).
          destruct (iteration s) as [step s1]. cbn [fst snd] in *. subst step.
          exists s1. split; [reflexivity |].
          rewrite H1, H2, H3, app_nil_r, Z.add_0_r. tauto.
        + exists s. split; [reflexivity |]. rewrite app_nil_r, Z.add_0_r. tauto. }
    destruct Hstep as (s1 & Hact & H1 & H2 & H3 & H4).
    destruct (IH s1 H3 H4) as (s' & Hp & I1 & I2 & I3 & I4).
    exists s'. rewrite Hact. split; [exact Hp |].
    rewrite I1, I2.
    split; [| split; [| split; assumption]].
    + rewrite app_assoc, H1. now rewrite <- !app_assoc.
    + rewrite length_app, Nat2Z.inj_add.
      unfold quint64 in *.
      rewrite <- (Zplus_mod_idemp_l (m_bitsSentTotal (link s1))), H2.
      rewrite Zplus_mod_idemp_l. unfold sent. f_equal. ring.
Qed.

Lemma transmit_queue_is_fifo_witness :
  exists s',
    perform [Send [1; 2; 3]; Send [4; 5]; Poll; Send [6]; Poll] (connected_io [] [2; -1])
    = Some s'
    /\ tx_log (dev s') ++ m_transmitBuffer s' = [1; 2; 3; 4; 5; 6].
Proof.
  destruct (transmit_queue_is_fifo [Send [1; 2; 3]; Send [4; 5]; Poll; Send [6]; Poll]
              (connected_io [] [2; -1])) as (s' & Hp & H & _); [reflexivity | reflexivity |].
  exists s'. split; [exact Hp | exact H].
Defined.

(** X15: [writeBytes] on a link that is not connected.  When the thread
    runs while [m_port] is null, [disconnect] dereferences the null
    pointer and [writeBytes] does not come back.  In every other case it
    queues nothing and counts nothing, it signals the error, and through
    [disconnect] it requests the loop to stop when the thread is
    running. *)
Theorem writeBytes_not_connected (data : list Z) (s : t) :
  isConnected s = false ->
  (isRunning s = true -> m_port (link s) = None -> writeBytes data s = None)
  /\ (isRunning s = false \/ m_port (link s) <> None ->
      exists s',
        writeBytes data s = Some s'
        /\ m_transmitBuffer s' = m_transmitBuffer s
        /\ m_bitsSentTotal (link s') = m_bitsSentTotal (link s)
        /\ tx_log (dev s') = tx_log (dev s)
        /\ last (signals s') disconnected
           = communicationError (getName s)
               ("Could not send data - link " ++ getName s ++ " is disconnected!")
        /\ m_stopp s' = (m_stopp s || isRunning s)).
Proof.
  intros Hc. unfold writeBytes. unfold isConnected in Hc. rewrite Hc.
  unfold disconnect. split.
  - intros -> ->. reflexivity.
  - intros Hok. destruct (isRunning s) eqn:Hr.
    + destruct (m_port (link s)) as [p |] eqn:Hp; [| destruct Hok; congruence].
      eexists. split; [reflexivity |]. cbn.
      rewrite last_last, orb_true_r. repeat split.
    + eexists. split; [reflexivity |]. cbn.
      rewrite last_last, orb_false_r. repeat split.
Qed.

Lemma writeBytes_not_connected_witness :
  writeBytes [1; 2; 3] starting_io = None
  /\ exists s', writeBytes [1; 2; 3] idle_io = Some s'
                /\ m_transmitBuffer s' = []
                /\ m_bitsSentTotal (link s') = 0.
Proof.
  destruct (writeBytes_not_connected [1; 2; 3] starting_io) as (Hnull & _);
    [reflexivity |].
  destruct (writeBytes_not_connected [1; 2; 3] idle_io) as (_ & Hidle);
    [reflexivity |].
  split; [apply Hnull; reflexivity |].
  destruct Hidle as (s' & H0 & H1 & H2 & _); [now left |].
  exists s'. split; [exact H0 | split; [exact H1 | exact H2]].
Defined.

End SerialLinkQueue.

Section SerialLinkLoop.
Import Qt SerialLink SerialLinkSpec SerialLinkSpecMore SerialLinkIO SerialLinkIOSpec.

Lemma read_more_spec (readData : list Z) (script : list (option (list Z))) :
  fst (read_more readData script) = readData ++ arriving_now script.
Proof.
  revert readData. induction script as [| [bytes |] script IH]; intros readData; simpl.
  - now rewrite app_nil_r.
  - now rewrite IH, app_assoc.
  - now rewrite app_nil_r.
Qed.

(** X16: when bytes arrive at the first wait of the receiving part, the
    bytes left in the port and all the bytes that arrive until a wait
    expires are delivered in one [bytesReceived] signal, and [m_bytesRead]
    and [m_bitsReceivedTotal] grow by their number and by eight times their
    number; when the first wait expires nothing is read, signalled or
    counted. *)
Theorem receive_delivers_burst (s : t) :
  (forall bytes script,
      rx_script (dev s) = Some bytes :: script ->
      let readData := rx_buffer (dev s) ++ bytes ++ arriving_now script in
      readData <> [] ->
      let s' := receive s in
      signals s' = signals s ++ [bytesReceived readData]
      /\ m_bytesRead s' = quint64 (m_bytesRead s + Z.of_nat (List.length readData))
      /\ m_bitsReceivedTotal (link s')
         = quint64 (m_bitsReceivedTotal (link s) + Z.of_nat (List.length readData) * 8)
      /\ rx_buffer (dev s') = [])
  /\ (hd None (rx_script (dev s)) = None ->
      let s' := receive s in
      signals s' = signals s
      /\ m_bytesRead s' = m_bytesRead s
      /\ link s' = link s
      /\ rx_buffer (dev s') = rx_buffer (dev s)).
Proof.
  split.
  - intros bytes script Hs readData Hne s'. subst s'.
    unfold receive, dev_waitForReadyRead. rewrite Hs.
    cbn [with_dev dev dev_readAll rx_buffer rx_script].
    pose proof (read_more_spec (rx_buffer (dev s) ++ bytes) script) as Hr.
    destruct (read_more (rx_buffer (dev s) ++ bytes) script) as [data script'].
    cbn [fst] in Hr. rewrite <- app_assoc in Hr. fold readData in Hr. subst data.
    destruct readData as [| b readData]; [congruence |].
    cbn -[quint64 Z.mul Z.of_nat]. repeat split.
  - intros Hh s'. subst s'. unfold receive, dev_waitForReadyRead.
    destruct (rx_script (dev s)) as [| [bytes |] script]; [| discriminate |];
      cbn; repeat split.
Qed.

Lemma receive_delivers_burst_witness :
  let s := connected_io [Some [1; 2]; Some [3]; None; Some [4]] [] in
  signals (receive s) = [bytesReceived [1; 2; 3]]
  /\ m_bytesRead (receive s) = 3.
Proof.
  intros s.
  destruct (receive_delivers_burst s) as [H _].
  destruct (H [1; 2] [Some [3]; None; Some [4]]) as (H1 & H2 & _);
    [reflexivity | discriminate |].
  split; [exact H1 | exact H2].
Defined.



(** X18: a reset request is served once: the next iteration that is not a
    stop raises and lowers the control line, clears the request, and the
    iteration after it leaves the line alone. *)
Theorem reset_request_is_one_shot (s : t) :
  m_stopp s = false ->
  let s1 := snd (iteration (requestReset s)) in
  let s2 := snd (iteration s1) in
  dtr_log (dev s1) = dtr_log (dev s) ++ [true; false]
  /\ m_reqReset s1 = false
  /\ (m_stopp s1 = false /\ dtr_log (dev s2) = dtr_log (dev s1)).
Proof.
  intros Hs s1 s2.
  assert (Htx : forall x, dtr_log (dev (transmit x)) = dtr_log (dev x)
                          /\ m_reqReset (transmit x) = m_reqReset x
                          /\ m_stopp (transmit x) = m_stopp x).
  { intros x. unfold transmit.
    destruct (0 <? List.length (m_transmitBuffer x))%nat; [| tauto].
    unfold dev_write. destruct (tx_script (dev x)) as [| n script];
      match goal with |- context [if ?c then _ else _] => destruct c end;
      cbn; repeat split. }
  assert (Hrx : forall x, dtr_log (dev (receive x)) = dtr_log (dev x)
                          /\ m_reqReset (receive x) = m_reqReset x
                          /\ m_stopp (receive x) = m_stopp x).
  { intros x. unfold receive, dev_waitForReadyRead.
    destruct (rx_script (dev x)) as [| [bytes |] script]; cbn;
      try (repeat split; fail).
    destruct (read_more _ script) as [readData script'].
    destruct readData; cbn; repeat split. }
  assert (H1 : dtr_log (dev s1) = dtr_log (dev s) ++ [true; false]
               /\ m_reqReset s1 = false /\ m_stopp s1 = false).
  { subst s1. unfold iteration, requestReset. cbn [with_reqReset m_stopp m_reqReset].
    rewrite Hs. cbn [snd].
    match goal with
    | |- context [receive ?x] => destruct (Hrx x) as (A & B & C); rewrite A, B, C
    end.
    match goal with
    | |- context [transmit ?x] => destruct (Htx x) as (A' & B' & C'); rewrite A', B', C'
    end.
    cbn. rewrite <- app_assoc. repeat split. exact Hs. }
  destruct H1 as (Ha & Hb & Hc). repeat split; try assumption.
  subst s2. unfold iteration. rewrite Hc, Hb. cbn [snd].
  destruct (Hrx (transmit s1)) as (A & _). destruct (Htx s1) as (A' & _).
  now rewrite A, A'.
Qed.

Lemma reset_request_is_one_shot_witness :
  let s := connected_io [] [] in
  dtr_log (dev (snd (iteration (requestReset s)))) = [true; false]
  /\ dtr_log (dev (snd (iteration (snd (iteration (requestReset s)))))) = [true; false].
Proof.
  intros s.
  destruct (reset_request_is_one_shot s) as (H1 & _ & _ & H2); [reflexivity |].
  split; [exact H1 |]. rewrite H2. exact H1.
Defined.

(** X19: [readBytes] on a connected link with bytes waiting delivers at most
    2048 of them, the first ones, in a [bytesReceived] signal, leaves the
    others in the port, and adds eight bits for each delivered byte to
    [m_bitsReceivedTotal]; [m_bytesRead] is not touched. *)
Theorem readBytes_delivers_at_most_2048 (s : t) :
  isConnected s = true ->
  rx_buffer (dev s) <> [] ->
  let s' := readBytes s in
  let n := Nat.min 2048 (List.length (rx_buffer (dev s))) in
  signals s' = signals s ++ [bytesReceived (firstn n (rx_buffer (dev s)))]
  /\ rx_buffer (dev s') = skipn n (rx_buffer (dev s))
  /\ m_bitsReceivedTotal (link s')
     = quint64 (m_bitsReceivedTotal (link s) + Z.of_nat n * 8)
  /\ m_bytesRead s' = m_bytesRead s.
Proof.
  intros Hc Hne s' n. subst s'. unfold readBytes. unfold isConnected in Hc. rewrite Hc.
  assert (Hlen : (0 < List.length (rx_buffer (dev s)))%nat)
    by (destruct (rx_buffer (dev s)); [congruence | simpl; lia]).
  destruct (Z.ltb_spec 0 (Z.of_nat (List.length (rx_buffer (dev s))))); [| lia].
  assert (Hn : (if 2048 <? Z.of_nat (List.length (rx_buffer (dev s)))
                then 2048 else Z.of_nat (List.length (rx_buffer (dev s))))
               = Z.of_nat n).
  { subst n. destruct (Z.ltb_spec 2048 (Z.of_nat (List.length (rx_buffer (dev s))))); lia. }
  rewrite Hn. unfold dev_read. rewrite Nat2Z.id.
  cbn -[quint64 Z.mul Z.of_nat firstn skipn]. repeat split.
Qed.

Lemma readBytes_delivers_at_most_2048_witness :
  let s := with_dev {| dev_isOpen := true; rx_buffer := repeat 7 3000; rx_script := [];
                       tx_script := []; tx_log := []; dtr_log := [] |}
             (connected_io [] []) in
  List.length (rx_buffer (dev (readBytes s))) = 952%nat.
Proof.
  intros s.
  destruct (readBytes_delivers_at_most_2048 s) as (_ & H & _);
    [reflexivity | discriminate |].
  rewrite H. reflexivity.
Defined.

End SerialLinkLoop.

(** ** PX4FirmwareUploader: what the reads keep and what [reqInfo] decodes *)

Section UploaderStream.
Import Qt PX4FirmwareUploader UploaderSpec UploaderSpecMore.

Lemma wait_for_bytes_conserves (num : nat) (script : list port_event) (serialBuffer : list Z) :
  let '(_, buf, serialBuffer', script') := wait_for_bytes num serialBuffer script in
  buf ++ serialBuffer' ++ all_data script' = serialBuffer ++ all_data script.
Proof.
  revert serialBuffer. induction script as [| [bytes |] script IH]; intros sb; simpl.
  - reflexivity.
  - destruct (num <=? List.length (sb ++ bytes))%nat.
    + rewrite app_assoc, firstn_skipn, <- app_assoc. reflexivity.
    + specialize (IH (sb ++ bytes)).
      destruct (wait_for_bytes num (sb ++ bytes) script) as [[[c b] sb'] sc'].
      rewrite IH, <- app_assoc. reflexivity.
  - reflexivity.
Qed.

(** X20: [readBytes] neither drops nor reorders a byte: what it returns,
    followed by what is pending afterwards, is what was pending before;
    and it returns either exactly [num] bytes or none. *)
Theorem readBytes_conserves_stream (num : nat) (timeout : Z) (s : t) :
  exists count buf s',
    readBytes num timeout s = (Ok (count, buf), s')
    /\ buf ++ pending s' = pending s
    /\ (count = Z.of_nat num /\ List.length buf = num \/ count = -1 /\ buf = [])
    /\ written (m_port s') = written (m_port s).
Proof.
  unfold readBytes, pending.
  destruct (Nat.leb_spec num (List.length (m_serialBuffer s))) as [Hge | Hlt].
  - do 3 eexists. split; [reflexivity |]. cbn. repeat split.
    + now rewrite app_assoc, firstn_skipn.
    + left. split; [reflexivity |]. rewrite length_firstn. lia.
  - destruct (timeout <=? 0).
    { do 3 eexists. split; [reflexivity |]. repeat split. now right. }
    pose proof (wait_for_bytes_conserves num (incoming (m_port s)) (m_serialBuffer s)) as Hc.
    pose proof (wait_for_bytes_spec num (incoming (m_port s)) (m_serialBuffer s) Hlt) as Hs.
    destruct (wait_for_bytes num (m_serialBuffer s) (incoming (m_port s)))
      as [[[count buf] sb] script].
    do 3 eexists. split; [reflexivity |]. cbn. repeat split.
    + exact Hc.
    + cbv zeta in Hs.
      destruct (Nat.leb_spec num
                  (List.length (m_serialBuffer s ++ arriving (incoming (m_port s)))))
        as [Hn | Hn]; destruct Hs as [-> ->].
      * left. split; [reflexivity |]. rewrite length_firstn. lia.
      * right. split; reflexivity.
Qed.

Lemma skipn_app_le {A : Type} (n : nat) (l l' : list A) :
  (n <= List.length l)%nat -> skipn n (l ++ l') = skipn n l ++ l'.
Proof.
  intros H. rewrite skipn_app.
  replace (n - List.length l)%nat with 0%nat by lia. reflexivity.
Qed.

(** What is obtained within the timeout after a read that succeeded. *)
Lemma readBytes_rest (num : nat) (timeout : Z) (s : t) :
  0 < timeout ->
  (num <= List.length (received_before_timeout s))%nat ->
  received_before_timeout (snd (readBytes num timeout s))
  = skipn num (received_before_timeout s).
Proof.
  intros Ht. unfold readBytes, received_before_timeout.
  destruct (Nat.leb_spec num (List.length (m_serialBuffer s))) as [Hge | Hlt]; intros Hn.
  - cbn. now rewrite skipn_app_le.
  - destruct (Z.leb_spec timeout 0) as [Hc | _]; [lia |].
    generalize dependent (m_serialBuffer s). generalize (incoming (m_port s)).
    intros script. induction script as [| [bytes |] script IH]; intros sb Hlt Hn.
    + simpl in Hn. rewrite app_nil_r in Hn. lia.
    + simpl. destruct (Nat.leb_spec num (List.length (sb ++ bytes))) as [Hge | Hlt'].
      * cbn. rewrite app_assoc. now rewrite (skipn_app_le num (sb ++ bytes)).
      * specialize (IH (sb ++ bytes) Hlt').
        simpl in Hn. rewrite app_assoc in Hn. specialize (IH Hn).
        destruct (wait_for_bytes num (sb ++ bytes) script) as [[[c b] sb'] sc'].
        cbn in *. rewrite IH, <- app_assoc. reflexivity.
    + simpl in Hn. rewrite app_nil_r in Hn. lia.
Qed.

(** After a read that came up short, everything that had arrived sits in
    [m_serialBuffer]. *)
Lemma readBytes_short_buffer (num : nat) (timeout : Z) (s : t) :
  0 < timeout ->
  (List.length (received_before_timeout s) < num)%nat ->
  m_serialBuffer (snd (readBytes num timeout s)) = received_before_timeout s.
Proof.
  intros Ht. unfold readBytes, received_before_timeout. intros Hn.
  destruct (Nat.leb_spec num (List.length (m_serialBuffer s))) as [Hge | Hlt].
  - rewrite length_app in Hn. lia.
  - destruct (Z.leb_spec timeout 0) as [Hc | _]; [lia |].
    generalize dependent (m_serialBuffer s). generalize (incoming (m_port s)).
    intros script. induction script as [| [bytes |] script IH]; intros sb Hn Hlt.
    + simpl. now rewrite app_nil_r.
    + simpl. simpl in Hn. rewrite app_assoc in Hn.
      destruct (Nat.leb_spec num (List.length (sb ++ bytes))) as [Hge | Hlt'].
      * rewrite length_app in Hn. lia.
      * specialize (IH (sb ++ bytes) Hn Hlt').
        destruct (wait_for_bytes num (sb ++ bytes) script) as [[[c b] sb'] sc'].
        cbn in *. rewrite IH, <- app_assoc. reflexivity.
    + simpl. now rewrite app_nil_r.
Qed.

Lemma shiftl_byte (b : Z) (n : Z) : 0 <= n -> Z.shiftl b n = b * 2 ^ n.
Proof. intros. now apply Z.shiftl_mul_pow2. Qed.

(** X21: when the four bytes of the answer and the footer are obtained
    after the command, [reqInfo] returns [true] and the value of the four
    bytes read as a little-endian number, whatever the pieces in which
    they arrive. *)
Theorem reqInfo_decodes_little_endian
    (infobyte reply b0 b1 b2 b3 : Z) (rest : list Z) (s : t) :
  is_byte infobyte -> is_byte b0 -> is_byte b1 -> is_byte b2 -> is_byte b3 ->
  received_before_timeout (info_requested infobyte s)
  = [b0; b1; b2; b3; 0x12; 0x10] ++ rest ->
  let r := reqInfo infobyte reply s in
  fst r = Ok (true, b0 + 256 * b1 + 65536 * b2 + 16777216 * b3)
  /\ written (m_port (snd r)) = written (m_port s) ++ [info_command infobyte].
Proof.
  unfold is_byte. intros Hi H0 H1 H2 H3 Hrecv. cbv zeta.
  unfold reqInfo, info_requested, info_command in *.
  replace (to_uchar infobyte) with infobyte by (unfold to_uchar; now rewrite Z.mod_small).
  set (s1 := snd (port_write [PROTO_GET_DEVICE; infobyte; PROTO_EOC] s)) in *.
  rewrite (bind_ok _ _ s s1 tt) by reflexivity.
  destruct (readBytes_step 4 5000 s1 eq_refl) as (sb & script & Hr).
  pose proof (readBytes_rest 4 5000 s1 eq_refl) as Hrest.
  rewrite Hrecv in Hr, Hrest. cbn [List.length app Nat.leb firstn] in Hr.
  specialize (Hrest ltac:(simpl; lia)). rewrite Hr in Hrest. cbn [snd skipn app] in Hrest.
  rewrite (bind_ok _ _ _ _ _ Hr).
  cbn [Z.of_nat Pos.of_succ_nat Pos.succ Z.eqb Pos.eqb negb nth].
  set (s2 := with_serialBuffer sb _) in *.
  destruct (get_sync_step 2000 s2) as (sb2 & script2 & Hg).
  assert (Hack : acknowledged 2000 s2 = true).
  { unfold acknowledged. rewrite get_sync_spec, Hrest by reflexivity. reflexivity. }
  rewrite Hack in Hg. rewrite (bind_ok _ _ _ _ _ Hg).
  cbn [Z.eqb negb ret fst snd]. split.
  - do 2 f_equal. unfold to_uchar, to_uint.
    rewrite (Z.mod_small b0 256), (Z.mod_small b1 256),
      (Z.mod_small b2 256), (Z.mod_small b3 256) by lia.
    rewrite !shiftl_byte by lia.
    rewrite Z.mod_small by lia. lia.
  - subst s2 s1. reflexivity.
Qed.

Lemma reqInfo_decodes_little_endian_witness :
  let s := uploader [] [Data [0xFF; 0xFF]; Data [0xFF; 0xFF; 0x12]; Data [0x10]] in
  fst (reqInfo PROTO_DEVICE_FW_SIZE 0 s) = Ok (true, 4294967295).
Proof.
  intros s.
  destruct (reqInfo_decodes_little_endian PROTO_DEVICE_FW_SIZE 0 0xFF 0xFF 0xFF 0xFF [] s)
    as [H _]; unfold is_byte, PROTO_DEVICE_FW_SIZE; try lia; [reflexivity |].
  exact H.
Defined.

(** X22: when the device answers a query with the footer alone (and at most
    one byte more), the read of the four bytes fails, the footer is then
    found in [m_serialBuffer], and [reqInfo] returns [true] with [*reply]
    left as it was. *)
Theorem reqInfo_footer_only_keeps_reply (infobyte reply : Z) (tail : list Z) (s : t) :
  (List.length tail < 2)%nat ->
  received_before_timeout (info_requested infobyte s) = [0x12; 0x10] ++ tail ->
  fst (reqInfo infobyte reply s) = Ok (true, reply).
Proof.
  intros Ht Hrecv. unfold reqInfo, info_requested, info_command in *.
  assert (Hcmd : port_write [PROTO_GET_DEVICE; to_uchar infobyte; PROTO_EOC] s
                 = (Ok tt, snd (port_write [PROTO_GET_DEVICE; to_uchar infobyte; PROTO_EOC] s)))
    by reflexivity.
  rewrite (bind_ok _ _ _ _ _ Hcmd). clear Hcmd.
  assert (Hsame : received_before_timeout
                    (snd (port_write [PROTO_GET_DEVICE; to_uchar infobyte; PROTO_EOC] s))
                  = [0x12; 0x10] ++ tail) by exact Hrecv.
  set (s1 := snd (port_write [PROTO_GET_DEVICE; to_uchar infobyte; PROTO_EOC] s)) in *.
  destruct (readBytes_step 4 5000 s1 eq_refl) as (sb & script & Hr).
  pose proof (readBytes_short_buffer 4 5000 s1 eq_refl) as Hbuf.
  rewrite Hsame in Hr, Hbuf.
  assert (Hlen : (List.length ([0x12; 0x10]%Z ++ tail) < 4)%nat) by (simpl; lia).
  specialize (Hbuf Hlen). apply Nat.leb_gt in Hlen. rewrite Hlen in Hr.
  rewrite Hr in Hbuf. cbn [snd] in Hbuf.
  rewrite (bind_ok _ _ _ _ _ Hr).
  cbn [Z.eqb negb].
  set (s2 := with_serialBuffer sb _) in *.
  assert (Hsb : m_serialBuffer s2 = [0x12; 0x10] ++ tail) by exact Hbuf.
  destruct (get_sync_step 2000 s2) as (sb2 & script2 & Hg).
  assert (Hack : acknowledged 2000 s2 = true).
  { unfold acknowledged. rewrite get_sync_spec by reflexivity. unfold received_before_timeout.
    rewrite Hsb. reflexivity. }
  rewrite Hack in Hg. rewrite (bind_ok _ _ _ _ _ Hg). reflexivity.
Qed.

Lemma reqInfo_footer_only_keeps_reply_witness :
  fst (reqInfo PROTO_DEVICE_BL_REV 7 (uploader [] [Data [0x12; 0x10]])) = Ok (true, 7).
Proof.
  apply (reqInfo_footer_only_keeps_reply PROTO_DEVICE_BL_REV 7 []); [simpl; lia | reflexivity].
Defined.

End UploaderStream.

Section UploaderHeader.
Import Qt PX4FirmwareUploader UploaderSpec UploaderSpecMore.

(** X23: the size header holds the declared size as four bytes, most
    significant first: for a size that fits 32 bits they are bytes and
    their value read big-endian is the size. *)
Theorem size_header_big_endian (fwSize : Z) :
  0 <= fwSize < 2 ^ 32 ->
  exists b0 b1 b2 b3,
    size_header fwSize = [b0; b1; b2; b3]
    /\ is_byte b0 /\ is_byte b1 /\ is_byte b2 /\ is_byte b3
    /\ 16777216 * b0 + 65536 * b1 + 256 * b2 + b3 = fwSize.
Proof.
  intros H. unfold size_header, is_byte.
  do 4 eexists. split; [reflexivity |].
  change 0xFF with (Z.ones 8). rewrite !Z.land_ones by lia.
  rewrite !Z.shiftr_div_pow2 by lia.
  unfold to_uchar. change (2 ^ 8) with 256. change (2 ^ 0) with 1.
  rewrite !Z.mod_mod by lia. rewrite Z.div_1_r.
  change (2 ^ 24) with 16777216. change (2 ^ 16) with 65536.
  change (2 ^ 32) with 4294967296 in H.
  repeat split; try (apply Z.mod_pos_bound; lia).
  pose proof (Z.div_mod fwSize 16777216). pose proof (Z.div_mod fwSize 65536).
  pose proof (Z.div_mod fwSize 256).
  pose proof (Z.div_mod (fwSize / 16777216) 256).
  pose proof (Z.div_mod (fwSize / 65536) 256).
  pose proof (Z.div_mod (fwSize / 256) 256).
  assert (fwSize / 16777216 = fwSize / 65536 / 256)
    by (rewrite Z.div_div by lia; reflexivity).
  assert (fwSize / 65536 = fwSize / 256 / 256)
    by (rewrite Z.div_div by lia; reflexivity).
  assert (0 <= fwSize / 16777216 < 256).
  { split; [apply Z.div_pos; lia | apply Z.div_lt_upper_bound; lia]. }
  pose proof (Z.mod_small (fwSize / 16777216) 256).
  lia.
Qed.

Lemma size_header_big_endian_witness :
  size_header 0x01020304 = [1; 2; 3; 4].
Proof.
  destruct (size_header_big_endian 0x01020304) as (b0 & b1 & b2 & b3 & H & _); [lia |].
  rewrite H. injection H as <- <- <- <-. reflexivity.
Defined.

End UploaderHeader.

(** ** PX4FirmwareUploader: a device that answers in time *)

Section UploaderPrompt.
Import Qt PX4FirmwareUploader UploaderSpec UploaderSpecMore.

Lemma prompt_arriving (script : list port_event) :
  prompt script = true -> arriving script = all_data script.
Proof.
  induction script as [| [bytes |] script IH]; simpl; intros H;
    [reflexivity | now rewrite IH | discriminate].
Qed.

Lemma prompt_received (s : t) :
  prompt (incoming (m_port s)) = true -> received_before_timeout s = pending s.
Proof. intros H. unfold received_before_timeout, pending. now rewrite prompt_arriving. Qed.

Lemma wait_for_bytes_prompt (num : nat) (script : list port_event) (serialBuffer : list Z) :
  prompt script = true ->
  let '(_, _, _, script') := wait_for_bytes num serialBuffer script in
  prompt script' = true.
Proof.
  revert serialBuffer. induction script as [| [bytes |] script IH]; intros sb; simpl; intros H.
  - reflexivity.
  - destruct (num <=? List.length (sb ++ bytes))%nat; [exact H | now apply IH].
  - discriminate.
Qed.

Lemma port_state_port_state (sb1 sb2 : list Z) (sc1 sc2 : list port_event)
    (c1 c2 : list (list Z)) (s : t) :
  port_state sb2 sc2 c2 (port_state sb1 sc1 c1 s) = port_state sb2 sc2 c2 s.
Proof. reflexivity. Qed.

(** A read of [num] bytes from a device that answers in time, when at
    least [num] bytes are pending. *)
Lemma readBytes_prompt (num : nat) (timeout : Z) (s : t) :
  0 < timeout ->
  prompt (incoming (m_port s)) = true ->
  (num <= List.length (pending s))%nat ->
  exists serialBuffer script,
    readBytes num timeout s
    = (Ok (Z.of_nat num, firstn num (pending s)),
       port_state serialBuffer script (written (m_port s)) s)
    /\ serialBuffer ++ all_data script = skipn num (pending s)
    /\ prompt script = true.
Proof.
  intros Ht Hp Hn. unfold readBytes.
  destruct (Nat.leb_spec num (List.length (m_serialBuffer s))) as [Hge | Hlt].
  - exists (skipn num (m_serialBuffer s)), (incoming (m_port s)). unfold pending.
    rewrite firstn_app_le, skipn_app_le by exact Hge.
    repeat split; [| exact Hp]. destruct s as [? ? []]; reflexivity.
  - destruct (Z.leb_spec timeout 0) as [Hc0 | _]; [lia |].
    pose proof (wait_for_bytes_conserves num (incoming (m_port s)) (m_serialBuffer s)) as Hc.
    pose proof (wait_for_bytes_spec num (incoming (m_port s)) (m_serialBuffer s) Hlt) as Hs.
    pose proof (wait_for_bytes_prompt num (incoming (m_port s)) (m_serialBuffer s) Hp) as Hq.
    destruct (wait_for_bytes num (m_serialBuffer s) (incoming (m_port s)))
      as [[[count buf] sb] script].
    cbv zeta in Hs. rewrite (prompt_arriving _ Hp) in Hs. fold (pending s) in Hs, Hc.
    apply Nat.leb_le in Hn. rewrite Hn in Hs. destruct Hs as [-> ->].
    exists sb, script. repeat split; [| exact Hq].
    rewrite <- (firstn_skipn num (pending s)) in Hc at 2.
    now apply app_inv_head in Hc.
Qed.

(** The footer is pending on a device that answers in time: [get_sync]
    returns 0 and takes the two bytes. *)
Lemma get_sync_prompt (timeout : Z) (s : t) (rest : list Z) :
  0 < timeout ->
  prompt (incoming (m_port s)) = true ->
  pending s = footer ++ rest ->
  exists serialBuffer script,
    get_sync timeout s = (Ok 0, port_state serialBuffer script (written (m_port s)) s)
    /\ serialBuffer ++ all_data script = rest
    /\ prompt script = true.
Proof.
  intros Ht Hp Hpend. unfold get_sync.
  destruct (readBytes_prompt 2 timeout s Ht Hp) as (sb & sc & Hr & Hrest & Hq).
  { rewrite Hpend. simpl. lia. }
  rewrite Hpend in Hr, Hrest. rewrite (bind_ok _ _ _ _ _ Hr).
  exists sb, sc. repeat split; assumption.
Qed.

(** A word and its footer are pending: the four bytes are read, then the
    footer. *)
Lemma read_word_prompt (timeout timeout' : Z) (s : t) (a b c d : Z) (rest : list Z) :
  0 < timeout -> 0 < timeout' ->
  prompt (incoming (m_port s)) = true ->
  pending s = answer [a; b; c; d] ++ rest ->
  exists sb1 sc1 sb2 sc2,
    readBytes 4 timeout s
    = (Ok (4, [a; b; c; d]), port_state sb1 sc1 (written (m_port s)) s)
    /\ get_sync timeout' (port_state sb1 sc1 (written (m_port s)) s)
       = (Ok 0, port_state sb2 sc2 (written (m_port s)) s)
    /\ sb2 ++ all_data sc2 = rest
    /\ prompt sc2 = true.
Proof.
  intros Ht Ht' Hp Hpend.
  destruct (readBytes_prompt 4 timeout s Ht Hp) as (sb1 & sc1 & Hr & Hrest & Hq).
  { rewrite Hpend. simpl. lia. }
  rewrite Hpend in Hr, Hrest. cbn [answer app firstn skipn footer] in Hr, Hrest.
  exists sb1, sc1.
  destruct (get_sync_prompt timeout' (port_state sb1 sc1 (written (m_port s)) s) rest)
    as (sb2 & sc2 & Hg & Hrest2 & Hq2); [exact Ht' | exact Hq | exact Hrest |].
  exists sb2, sc2. repeat split; assumption.
Qed.

Lemma reply_bytes (b0 b1 b2 b3 : Z) :
  is_byte b0 -> is_byte b1 -> is_byte b2 -> is_byte b3 ->
  to_int (to_uint (to_uchar b0 + Z.shiftl (to_uchar b1) 8 + Z.shiftl (to_uchar b2) 16
                   + Z.shiftl (to_uchar b3) 24))
  = reply_value [b0; b1; b2; b3].
Proof.
  unfold is_byte, reply_value. intros H0 H1 H2 H3. cbn [fold_right]. f_equal.
  unfold to_uchar, to_uint.
  rewrite (Z.mod_small b0 256), (Z.mod_small b1 256),
    (Z.mod_small b2 256), (Z.mod_small b3 256) by lia.
  rewrite !Z.shiftl_mul_pow2 by lia.
  rewrite Z.mod_small by lia. lia.
Qed.

(** A query when its answer and the footer are pending. *)
Lemma reqInfo_prompt (infobyte reply : Z) (s : t) (b0 b1 b2 b3 : Z) (rest : list Z) :
  prompt (incoming (m_port s)) = true ->
  pending s = answer [b0; b1; b2; b3] ++ rest ->
  exists sb sc,
    reqInfo infobyte reply s
    = (Ok (true, to_uint (to_uchar b0 + Z.shiftl (to_uchar b1) 8
                          + Z.shiftl (to_uchar b2) 16 + Z.shiftl (to_uchar b3) 24)),
       port_state sb sc (written (m_port s) ++ [info_command (to_uchar infobyte)]) s)
    /\ sb ++ all_data sc = rest
    /\ prompt sc = true.
Proof.
  intros Hp Hpend. unfold reqInfo.
  set (s1 := snd (port_write [PROTO_GET_DEVICE; to_uchar infobyte; PROTO_EOC] s)).
  rewrite (bind_ok _ _ s s1 tt) by reflexivity.
  destruct (read_word_prompt 5000 2000 s1 b0 b1 b2 b3 rest eq_refl eq_refl Hp Hpend)
    as (sb1 & sc1 & sb2 & sc2 & Hr & Hg & Hrest & Hq).
  rewrite (bind_ok _ _ _ _ _ Hr). cbn [Z.eqb Pos.eqb negb nth].
  rewrite (bind_ok _ _ _ _ _ Hg). cbn [Z.eqb negb].
  exists sb2, sc2. repeat split; assumption.
Qed.

End UploaderPrompt.

(** ** PX4FirmwareUploader: the OTP and serial number reads that succeed *)

Section UploaderWords.
Import Qt PX4FirmwareUploader UploaderSpec UploaderSpecMore.

Lemma length_store (i : nat) (v : Z) (a : list Z) :
  List.length (store i v a) = List.length a.
Proof.
  revert i. induction a as [| x a IH]; intros [| i]; simpl; try reflexivity.
  now rewrite IH.
Qed.

Lemma store_word (n : nat) (a b c d : Z) (buf : list Z) :
  (n + 4 <= List.length buf)%nat ->
  firstn (n + 4)
    (store (n + 3) d (store (n + 2) c (store (n + 1) b (store n a buf))))
  = firstn n buf ++ [a; b; c; d].
Proof.
  revert buf. induction n as [| n IH]; intros buf H.
  - destruct buf as [| x0 [| x1 [| x2 [| x3 buf]]]]; simpl in H; try lia. reflexivity.
  - destruct buf as [| x buf]; simpl in H; [lia |].
    simpl. f_equal. apply IH. lia.
Qed.

Lemma otp_loop_S (fuel : nat) (i : Z) (otpbuf : list Z) (s : t) :
  i < 512 ->
  otp_loop (S fuel) i otpbuf s
  = bind (otp_chunk i otpbuf) (fun x => let '(i, otpbuf) := x in otp_loop fuel i otpbuf) s.
Proof. intros H. apply Z.ltb_lt in H. simpl. now rewrite H. Qed.

Lemma otp_loop_end (fuel : nat) (i : Z) (otpbuf : list Z) (s : t) :
  512 <= i -> otp_loop fuel i otpbuf s = (Ok otpbuf, s).
Proof. intros H. apply Z.ltb_ge in H. destruct fuel; simpl; now rewrite H. Qed.

Lemma port_state_same (s : t) :
  port_state (m_serialBuffer s) (incoming (m_port s)) (written (m_port s)) s = s.
Proof. destruct s as [? ? []]; reflexivity. Qed.

(** One pass of the OTP loop when the word and its footer are pending. *)
Lemma otp_chunk_prompt (i : Z) (otpbuf : list Z) (s : t) (a b c d : Z) (rest : list Z) :
  m_stop s = false ->
  prompt (incoming (m_port s)) = true ->
  pending s = answer [a; b; c; d] ++ rest ->
  exists sb sc,
    otp_chunk i otpbuf s
    = (Ok (i + 4,
           store (Z.to_nat (i + 3)) (to_uchar d)
             (store (Z.to_nat (i + 2)) (to_uchar c)
                (store (Z.to_nat (i + 1)) (to_uchar b)
                   (store (Z.to_nat i) (to_uchar a) otpbuf)))),
       port_state sb sc (written (m_port s) ++ [otp_command i]) s)
    /\ sb ++ all_data sc = rest
    /\ prompt sc = true.
Proof.
  intros Hstop Hp Hpend. unfold otp_chunk.
  set (s1 := snd (port_write (otp_command i) s)).
  rewrite (bind_ok _ _ s s1 tt) by reflexivity.
  destruct (read_word_prompt 2000 2000 s1 a b c d rest eq_refl eq_refl Hp Hpend)
    as (sb1 & sc1 & sb2 & sc2 & Hr & Hg & Hrest & Hq).
  rewrite (bind_ok _ _ _ _ _ Hr). cbn [Z.ltb Z.compare Pos.compare Pos.compare_cont nth].
  rewrite (bind_ok _ _ _ _ _ Hg). cbn [Z.eqb negb].
  exists sb2, sc2. split; [| split; assumption].
  unfold bind, get_stop.
  change (m_stop (port_state sb2 sc2 (written (m_port s1)) s1)) with (m_stop s).
  rewrite Hstop. reflexivity.
Qed.

Lemma otp_loop_prompt (ws : list (list Z)) :
  forall (j : nat) (otpbuf : list Z) (fuel : nat) (s : t) (rest : list Z),
  Forall (fun w => List.length w = 4%nat) ws ->
  (j + List.length ws = 128)%nat ->
  List.length otpbuf = 512%nat ->
  m_stop s = false ->
  prompt (incoming (m_port s)) = true ->
  pending s = List.concat (map answer ws) ++ rest ->
  (List.length ws <= fuel)%nat ->
  exists sb sc,
    otp_loop fuel (4 * Z.of_nat j) otpbuf s
    = (Ok (firstn (4 * j) otpbuf ++ map to_uchar (List.concat ws)),
       port_state sb sc
         (written (m_port s) ++ map otp_command (word_offsets j (List.length ws))) s)
    /\ sb ++ all_data sc = rest
    /\ prompt sc = true.
Proof.
  induction ws as [| w ws IH]; intros j otpbuf fuel s rest Hws Hj Hlen Hstop Hp Hpend Hfuel.
  - cbn [List.length map List.concat word_offsets seq] in *. rewrite otp_loop_end by lia.
    exists (m_serialBuffer s), (incoming (m_port s)).
    rewrite !app_nil_r, port_state_same, firstn_all2 by lia.
    repeat split; assumption.
  - inversion Hws as [| w' ws' Hw Hws']; subst w' ws'.
    destruct w as [| a [| b [| c [| d [| e w]]]]]; try discriminate Hw. clear Hw.
    simpl in Hj, Hfuel. destruct fuel as [| fuel]; [lia |].
    rewrite otp_loop_S by lia.
    cbn [map List.concat] in Hpend. rewrite <- app_assoc in Hpend.
    destruct (otp_chunk_prompt (4 * Z.of_nat j) otpbuf s a b c d _ Hstop Hp Hpend)
      as (sb1 & sc1 & Hc & Hrest1 & Hq1).
    rewrite (bind_ok _ _ _ _ _ Hc).
    set (otpbuf1 := store _ _ _).
    set (s1 := port_state sb1 sc1 _ s).
    replace (4 * Z.of_nat j + 4) with (4 * Z.of_nat (S j)) by lia.
    destruct (IH (S j) otpbuf1 fuel s1 rest Hws') as (sb & sc & Hl & Hrest & Hq);
      try assumption; try lia.
    { subst otpbuf1. now rewrite !length_store. }
    rewrite Hl. exists sb, sc. split; [| split; assumption].
    f_equal.
    + f_equal. subst otpbuf1.
      replace (Z.to_nat (4 * Z.of_nat j)) with (4 * j)%nat by lia.
      replace (Z.to_nat (4 * Z.of_nat j + 1)) with (4 * j + 1)%nat by lia.
      replace (Z.to_nat (4 * Z.of_nat j + 2)) with (4 * j + 2)%nat by lia.
      replace (Z.to_nat (4 * Z.of_nat j + 3)) with (4 * j + 3)%nat by lia.
      replace (4 * S j)%nat with (4 * j + 4)%nat by lia.
      rewrite store_word by lia.
      cbn [List.concat map app]. rewrite <- app_assoc. reflexivity.
    + subst s1. rewrite port_state_port_state. f_equal.
      cbn [port_state with_serialBuffer with_port m_port written].
      rewrite <- app_assoc. reflexivity.
Qed.

(** X24: when the device answers every OTP read in time with four bytes
    and the footer, whatever the pieces in which the bytes arrive, the
    loop writes one command for each of the 128 word offsets 0, 4, ..., 508
    in turn and returns the 512 bytes in the order received; what the
    device sends after them is left pending. *)
Theorem otp_loop_reads_region (ws : list (list Z)) (rest : list Z) (fuel : nat) (s : t) :
  List.length ws = 128%nat ->
  Forall (fun w => List.length w = 4%nat) ws ->
  m_stop s = false ->
  prompt (incoming (m_port s)) = true ->
  pending s = List.concat (map answer ws) ++ rest ->
  (128 <= fuel)%nat ->
  exists s',
    otp_loop fuel 0 (repeat 0 512) s = (Ok (map to_uchar (List.concat ws)), s')
    /\ written (m_port s') = written (m_port s) ++ map otp_command (word_offsets 0 128)
    /\ pending s' = rest
    /\ isOpen (m_port s') = isOpen (m_port s).
Proof.
  intros Hlen Hws Hstop Hp Hpend Hfuel.
  destruct (otp_loop_prompt ws 0 (repeat 0 512) fuel s rest) as (sb & sc & Hl & Hrest & _);
    try assumption; try lia; [now rewrite repeat_length |].
  change (4 * Z.of_nat 0) with 0 in Hl. rewrite Hlen in Hl.
  eexists. split; [exact Hl |]. repeat split. exact Hrest.
Qed.

Lemma otp_loop_reads_region_witness :
  exists s',
    otp_loop 128 0 (repeat 0 512) (uploader [] (repeat (word 0x50 0x58 0x34 0) 128))
    = (Ok (List.concat (repeat [0x50; 0x58; 0x34; 0] 128)), s')
    /\ pending s' = [].
Proof.
  destruct (otp_loop_reads_region (repeat [0x50; 0x58; 0x34; 0] 128) [] 128
              (uploader [] (repeat (word 0x50 0x58 0x34 0) 128)))
    as (s' & H & _ & Hpend & _).
  - reflexivity.
  - apply Forall_forall. intros w Hw. apply repeat_spec in Hw. now subst.
  - reflexivity.
  - reflexivity.
  - vm_compute. reflexivity.
  - lia.
  - exists s'. split; [| exact Hpend]. rewrite H. vm_compute. reflexivity.
Defined.

Lemma sn_loop_S (fuel : nat) (i : Z) (snbuf : list Z) :
  i < 12 ->
  sn_loop (S fuel) i snbuf
  = bind (sn_chunk i snbuf)
      (fun pass => match pass with
                   | SnNext i snbuf => sn_loop fuel i snbuf
                   | SnBreakBad snbuf => ret (true, snbuf)
                   end).
Proof. intros H. apply Z.ltb_lt in H. simpl. now rewrite H. Qed.

Lemma sn_loop_end (fuel : nat) (i : Z) (snbuf : list Z) :
  12 <= i -> sn_loop fuel i snbuf = ret (false, snbuf).
Proof. intros H. apply Z.ltb_ge in H. destruct fuel; simpl; now rewrite H. Qed.

(** One pass of the serial number loop when the word and its footer are
    pending. *)
Lemma sn_chunk_prompt (i : Z) (snbuf : list Z) (s : t) (a b c d : Z) (rest : list Z) :
  prompt (incoming (m_port s)) = true ->
  pending s = answer [a; b; c; d] ++ rest ->
  exists sb sc,
    sn_chunk i snbuf s
    = (Ok (SnNext (i + 4)
             (store (Z.to_nat (i + 3)) (to_uchar a)
                (store (Z.to_nat (i + 2)) (to_uchar b)
                   (store (Z.to_nat (i + 1)) (to_uchar c)
                      (store (Z.to_nat i) (to_uchar d) snbuf))))),
       port_state sb sc (written (m_port s) ++ [sn_command i]) s)
    /\ sb ++ all_data sc = rest
    /\ prompt sc = true.
Proof.
  intros Hp Hpend. unfold sn_chunk.
  set (s1 := snd (port_write (sn_command i) s)).
  rewrite (bind_ok _ _ s s1 tt) by reflexivity.
  destruct (read_word_prompt 2000 2000 s1 a b c d rest eq_refl eq_refl Hp Hpend)
    as (sb1 & sc1 & sb2 & sc2 & Hr & Hg & Hrest & Hq).
  rewrite (bind_ok _ _ _ _ _ Hr). cbn [Z.ltb Z.compare Pos.compare Pos.compare_cont nth].
  rewrite (bind_ok _ _ _ _ _ Hg). cbn [Z.eqb negb].
  exists sb2, sc2. split; [reflexivity | split; assumption].
Qed.

(** X25: when the device answers the three serial number reads in time,
    each word is stored with its four bytes in reverse order, the
    commands for the offsets 0, 4 and 8 are written once each, and the
    text of the twelve bytes is returned beside the OTP text. *)
Theorem read_sn_reverses_words
    (a0 a1 a2 a3 b0 b1 b2 b3 c0 c1 c2 c3 : Z) (rest : list Z)
    (fuel : nat) (otpstr : string) (s : t) :
  prompt (incoming (m_port s)) = true ->
  pending s
  = answer [a0; a1; a2; a3] ++ answer [b0; b1; b2; b3] ++ answer [c0; c1; c2; c3] ++ rest ->
  (3 <= fuel)%nat ->
  exists s',
    read_sn fuel otpstr s
    = (Ok (otpstr,
           sn_text (map to_uchar [a3; a2; a1; a0; b3; b2; b1; b0; c3; c2; c1; c0])), s')
    /\ written (m_port s')
       = written (m_port s) ++ [sn_command 0; sn_command 4; sn_command 8]
    /\ pending s' = rest.
Proof.
  intros Hp Hpend Hfuel.
  destruct fuel as [| [| [| fuel]]]; try lia.
  unfold read_sn.
  set (s0 := snd (emit (statusUpdate "Requesting board SN") s)).
  rewrite (bind_ok _ _ s s0 tt) by reflexivity.
  rewrite sn_loop_S by lia.
  destruct (sn_chunk_prompt 0 (repeat 0 12) s0 a0 a1 a2 a3 _ Hp Hpend)
    as (sb1 & sc1 & H1 & R1 & Q1).
  rewrite !bind_assoc, (bind_ok _ _ _ _ _ H1). cbv beta iota.
  set (s1 := port_state sb1 sc1 _ s0) in *.
  rewrite sn_loop_S by lia.
  destruct (sn_chunk_prompt (0 + 4) (store (Z.to_nat (0 + 3)) (to_uchar a0)
                 (store (Z.to_nat (0 + 2)) (to_uchar a1)
                    (store (Z.to_nat (0 + 1)) (to_uchar a2)
                       (store (Z.to_nat 0) (to_uchar a3) (repeat 0 12)))))
              s1 b0 b1 b2 b3 _ Q1 R1)
    as (sb2 & sc2 & H2 & R2 & Q2).
  rewrite !bind_assoc, (bind_ok _ _ _ _ _ H2). cbv beta iota.
  set (s2 := port_state sb2 sc2 _ s1) in *.
  rewrite sn_loop_S by lia.
  match goal with |- context [sn_chunk ?i ?buf] =>
    destruct (sn_chunk_prompt i buf s2 c0 c1 c2 c3 _ Q2 R2) as (sb3 & sc3 & H3 & R3 & Q3)
  end.
  rewrite !bind_assoc, (bind_ok _ _ _ _ _ H3). cbv beta iota.
  set (s3 := port_state sb3 sc3 _ s2) in *.
  rewrite sn_loop_end by lia.
  eexists. split; [reflexivity |]. split.
  - cbn. rewrite <- !app_assoc. reflexivity.
  - exact R3.
Qed.

Lemma read_sn_reverses_words_witness :
  fst (read_sn 3 EmptyString
         (uploader [] [Data [1; 2; 3]; Data [4; 0x12; 0x10; 5; 6; 7; 8; 0x12];
                       Data [0x10; 9; 10; 11; 12; 0x12; 0x10]]))
  = Ok (EmptyString, "04 03 02 01 08 07 06 05 0C 0B 0A 09 ").
Proof.
  destruct (read_sn_reverses_words 1 2 3 4 5 6 7 8 9 10 11 12 [] 3 EmptyString
              (uploader [] [Data [1; 2; 3]; Data [4; 0x12; 0x10; 5; 6; 7; 8; 0x12];
                            Data [0x10; 9; 10; 11; 12; 0x12; 0x10]]))
    as (s' & H & _); [reflexivity | reflexivity | lia |].
  rewrite H. reflexivity.
Defined.

End UploaderWords.

(** ** PX4FirmwareUploader: a flash that succeeds *)

Section UploaderFlash.
Import Qt PX4FirmwareUploader UploaderSpec UploaderSpecMore.

Lemma chunks_nil (n : nat) : chunks n [] = [].
Proof. destruct n; reflexivity. Qed.

Lemma concat_chunks (n : nat) :
  forall image : list Z, (List.length image <= 60 * n)%nat -> List.concat (chunks n image) = image.
Proof.
  induction n as [| n IH]; intros image H.
  - destruct image; [reflexivity | simpl in H; lia].
  - destruct image as [| x image]; [reflexivity |].
    cbn [chunks List.concat]. rewrite IH; [apply firstn_skipn |].
    rewrite length_skipn. lia.
Qed.

Lemma chunks_bound (n : nat) (image : list Z) :
  Forall (fun c => (0 < List.length c <= 60)%nat) (chunks n image).
Proof.
  revert image. induction n as [| n IH]; intros image; [constructor |].
  destruct image as [| x image]; [constructor |].
  cbn [chunks]. constructor; [| apply IH].
  rewrite length_firstn. cbn [List.length]. lia.
Qed.

Lemma length_chunks (n : nat) (image : list Z) : (List.length (chunks n image) <= n)%nat.
Proof.
  revert image. induction n as [| n IH]; intros image; [simpl; lia |].
  destruct image as [| x image]; simpl; [lia |]. specialize (IH (skipn 59 image)).
  destruct image; simpl in *; lia.
Qed.

Lemma frame_payload_program_frame (buf : list Z) : frame_payload (program_frame buf) = buf.
Proof.
  unfold frame_payload, program_frame. cbn [app skipn List.length].
  rewrite length_app. cbn [List.length].
  replace (S (S (List.length buf + 1)) - 3)%nat with (List.length buf) by lia.
  rewrite firstn_app_le by lia. apply firstn_all.
Qed.

(** The bytes left in the file after a [read(60)] at [p]. *)
Lemma chunk_rest (p : nat) (image : list Z) :
  skipn (p + List.length (firstn 60 (skipn p image))) image = skipn 60 (skipn p image).
Proof.
  rewrite skipn_skipn, length_firstn, length_skipn.
  destruct (Nat.le_gt_cases 60 (List.length image - p)) as [H | H].
  - f_equal. lia.
  - rewrite !skipn_all2 by lia. reflexivity.
Qed.

Lemma program_loop_end (fuel : nat) (c f : Z) (s : t) (file : QTemporaryFile) :
  tempFile s = Some file ->
  (List.length (data file) <= pos file)%nat ->
  program_loop fuel c f s = (Ok tt, s).
Proof.
  intros Hf Hp. apply Nat.leb_le in Hp.
  destruct fuel; unfold program_loop, bind, tempFile_atEnd, of_file; rewrite Hf, Hp; reflexivity.
Qed.

Lemma program_loop_S (fuel : nat) (c f : Z) (s : t) (file : QTemporaryFile) :
  tempFile s = Some file ->
  (pos file < List.length (data file))%nat ->
  program_loop (S fuel) c f s
  = bind (program_chunk c f)
      (fun x => let '(counter, failure) := x in program_loop fuel counter failure) s.
Proof.
  intros Hf Hp. apply Nat.leb_gt in Hp.
  cbn [program_loop]. unfold bind at 1, tempFile_atEnd, of_file. rewrite Hf, Hp. reflexivity.
Qed.

(** One pass of the programming loop when the footer is pending. *)
Lemma program_chunk_prompt (c f : Z) (image : list Z) (p : nat) (fo : bool)
    (sb : list Z) (inc : list port_event) (wr : list (list Z)) (op del : bool)
    (id size : Z) (descr : string) (run : bool) (em : list signal) (assigned : bool)
    (rest : list Z) :
  (p < List.length image)%nat ->
  prompt inc = true ->
  sb ++ all_data inc = footer ++ rest ->
  exists sb' inc' em',
    program_chunk c f
      (flashing image p fo sb {| incoming := inc; written := wr; isOpen := op |}
         del id size descr run em assigned)
    = (Ok (c + 1, f),
       flashing image (p + List.length (firstn 60 (skipn p image))) fo sb'
         {| incoming := inc';
            written := wr ++ [program_frame (firstn 60 (skipn p image))];
            isOpen := op |}
         del id size descr run (em ++ em') assigned)
    /\ sb' ++ all_data inc' = rest
    /\ prompt inc' = true
    /\ forallb is_progress em' = true.
Proof.
  intros Hp Hq Hpend. unfold program_chunk, flashing.
  cbn -[get_sync program_frame firstn skipn Nat.ltb].
  pose proof (chunk_nonempty {| data := image; pos := p; file_isOpen := fo |} Hp) as Hne.
  cbn [data pos] in Hne. rewrite Hne.
  cbn -[get_sync program_frame firstn skipn Nat.ltb].
  match goal with |- context [with_port ?port ?x] => set (s1 := with_port port x) end.
  destruct (get_sync_prompt 1000 s1 rest eq_refl Hq Hpend) as (sb' & inc' & Hg & Hrest & Hq').
  rewrite (bind_ok _ _ _ _ _ Hg). subst s1.
  exists sb', inc'.
  destruct (Z.rem c 50 =? 0).
  - eexists [_]. cbn -[program_frame firstn skipn]. repeat split; assumption.
  - exists []. cbn -[program_frame firstn skipn]. rewrite app_nil_r. repeat split; assumption.
Qed.

Lemma program_loop_prompt (n : nat) :
  forall (c f : Z) (image : list Z) (p : nat) (fo : bool)
    (sb : list Z) (inc : list port_event) (wr : list (list Z)) (op del : bool)
    (id size : Z) (descr : string) (run : bool) (em : list signal) (assigned : bool)
    (rest : list Z)
    (fuel : nat),
  (p <= List.length image)%nat ->
  (List.length image - p <= 60 * n)%nat ->
  prompt inc = true ->
  sb ++ all_data inc
  = List.concat (repeat footer (List.length (chunks n (skipn p image)))) ++ rest ->
  (List.length (chunks n (skipn p image)) <= fuel)%nat ->
  exists sb' inc' em',
    program_loop fuel c f
      (flashing image p fo sb {| incoming := inc; written := wr; isOpen := op |}
         del id size descr run em assigned)
    = (Ok tt,
       flashing image (List.length image) fo sb'
         {| incoming := inc';
            written := wr ++ map program_frame (chunks n (skipn p image));
            isOpen := op |}
         del id size descr run (em ++ em') assigned)
    /\ sb' ++ all_data inc' = rest
    /\ prompt inc' = true
    /\ forallb is_progress em' = true.
Proof.
  induction n as [| n IH];
    intros c f image p fo sb inc wr op del id size descr run em assigned rest fuel Hp Hn Hq Hpend Hfuel.
  - assert (p = List.length image) by lia. subst p.
    rewrite (program_loop_end _ _ _ _ {| data := image; pos := List.length image;
                                         file_isOpen := fo |}) by (reflexivity || (simpl; lia)).
    exists sb, inc, []. cbn [chunks map]. rewrite !app_nil_r. repeat split; assumption.
  - destruct (Nat.eq_dec p (List.length image)) as [-> | Hne].
    + rewrite (program_loop_end _ _ _ _ {| data := image; pos := List.length image;
                                           file_isOpen := fo |}) by (reflexivity || (simpl; lia)).
      rewrite skipn_all, chunks_nil in *.
      exists sb, inc, []. cbn [map]. rewrite !app_nil_r. repeat split; assumption.
    + assert (Hlt : (p < List.length image)%nat) by lia.
      destruct (skipn p image) as [| x tl] eqn:Hsk.
      { apply (f_equal (@List.length Z)) in Hsk. rewrite length_skipn in Hsk. simpl in Hsk. lia. }
      destruct fuel as [| fuel]; [simpl in Hfuel; lia |].
      rewrite (program_loop_S _ _ _ _ {| data := image; pos := p; file_isOpen := fo |})
        by (reflexivity || exact Hlt).
      cbn [chunks] in *. rewrite <- Hsk in *. clear x tl Hsk.
      cbn [List.length] in Hfuel.
      cbn [List.length repeat List.concat] in Hpend. rewrite <- app_assoc in Hpend.
      destruct (program_chunk_prompt c f image p fo sb inc wr op del id size descr run em assigned _
                  Hlt Hq Hpend) as (sb1 & inc1 & em1 & Hc & Hrest1 & Hq1 & He1).
      rewrite (bind_ok _ _ _ _ _ Hc).
      destruct (IH (c + 1) f image (p + List.length (firstn 60 (skipn p image)))%nat fo sb1 inc1
                  (wr ++ [program_frame (firstn 60 (skipn p image))]) op del id size descr run
                  (em ++ em1) assigned rest fuel) as (sb' & inc' & em' & Hl & Hrest & Hq' & He').
      * rewrite length_firstn, length_skipn. lia.
      * rewrite length_firstn, length_skipn. lia.
      * exact Hq1.
      * rewrite chunk_rest. exact Hrest1.
      * rewrite chunk_rest. lia.
      * rewrite Hl. exists sb', inc', (em1 ++ em').
        rewrite chunk_rest, <- !app_assoc, forallb_app, He1, He'.
        repeat split; assumption.
Qed.

(** The erase and programming block when a footer is pending after ERASE
    and after every frame. *)
Lemma erase_and_program_prompt (fuel : nat) (image : list Z) (p : nat) (fo : bool)
    (sb : list Z) (inc : list port_event) (wr : list (list Z)) (op del : bool)
    (id size : Z) (descr : string) (run : bool) (em : list signal) (assigned : bool)
    (rest : list Z) :
  let cs := chunks (List.length image) image in
  prompt inc = true ->
  sb ++ all_data inc = footer ++ List.concat (repeat footer (List.length cs)) ++ rest ->
  (List.length cs <= fuel)%nat ->
  exists sb' inc' progress,
    erase_and_program fuel
      (flashing image p fo sb {| incoming := inc; written := wr; isOpen := op |}
         del id size descr run em assigned)
    = (Return,
       {| m_stop := false; m_serialBuffer := sb';
          m_port := {| incoming := inc';
                       written := wr ++ [erase_command] ++ map program_frame cs
                                     ++ [reboot_command];
                       isOpen := false |};
          m_port_deleted := true; tempFile := None;
          m_loadedBoardID := id; m_loadedFwSize := size;
          m_loadedDescription := descr; running := run;
          emitted := em ++ [statusUpdate "Erasing flash, this may take up to a minute";
                            statusUpdate "Flashing firmware"]
                        ++ progress ++ [statusUpdate "Flashing complete!"; done];
          m_port_assigned := assigned |})
    /\ sb' ++ all_data inc' = rest
    /\ forallb is_progress progress = true.
Proof.
  intros cs Hq Hpend Hfuel.
  unfold erase_and_program, flashing.
  cbn -[get_sync program_loop return_if_stopped].
  match goal with |- context [with_port ?port ?x] => set (s1 := with_port port x) end.
  destruct (get_sync_prompt 60000 s1 _ eq_refl Hq Hpend) as (sb1 & inc1 & Hg & Hrest1 & Hq1).
  rewrite (bind_ok _ _ _ _ _ Hg). subst s1.
  cbn -[program_loop].
  destruct (program_loop_prompt (List.length image) 0 0 image 0 true sb1 inc1
              (wr ++ [erase_command]) op del id size descr run
              ((em ++ [statusUpdate "Erasing flash, this may take up to a minute"])
                 ++ [statusUpdate "Flashing firmware"]) assigned rest fuel)
    as (sb2 & inc2 & em2 & Hl & Hrest2 & Hq2 & He2);
    try assumption; try lia.
  unfold flashing in Hl. rewrite (bind_ok _ _ _ _ _ Hl). clear Hl.
  cbn -[chunks]. exists sb2, inc2, em2. split; [| split; assumption].
  do 2 f_equal.
  - f_equal. fold cs. now rewrite <- !app_assoc.
Qed.

Lemma progress_is_no_error (progress : list signal) :
  forallb is_progress progress = true -> existsb is_error progress = false.
Proof. induction progress as [| [] progress IH]; simpl; try discriminate; auto. Qed.

(** X26: when the reads obtain a footer after ERASE and after every frame,
    the erase and programming block writes ERASE, then frames that carry
    the image once, in order, in pieces of 1 to 60 bytes, then REBOOT; it
    closes and deletes the port, deletes the temporary file, emits no error
    and emits [done] last. *)
Theorem erase_and_program_flashes_image
    (fuel : nat) (s : t) (file : QTemporaryFile) (rest : list Z) :
  let cs := chunks (List.length (data file)) (data file) in
  tempFile s = Some file ->
  m_stop s = false ->
  prompt (incoming (m_port s)) = true ->
  pending s = footer ++ List.concat (repeat footer (List.length cs)) ++ rest ->
  (List.length cs <= fuel)%nat ->
  exists s',
    erase_and_program fuel s = (Return, s')
    /\ written (m_port s')
       = written (m_port s) ++ [erase_command] ++ map program_frame cs ++ [reboot_command]
    /\ List.concat (map frame_payload (map program_frame cs)) = data file
    /\ Forall (fun c => (0 < List.length c <= 60)%nat) cs
    /\ isOpen (m_port s') = false
    /\ m_port_deleted s' = true
    /\ tempFile s' = None
    /\ existsb is_error (emitted s') = existsb is_error (emitted s)
    /\ last (emitted s') (error EmptyString) = done.
Proof.
  intros cs Hf Hstop Hq Hpend Hfuel.
  destruct s as [stop sb [inc wr op] del tf id size descr run em assigned].
  cbn in Hf, Hstop, Hq. subst tf stop. destruct file as [image p fo].
  unfold pending in Hpend. cbn [m_serialBuffer m_port incoming data] in *.
  destruct (erase_and_program_prompt fuel image p fo sb inc wr op del id size descr run em
              assigned rest
              Hq Hpend Hfuel) as (sb' & inc' & progress & H & _ & Hprog).
  unfold flashing in H. eexists. split; [exact H |].
  cbn [m_port written isOpen m_port_deleted tempFile emitted].
  repeat split.
  - rewrite map_map. erewrite map_ext by (intros; apply frame_payload_program_frame).
    rewrite map_id. apply concat_chunks. lia.
  - apply chunks_bound.
  - rewrite !existsb_app, (progress_is_no_error _ Hprog). cbn. now rewrite !orb_false_r.
  - change [statusUpdate "Flashing complete!"; done]
      with ([statusUpdate "Flashing complete!"] ++ [done]).
    rewrite !app_assoc. apply last_last.
Qed.

Lemma erase_and_program_flashes_image_witness :
  exists s',
    erase_and_program 3 (uploader two_chunk_image [Data [0x12]; Data [0x10; 0x12; 0x10; 0x12; 0x10]])
    = (Return, s')
    /\ written (m_port s')
       = [erase_command; program_frame (repeat 0xAA 60); program_frame (repeat 0xAA 60);
          reboot_command].
Proof.
  destruct (erase_and_program_flashes_image 3
              (uploader two_chunk_image [Data [0x12]; Data [0x10; 0x12; 0x10; 0x12; 0x10]])
              {| data := two_chunk_image; pos := 0%nat; file_isOpen := false |} [])
    as (s' & H & Hw & _); [reflexivity | reflexivity | reflexivity | reflexivity | vm_compute; lia |].
  exists s'. split; [exact H |]. rewrite Hw. reflexivity.
Defined.

End UploaderFlash.

(** ** PX4FirmwareUploader: a device that stays silent, a stop request *)

Section UploaderRetries.
Import Qt PX4FirmwareUploader UploaderSpec UploaderSpecMore.

(** One retry against a device that does not answer. *)
Lemma sync_times_out (s : t) (rest : list port_event) :
  (List.length (m_serialBuffer s) < 2)%nat ->
  incoming (m_port s) = Expired :: rest ->
  (port_write sync_command ;; get_sync get_sync_default_timeout)%uploader s
  = (Ok (-1),
     with_port {| incoming := rest; written := written (m_port s) ++ [sync_command];
                  isOpen := isOpen (m_port s) |} s).
Proof.
  intros Hsb Hinc. destruct s as [stop sb [inc wr op] del tf id size descr run em assigned].
  cbn in Hsb, Hinc. subst inc.
  destruct sb as [| x [| y sb]]; [reflexivity | reflexivity | simpl in Hsb; lia].
Qed.

Lemma sync_loop_silent (fuel : nat) (retries : nat) :
  forall (s : t) (rest : list port_event),
  (List.length (m_serialBuffer s) < 2)%nat ->
  incoming (m_port s) = repeat Expired retries ++ rest ->
  sync_loop fuel retries s
  = (Ok tt,
     with_port {| incoming := rest;
                  written := written (m_port s) ++ repeat sync_command retries;
                  isOpen := isOpen (m_port s) |} s).
Proof.
  induction retries as [| retries IH]; intros s rest Hsb Hinc.
  - cbn in *. rewrite app_nil_r. destruct s as [? ? []]. cbn in *. now subst.
  - cbn [sync_loop repeat app] in *.
    pose proof (sync_times_out s _ Hsb Hinc) as Hs.
    unfold bind at 1. unfold iteration.
    rewrite <- (bind_assoc (port_write sync_command)
                  (fun _ => get_sync get_sync_default_timeout)), (bind_ok _ _ _ _ _ Hs).
    cbn [Z.eqb continue].
    rewrite IH with (rest := rest); [| exact Hsb | reflexivity].
    cbn [with_port m_port written isOpen]. rewrite <- app_assoc. reflexivity.
Qed.

(** X27: [run] from the retry loop on.  When the device answers none of
    the five SYNC commands, the loop writes SYNC five times and [run]
    ends: the port is left open and not deleted, the temporary file is
    kept, and from the entry of the loop on no signal is emitted, not even
    an error. *)
Theorem silent_device_ends_run_quietly (fuel : nat) (s : t) (rest : list port_event) :
  (List.length (m_serialBuffer s) < 2)%nat ->
  incoming (m_port s) = repeat Expired 5 ++ rest ->
  let r := run_opened fuel s in
  fst r = Ok tt
  /\ written (m_port (snd r)) = written (m_port s) ++ repeat sync_command 5
  /\ isOpen (m_port (snd r)) = isOpen (m_port s)
  /\ m_port_deleted (snd r) = m_port_deleted s
  /\ tempFile (snd r) = tempFile s
  /\ emitted (snd r) = emitted s.
Proof.
  intros Hsb Hinc r. subst r. unfold run_opened.
  rewrite (sync_loop_silent fuel 5 s rest Hsb Hinc). repeat split.
Qed.

Lemma silent_device_ends_run_quietly_witness :
  let r := run_opened 0 (uploader small_image (repeat Expired 5)) in
  fst r = Ok tt /\ isOpen (m_port (snd r)) = true /\ emitted (snd r) = [].
Proof.
  intros r.
  destruct (silent_device_ends_run_quietly 0 (uploader small_image (repeat Expired 5)) [])
    as (H1 & _ & H2 & _ & _ & H3); [simpl; lia | reflexivity |].
  split; [exact H1 | split; [exact H2 | exact H3]].
Defined.

End UploaderRetries.

Section UploaderStop.
Import Qt PX4FirmwareUploader UploaderSpec UploaderSpecMore.

Lemma only_queries_refl (s : t) : only_queries s s.
Proof. repeat split. exists []. now rewrite app_nil_r. Qed.

Lemma only_queries_trans (s1 s2 s3 : t) :
  only_queries s1 s2 -> only_queries s2 s3 -> only_queries s1 s3.
Proof.
  intros (A1 & B1 & ws1 & C1 & D1) (A2 & B2 & ws2 & C2 & D2).
  repeat split; try congruence.
  exists (ws1 ++ ws2). rewrite C2, C1, <- app_assoc, forallb_app, D1, D2. now split.
Qed.

Lemma harmless_ret {A : Type} (a : A) : harmless (ret a).
Proof. intros s _. repeat split; try discriminate. apply only_queries_refl. Qed.

Lemma harmless_continue {A : Type} : harmless (@continue A).
Proof. intros s _. repeat split; try discriminate. apply only_queries_refl. Qed.

Lemma harmless_bind {A B : Type} (c : M A) (k : A -> M B) :
  harmless c -> (forall a, harmless (k a)) -> harmless (bind c k).
Proof.
  intros Hc Hk s Hs. specialize (Hc s Hs). unfold bind.
  destruct (c s) as [[a | | | |] s1]; cbn [fst snd] in *;
    destruct Hc as (Hq & Hr1 & Hr2);
    try (split; [exact Hq | split; (discriminate || (exfalso; auto))]).
  assert (Hs1 : m_stop s1 = true) by (destruct Hq as (-> & _); exact Hs).
  destruct (Hk a s1 Hs1) as (Hq2 & Hr).
  split; [eapply only_queries_trans; eassumption | exact Hr].
Qed.

Lemma harmless_emit (sig : signal) : harmless (emit sig).
Proof.
  intros s _. repeat split; try discriminate. exists []. cbn. now rewrite app_nil_r.
Qed.

Lemma harmless_port_write (command : list Z) :
  is_sync_or_query command = true -> harmless (port_write command).
Proof.
  intros H s _. repeat split; try discriminate.
  exists [command]. cbn -[is_sync_or_query]. now rewrite H.
Qed.

Lemma harmless_get_sync (timeout : Z) : harmless (get_sync timeout).
Proof.
  intros s _. destruct (get_sync_step timeout s) as (sb & sc & H). rewrite H.
  repeat split; try discriminate. exists []. cbn. now rewrite app_nil_r.
Qed.

Lemma harmless_reqInfo (infobyte reply : Z) : harmless (reqInfo infobyte reply).
Proof.
  unfold reqInfo. apply harmless_bind; [now apply harmless_port_write | intros _].
  apply harmless_bind.
  - intros s _. destruct (readBytes_step 4 5000 s eq_refl) as (sb & sc & H). rewrite H.
    repeat split; try discriminate. exists []. cbn. now rewrite app_nil_r.
  - intros [read infobuf]. apply harmless_bind; [apply harmless_get_sync | intros sync].
    destruct (negb (sync =? 0)); apply harmless_ret.
Qed.

(** With the stop request set, whatever follows the test of [m_stop] is
    not run: the port is closed and deleted, and [run] is left. *)
Lemma harmless_return_if_stopped {A : Type} (k : unit -> M A) :
  harmless (bind return_if_stopped k).
Proof.
  intros s Hs.
  assert (H : bind return_if_stopped k s = (Return, snd ((port_close ;; port_delete)%uploader s))).
  { unfold bind at 1, return_if_stopped, bind at 1, get_stop. rewrite Hs. reflexivity. }
  rewrite H. split; [| split; discriminate].
  split; [reflexivity | split; [reflexivity |]]. exists []. cbn. now rewrite app_nil_r.
Qed.

Lemma harmless_synced (fuel : nat) : harmless (synced fuel).
Proof.
  unfold synced.
  apply harmless_bind; [apply harmless_emit | intros _].
  apply harmless_bind; [apply harmless_reqInfo | intros [[] read]];
    cbn [negb]; [| apply harmless_continue].
  apply harmless_bind; [apply harmless_emit | intros _].
  apply harmless_bind; [apply harmless_reqInfo | intros [[] read2]];
    cbn [negb]; [| apply harmless_continue].
  apply harmless_bind; [apply harmless_emit | intros _].
  apply harmless_bind; [apply harmless_reqInfo | intros [[] read3]];
    cbn [negb]; [| apply harmless_continue].
  apply harmless_bind; [apply harmless_emit | intros _].
  apply harmless_bind; [apply harmless_reqInfo | intros [[] read4]];
    cbn [negb]; [| apply harmless_continue].
  apply harmless_return_if_stopped.
Qed.

Lemma harmless_iteration (body : M unit) : harmless body -> harmless (iteration body).
Proof.
  intros H s Hs. specialize (H s Hs). unfold iteration.
  destruct (body s) as [[[] | | | |] s1]; cbn [fst snd] in *;
    destruct H as (Hq & Hr1 & Hr2);
    (split; [exact Hq | split; (discriminate || assumption)]).
Qed.

Lemma harmless_sync_loop (fuel retries : nat) : harmless (sync_loop fuel retries).
Proof.
  induction retries as [| retries IH]; [apply harmless_ret |].
  cbn [sync_loop]. apply harmless_bind; [| intros _; exact IH].
  apply harmless_iteration.
  apply harmless_bind; [now apply harmless_port_write | intros _].
  apply harmless_bind; [apply harmless_get_sync | intros sync].
  destruct (sync =? 0); [apply harmless_synced | apply harmless_continue].
Qed.

Lemma sync_loop_result (fuel retries : nat) (s : t) :
  m_stop s = true ->
  fst (sync_loop fuel retries s) = Ok tt \/ fst (sync_loop fuel retries s) = Return.
Proof.
  revert s. induction retries as [| retries IH]; intros s Hs; [now left |].
  cbn [sync_loop].
  set (body := (port_write sync_command ;; _)%uploader).
  unfold bind.
  assert (Hb : harmless body).
  { apply harmless_bind; [now apply harmless_port_write | intros _].
    apply harmless_bind; [apply harmless_get_sync | intros sync].
    destruct (sync =? 0); [apply harmless_synced | apply harmless_continue]. }
  destruct (Hb s Hs) as ((Hstop & _) & Hr1 & Hr2).
  unfold iteration. destruct (body s) as [[[] | | | |] s1]; cbn [fst snd] in *;
    try (now right); try congruence; apply IH; congruence.
Qed.

(** X28: when [m_stop] is set before the retry loop, [run] never writes
    ERASE, a PROGRAM_MULTI frame or REBOOT, whatever the device answers:
    it writes only SYNC commands and GET_DEVICE queries, leaves the
    temporary file as it is, and ends (by the end of the retries or by a
    [return]) for any bound on the loops. *)
Theorem stop_request_prevents_flash (fuel : nat) (s : t) :
  m_stop s = true ->
  let r := run_opened fuel s in
  (fst r = Ok tt \/ fst r = Return)
  /\ tempFile (snd r) = tempFile s
  /\ exists ws, written (m_port (snd r)) = written (m_port s) ++ ws
                /\ forallb is_sync_or_query ws = true.
Proof.
  intros Hs r. subst r. unfold run_opened.
  destruct (harmless_sync_loop fuel 5 s Hs) as ((_ & Hf & Hw) & _).
  split; [now apply sync_loop_result | split; assumption].
Qed.

Lemma stop_request_prevents_flash_witness :
  let s := PX4FirmwareUploaderStart.stop (uploader small_image (handshake 3 ++ [ack; ack])) in
  let r := run_opened 0 s in
  (fst r = Ok tt \/ fst r = Return) /\ tempFile (snd r) = tempFile s.
Proof.
  intros s r.
  destruct (stop_request_prevents_flash 0 s) as (H1 & H2 & _); [reflexivity |].
  split; [exact H1 | exact H2].
Defined.

End UploaderStop.

(** ** PX4FirmwareUploader: waiting for the device *)

Section UploaderDetection.
Import Qt PX4FirmwareUploader PX4FirmwareUploaderStart.

Lemma list_contains_In (portlist : list string) (name : string) :
  list_contains portlist name = true <-> In name portlist.
Proof.
  unfold list_contains. rewrite existsb_exists. split.
  - intros (x & Hx & Heq). apply String.eqb_eq in Heq. now subst.
  - intros H. exists name. split; [exact H | apply String.eqb_refl].
Qed.

Lemma first_new_spec (portlist ports : list string) (name : string) :
  first_new portlist ports = Some name -> In name ports /\ ~ In name portlist.
Proof.
  induction ports as [| x ports IH]; simpl; [discriminate |].
  destruct (list_contains portlist x) eqn:Hc; simpl.
  - intros H. destruct (IH H) as [H1 H2]. split; [now right | exact H2].
  - intros [= ->]. split; [now left |].
    intros Hin. apply list_contains_In in Hin. congruence.
Qed.

Lemma wait_for_device_found (n : nat) :
  forall (enumerations : list (list string)) (m_stop : bool) (portlist : list string)
         (size : Z) (name : string),
  (List.length enumerations <= n)%nat ->
  wait_for_device m_stop portlist size enumerations = Found name ->
  m_stop = false
  /\ exists before ports after,
       enumerations = before ++ ports :: after
       /\ In name ports
       /\ (~ In name portlist \/ exists listed, In listed before /\ ~ In name listed).
Proof.
  induction n as [| n IH]; intros enumerations m_stop portlist size name Hlen H.
  - destruct enumerations; [discriminate | simpl in Hlen; lia].
  - destruct enumerations as [| ports [| counted rest]]; try discriminate.
    cbn [wait_for_device] in H.
    destruct (size >? Z.of_nat (List.length counted)).
    + destruct rest as [| rescanned rest]; [discriminate |].
      destruct m_stop; [discriminate |]. split; [reflexivity |].
      destruct (first_new portlist ports) as [found |] eqn:Hfound.
      * injection H as ->. apply first_new_spec in Hfound as [H1 H2].
        exists [], ports, (counted :: rescanned :: rest). repeat split; [exact H1 | now left].
      * apply IH in H; [| simpl in Hlen; lia].
        destruct H as (_ & before & ports' & after & -> & Hin & Hnew).
        exists (ports :: counted :: rescanned :: before), ports', after.
        repeat split; [exact Hin |]. right.
        destruct Hnew as [Hnew | (listed & Hl & Hnew)].
        -- exists rescanned. split; [simpl; tauto | exact Hnew].
        -- exists listed. split; [simpl; tauto | exact Hnew].
    + destruct m_stop; [discriminate |]. split; [reflexivity |].
      destruct (first_new portlist ports) as [found |] eqn:Hfound.
      * injection H as ->. apply first_new_spec in Hfound as [H1 H2].
        exists [], ports, (counted :: rest). repeat split; [exact H1 | now left].
      * apply IH in H; [| simpl in Hlen; lia].
        destruct H as (_ & before & ports' & after & -> & Hin & Hnew).
        exists (ports :: counted :: before), ports', after.
        repeat split; [exact Hin |].
        destruct Hnew as [Hnew | (listed & Hl & Hnew)]; [now left | right].
        exists listed. split; [simpl; tauto | exact Hnew].
Qed.

(** The first pass finds the port when nothing has been removed. *)
Lemma wait_for_device_first_pass (portlist ports counted : list string)
    (rest : list (list string)) (name : string) :
  first_new portlist ports = Some name ->
  (List.length portlist <= List.length counted)%nat ->
  detect false (portlist :: ports :: counted :: rest) = Found name.
Proof.
  intros Hnew Hlen. cbn [detect wait_for_device]. rewrite Hnew.
  destruct (Z.gtb_spec (Z.of_nat (List.length portlist)) (Z.of_nat (List.length counted)));
    [lia | reflexivity].
Qed.

(** X29: the port that the waiting loop of [run] selects is a port named
    by one enumeration and absent from an earlier enumeration (the list
    taken at the start or at a rescan), and no stop was requested: a port
    that every enumeration names is never selected. *)
Theorem detect_selects_new_port
    (m_stop : bool) (enumerations : list (list string)) (name : string) :
  detect m_stop enumerations = Found name ->
  m_stop = false
  /\ exists before ports after listed,
       enumerations = before ++ ports :: after
       /\ In name ports
       /\ In listed before
       /\ ~ In name listed.
Proof.
  unfold detect. destruct enumerations as [| portlist rest]; [discriminate |].
  intros H. apply (wait_for_device_found (List.length rest)) in H; [| lia].
  destruct H as (Hstop & before & ports & after & -> & Hin & Hnew).
  split; [exact Hstop |].
  destruct Hnew as [Hnew | (listed & Hl & Hnew)].
  - exists (portlist :: before), ports, after, portlist.
    repeat split; [exact Hin | now left | exact Hnew].
  - exists (portlist :: before), ports, after, listed.
    repeat split; [exact Hin | now right | exact Hnew].
Qed.

Lemma detect_selects_new_port_witness :
  detect false [["ttyS0"]; ["ttyS0"; "ttyACM0"]; ["ttyS0"; "ttyACM0"]] = Found "ttyACM0"
  /\ exists before ports after listed,
       [["ttyS0"]; ["ttyS0"; "ttyACM0"]; ["ttyS0"; "ttyACM0"]] = before ++ ports :: after
       /\ In "ttyACM0" ports
       /\ In listed before
       /\ ~ In "ttyACM0" listed.
Proof.
  split; [reflexivity |].
  exact (proj2 (detect_selects_new_port false
                  [["ttyS0"]; ["ttyS0"; "ttyACM0"]; ["ttyS0"; "ttyACM0"]] "ttyACM0" eq_refl)).
Defined.

End UploaderDetection.

(** ** PX4FirmwareUploader: a whole run *)

Section UploaderWholeRun.
Import Qt PX4FirmwareUploader PX4FirmwareUploaderStart UploaderSpec UploaderSpecMore.

Lemma write_zeros_spec (n : nat) :
  forall s : t,
  write_zeros n s
  = (Ok tt, with_port {| incoming := incoming (m_port s);
                         written := written (m_port s) ++ repeat [0] n;
                         isOpen := isOpen (m_port s) |} s).
Proof.
  induction n as [| n IH]; intros s.
  - cbn. rewrite app_nil_r. destruct s as [? ? []]; reflexivity.
  - cbn [write_zeros]. rewrite (bind_ok _ _ s (snd (port_write [0] s)) tt) by reflexivity.
    rewrite IH. cbn. rewrite <- app_assoc. reflexivity.
Qed.

Lemma bind_return {A B : Type} (c : M A) (k : A -> M B) (s s' : t) :
  c s = (Return, s') -> bind c k s = (Return, s').
Proof. unfold bind. now intros ->. Qed.

Lemma bind_emit {B : Type} (sig : signal) (k : unit -> M B) (s : t) :
  bind (emit sig) k s = k tt (with_emitted (emitted s ++ [sig]) s).
Proof. reflexivity. Qed.

Lemma bind_port_write {B : Type} (bytes : list Z) (k : unit -> M B) (s : t) :
  bind (port_write bytes) k s
  = k tt (with_port {| incoming := incoming (m_port s);
                       written := written (m_port s) ++ [bytes];
                       isOpen := isOpen (m_port s) |} s).
Proof. reflexivity. Qed.

Lemma bind_ret {A B : Type} (a : A) (k : A -> M B) (s : t) : bind (ret a) k s = k a s.
Proof. reflexivity. Qed.

Lemma iteration_return (body : M unit) (s s' : t) :
  body s = (Return, s') -> iteration body s = (Return, s').
Proof. unfold iteration. now intros ->. Qed.

Lemma is_word_bytes (w : list Z) :
  is_word w ->
  exists b0 b1 b2 b3,
    w = [b0; b1; b2; b3] /\ is_byte b0 /\ is_byte b1 /\ is_byte b2 /\ is_byte b3.
Proof.
  intros [Hlen Hb]. destruct w as [| b0 [| b1 [| b2 [| b3 [| b4 w]]]]]; try discriminate.
  exists b0, b1, b2, b3.
  apply Forall_cons_iff in Hb as [H0 Hb]. apply Forall_cons_iff in Hb as [H1 Hb].
  apply Forall_cons_iff in Hb as [H2 Hb]. apply Forall_cons_iff in Hb as [H3 _].
  split; [reflexivity | split; [exact H0 | split; [exact H1 | split; [exact H2 | exact H3]]]].
Qed.

Ltac normal_state :=
  cbn [port_state with_serialBuffer with_port with_emitted with_port_deleted with_tempFile
       m_stop m_serialBuffer m_port m_port_deleted tempFile m_loadedBoardID m_loadedFwSize
       m_loadedDescription running emitted m_port_assigned incoming written isOpen snd fst].

Ltac normal_state_in H :=
  cbn [port_state with_serialBuffer with_port with_emitted with_port_deleted with_tempFile
       m_stop m_serialBuffer m_port m_port_deleted tempFile m_loadedBoardID m_loadedFwSize
       m_loadedDescription running emitted m_port_assigned incoming written isOpen snd fst] in H.

Ltac query_step Hq Hpend b0 b1 b2 b3 sb sc Hrest Hq' :=
  match goal with
  | |- context [bind (reqInfo ?ib ?reply) ?k ?st] =>
      let H := fresh "Hquery" in
      destruct (reqInfo_prompt ib reply st b0 b1 b2 b3 _ Hq Hpend)
        as (sb & sc & H & Hrest & Hq');
      rewrite (bind_ok _ _ _ _ _ H); clear H;
      cbv beta iota zeta; cbn [negb]; normal_state
  end.

(** X30: a whole flash by a bootloader older than revision 4.  When the
    reads obtain the footer after SYNC, the four answers to the queries
    with their footers, and a footer after ERASE and after every frame,
    [run] writes the 128 zero bytes, SYNC, the four queries, ERASE, the
    frames of the image and REBOOT, in this order and nothing else; it
    emits the values read from the device and ends with [done], the port
    closed and deleted and the temporary file deleted. *)
Theorem run_flashes_image
    (fuel : nat) (s : t) (file : QTemporaryFile)
    (w_rev w_id w_brev w_size : list Z) (rest : list Z) :
  let cs := chunks (List.length (data file)) (data file) in
  tempFile s = Some file ->
  m_stop s = false ->
  prompt (incoming (m_port s)) = true ->
  is_word w_rev -> is_word w_id -> is_word w_brev -> is_word w_size ->
  reply_value w_rev < 4 ->
  pending s
  = footer ++ answer w_rev ++ answer w_id ++ answer w_brev ++ answer w_size
      ++ footer ++ List.concat (repeat footer (List.length cs)) ++ rest ->
  (List.length cs <= fuel)%nat ->
  exists s' progress,
    run_connected fuel s = (Return, s')
    /\ written (m_port s')
       = written (m_port s) ++ repeat [0] 128
           ++ [sync_command;
               info_command PROTO_DEVICE_BL_REV; info_command PROTO_DEVICE_BOARD_ID;
               info_command PROTO_DEVICE_BOARD_REV; info_command PROTO_DEVICE_FW_SIZE;
               erase_command]
           ++ map program_frame cs ++ [reboot_command]
    /\ emitted s'
       = emitted s
           ++ [statusUpdate "Requesting bootloader rev"; statusUpdate "Requesting board ID";
               statusUpdate "Requesting board rev"; statusUpdate "Requesting firmware size";
               boardRev (reply_value w_brev); boardId (reply_value w_id);
               bootloaderRev (reply_value w_rev); flashSize (reply_value w_size);
               serialNumber EmptyString; OTP EmptyString;
               statusUpdate "Erasing flash, this may take up to a minute";
               statusUpdate "Flashing firmware"]
           ++ progress ++ [statusUpdate "Flashing complete!"; done]
    /\ forallb is_progress progress = true
    /\ isOpen (m_port s') = false
    /\ m_port_deleted s' = true
    /\ tempFile s' = None.
Proof.
  intros cs Hf Hstop Hq Hrev Hid Hbrev Hsize Hold Hpend Hfuel.
  destruct (is_word_bytes _ Hrev) as (r0 & r1 & r2 & r3 & -> & Hr0 & Hr1 & Hr2 & Hr3).
  destruct (is_word_bytes _ Hid) as (i0 & i1 & i2 & i3 & -> & Hi0 & Hi1 & Hi2 & Hi3).
  destruct (is_word_bytes _ Hbrev) as (v0 & v1 & v2 & v3 & -> & Hv0 & Hv1 & Hv2 & Hv3).
  destruct (is_word_bytes _ Hsize) as (z0 & z1 & z2 & z3 & -> & Hz0 & Hz1 & Hz2 & Hz3).
  rewrite <- (reply_bytes r0 r1 r2 r3) in * by assumption.
  rewrite <- (reply_bytes i0 i1 i2 i3) by assumption.
  rewrite <- (reply_bytes v0 v1 v2 v3) by assumption.
  rewrite <- (reply_bytes z0 z1 z2 z3) by assumption.
  destruct s as [stop sb [inc wr op] del tf id size descr run em assigned].
  cbn in Hf, Hstop, Hq. subst tf stop. destruct file as [image p fo].
  unfold pending in Hpend. cbn [m_serialBuffer m_port incoming data] in *.
  unfold run_connected.
  rewrite (bind_ok _ _ _ _ _ (write_zeros_spec 128 _)). normal_state.
  unfold return_if_stopped at 1, get_stop.
  unfold bind at 1. unfold bind at 1. normal_state. cbv beta iota.
  unfold ret at 1. cbv beta iota.
  unfold run_opened. cbn [sync_loop].
  apply Z.ltb_lt in Hold.
  (* the first retry *)
  match goal with |- exists s' progress, bind (iteration ?body) ?k ?st = _ /\ _ =>
    assert (Hbody : exists sb' inc' progress,
      body st
      = (Return,
         {| m_stop := false; m_serialBuffer := sb';
            m_port := {| incoming := inc';
                         written := wr ++ repeat [0] 128
                           ++ [sync_command;
                               info_command PROTO_DEVICE_BL_REV;
                               info_command PROTO_DEVICE_BOARD_ID;
                               info_command PROTO_DEVICE_BOARD_REV;
                               info_command PROTO_DEVICE_FW_SIZE;
                               erase_command]
                           ++ map program_frame cs ++ [reboot_command];
                         isOpen := false |};
            m_port_deleted := true; tempFile := None;
            m_loadedBoardID := id; m_loadedFwSize := size;
            m_loadedDescription := descr; running := run;
            emitted := em
              ++ [statusUpdate "Requesting bootloader rev";
                  statusUpdate "Requesting board ID";
                  statusUpdate "Requesting board rev";
                  statusUpdate "Requesting firmware size";
                  boardRev (to_int (to_uint (to_uchar v0 + Z.shiftl (to_uchar v1) 8
                                             + Z.shiftl (to_uchar v2) 16
                                             + Z.shiftl (to_uchar v3) 24)));
                  boardId (to_int (to_uint (to_uchar i0 + Z.shiftl (to_uchar i1) 8
                                            + Z.shiftl (to_uchar i2) 16
                                            + Z.shiftl (to_uchar i3) 24)));
                  bootloaderRev (to_int (to_uint (to_uchar r0 + Z.shiftl (to_uchar r1) 8
                                                  + Z.shiftl (to_uchar r2) 16
                                                  + Z.shiftl (to_uchar r3) 24)));
                  flashSize (to_int (to_uint (to_uchar z0 + Z.shiftl (to_uchar z1) 8
                                              + Z.shiftl (to_uchar z2) 16
                                              + Z.shiftl (to_uchar z3) 24)));
                  serialNumber EmptyString; OTP EmptyString;
                  statusUpdate "Erasing flash, this may take up to a minute";
                  statusUpdate "Flashing firmware"]
              ++ progress ++ [statusUpdate "Flashing complete!"; done];
            m_port_assigned := assigned |})
      /\ forallb is_progress progress = true)
  end.
  { rewrite bind_port_write. normal_state.
    match goal with |- context [bind (get_sync ?timeout) ?k ?st] =>
      destruct (get_sync_prompt timeout st _ eq_refl Hq Hpend) as (sb0 & inc0 & Hg & Hpend0 & Hq0);
      rewrite (bind_ok _ _ _ _ _ Hg); clear Hg
    end.
    cbn [Z.eqb]. normal_state. unfold synced.
    rewrite bind_emit. normal_state.
    query_step Hq0 Hpend0 r0 r1 r2 r3 sb1 inc1 Hpend1 Hq1.
    rewrite bind_emit. normal_state.
    query_step Hq1 Hpend1 i0 i1 i2 i3 sb2 inc2 Hpend2 Hq2.
    rewrite bind_emit. normal_state.
    query_step Hq2 Hpend2 v0 v1 v2 v3 sb3 inc3 Hpend3 Hq3.
    rewrite bind_emit. normal_state.
    query_step Hq3 Hpend3 z0 z1 z2 z3 sb4 inc4 Hpend4 Hq4.
    unfold return_if_stopped at 1, get_stop. unfold bind at 1. unfold bind at 1.
    normal_state. cbv beta iota. unfold ret at 1. cbv beta iota.
    match goal with |- context [to_int ?v >=? 4] =>
      replace (to_int v >=? 4) with false by (symmetry; rewrite Z.geb_leb; apply Z.leb_gt; lia)
    end.
    rewrite bind_ret. cbv beta iota zeta.
    unfold return_if_stopped at 1, get_stop. unfold bind at 1. unfold bind at 1.
    normal_state. cbv beta iota. unfold ret at 1. cbv beta iota.
    do 6 (rewrite bind_emit; normal_state).
    match goal with |- context [bind (erase_and_program fuel) ?k ?st] =>
      destruct (erase_and_program_prompt fuel image p fo sb4 inc4
                  (written (m_port st)) op del id size descr run (emitted st) assigned rest
                  Hq4 Hpend4 Hfuel)
        as (sb' & inc' & progress & He & _ & Hprog)
    end.
    exists sb', inc', progress. split; [| exact Hprog].
    unfold flashing in He. normal_state_in He.
    rewrite (bind_return _ _ _ _ He).
    do 2 f_equal.
    - f_equal. unfold info_command, to_uchar. cbn. rewrite <- !app_assoc. reflexivity.
    - rewrite <- !app_assoc. reflexivity. }
  destruct Hbody as (sb' & inc' & progress & Hbody & Hprog).
  eexists. exists progress.
  rewrite (bind_return _ _ _ _ (iteration_return _ _ _ Hbody)).
  repeat split. exact Hprog.
Qed.

Lemma run_flashes_image_witness :
  exists s',
    run_connected 2 (uploader two_chunk_image (handshake 3 ++ [ack; ack; ack])) = (Return, s')
    /\ isOpen (m_port s') = false
    /\ tempFile s' = None.
Proof.
  destruct (run_flashes_image 2 (uploader two_chunk_image (handshake 3 ++ [ack; ack; ack]))
              {| data := two_chunk_image; pos := 0%nat; file_isOpen := false |}
              [3; 0; 0; 0] [9; 0; 0; 0] [0; 0; 0; 0] [0; 0; 0x10; 0] [])
    as (s' & progress & H & _ & _ & _ & Hopen & _ & Hfile);
    try reflexivity;
    try (split; [reflexivity | repeat first [apply Forall_nil | apply Forall_cons];
                               unfold is_byte; lia]).
  exists s'. split; [exact H | split; [exact Hopen | exact Hfile]].
Defined.

End UploaderWholeRun.
